(** * annotate_video.py: a shallow embedding and its checked properties

    The script submits one local video to a remote multimodal endpoint and
    stores the returned annotation as a JSON file and a text file.  The
    embedding follows the source function by function:

    - a Python [str] is the list of its code points ([list Z]), lone
      surrogates included; a file on disk is a list of bytes;
      [open(..., encoding='utf-8')] goes through the strict UTF-8 codec
      below, and reading applies universal-newline translation;
    - [pathlib.Path] is a record (root, parts) with [name], [stem], [parent],
      [/] and [absolute];
    - [json.dump(..., ensure_ascii=False, indent=2)] is the chunk sequence of
      the pure-Python encoder, [json.loads] a recursive-descent decoder;
    - the world (files, refused paths, clock ticks, trace of effects) is
      threaded through a state-and-exception monad [M]; the working
      directory, the script location, the clock and the endpoint form the
      environment;
    - a path that is not in the file system is refused the way the operating
      system refuses it: no such entry, a regular file on the way, or a
      component longer than 255 bytes, which makes [exists()] raise;
    - [print] of text that comes from outside the process (the annotation,
      the text of an exception) or of a path built from an argument raises
      [UnicodeEncodeError] when the text is not valid UTF-8;
    - [float] values are primitive binary64 floats; how a float is printed
      ([repr], [:.1f]), timedelta arithmetic and the wording of the
      exceptions the runtime raises belong to the Python runtime and are the
      fields of a record [Runtime].

    Boundaries of the model: the logging sink never fails and tracebacks
    attached to log records are left out; the log file is not an entry of
    the file system, its records are events of the trace; the console is
    UTF-8 with the strict error handler, and it shows what [annotate_video]
    announces before the call (the name of the video it has just found, its
    own settings); the module-level set-up (logging configuration, API key)
    and the parsing of the command line by [argparse] are not part of the
    model, which starts from the parsed arguments; paths are keys as they
    are written, resolved lexically against the working directory: [..] and
    symbolic links are not followed, directories are always searchable, and
    the limit on the length of a whole path is left out; text is written
    with the POSIX line separator.

    The file has two parts: the definitions (codec, paths, JSON, world,
    script, observations, a concrete sample run, further observations), then
    the lemmas and the theorems about them. *)

From Stdlib Require Import ZArith List String Ascii Floats Lia Bool.
From stdpp Require Import base option list gmap.
Import ListNotations.
Local Open Scope Z_scope.

(** ** Python strings and the UTF-8 codec *)

Abbreviation pystr := (list Z) (only parsing).
Abbreviation bytes := (list Z) (only parsing).

Module Utf8.

Definition is_cont (b : Z) : bool := (0x80 <=? b) && (b <? 0xC0).

Definition is_surrogate (c : Z) : bool := (0xD800 <=? c) && (c <? 0xE000).

(** What the strict codec can encode: a scalar value, not a lone surrogate. *)
Definition encodable_cp (c : Z) : bool :=
  (0 <=? c) && (c <? 0x110000) && negb (is_surrogate c).

Definition encode_cp (c : Z) : option bytes :=
  if negb (encodable_cp c) then None
  else if c <? 0x80 then Some [c]
  else if c <? 0x800 then Some [0xC0 + c / 64; 0x80 + c mod 64]
  else if c <? 0x10000 then
    Some [0xE0 + c / 4096; 0x80 + (c / 64) mod 64; 0x80 + c mod 64]
  else
    Some [0xF0 + c / 262144; 0x80 + (c / 4096) mod 64;
          0x80 + (c / 64) mod 64; 0x80 + c mod 64].

Fixpoint encode (s : pystr) : option bytes :=
  match s with
  | [] => Some []
  | c :: r =>
      match encode_cp c, encode r with
      | Some bs, Some br => Some (bs ++ br)
      | _, _ => None
      end
  end.

Definition encodable (s : pystr) : bool := forallb encodable_cp s.

Fixpoint decode (bs : bytes) : option pystr :=
  match bs with
  | [] => Some []
  | b0 :: r0 =>
      if (0 <=? b0) && (b0 <? 0x80) then cons b0 <$> decode r0
      else if (0xC2 <=? b0) && (b0 <? 0xE0) then
        match r0 with
        | b1 :: r1 =>
            if is_cont b1
            then cons ((b0 - 0xC0) * 64 + (b1 - 0x80)) <$> decode r1
            else None
        | _ => None
        end
      else if (0xE0 <=? b0) && (b0 <? 0xF0) then
        match r0 with
        | b1 :: b2 :: r2 =>
            let c := (b0 - 0xE0) * 4096 + (b1 - 0x80) * 64 + (b2 - 0x80) in
            if is_cont b1 && is_cont b2 && (0x800 <=? c) && negb (is_surrogate c)
            then cons c <$> decode r2
            else None
        | _ => None
        end
      else if (0xF0 <=? b0) && (b0 <? 0xF5) then
        match r0 with
        | b1 :: b2 :: b3 :: r3 =>
            let c := (b0 - 0xF0) * 262144 + (b1 - 0x80) * 4096
                     + (b2 - 0x80) * 64 + (b3 - 0x80) in
            if is_cont b1 && is_cont b2 && is_cont b3
               && (0x10000 <=? c) && (c <? 0x110000)
            then cons c <$> decode r3
            else None
        | _ => None
        end
      else None
  end.

(** A code point that is written as it is and read back as it is: one the
    codec encodes, other than the carriage return that reading rewrites. *)
Definition plain_cp (c : Z) : bool := encodable_cp c && negb (c =? 13).

Definition plain (s : pystr) : bool := forallb plain_cp s.

End Utf8.

(** A source-code string literal, as the [str] it denotes. *)
Definition bytes_of_string (s : string) : bytes :=
  map (fun b => Z.of_N (Byte.to_N b)) (list_byte_of_string s).

Definition lit (s : string) : pystr :=
  default [] (Utf8.decode (bytes_of_string s)).

(** [newline=None] on reading: CR and CRLF come back as LF. *)
Fixpoint universal_newlines (s : pystr) : pystr :=
  match s with
  | [] => []
  | c :: r =>
      if c =? 13 then
        10 :: match r with
              | c' :: r' =>
                  if c' =? 10 then universal_newlines r' else universal_newlines r
              | [] => []
              end
      else c :: universal_newlines r
  end.

(** [str(n)] for an [int]. *)
Fixpoint digits_fuel (fuel : nat) (n : Z) (acc : pystr) : pystr :=
  match fuel with
  | O => acc
  | S f =>
      let acc' := (48 + n mod 10) :: acc in
      if n <? 10 then acc' else digits_fuel f (n / 10) acc'
  end.

Definition str_of_nonneg (n : Z) : pystr :=
  digits_fuel (S (Z.to_nat (Z.log2 n))) n [].

Definition str_of_int (n : Z) : pystr :=
  if n <? 0 then 45 :: str_of_nonneg (- n) else str_of_nonneg n.

(** [s.startswith(p)] and substring search ([needle in s]). *)
Fixpoint starts_with (p s : pystr) : bool :=
  match p, s with
  | [], _ => true
  | a :: p', b :: s' => (a =? b) && starts_with p' s'
  | _ :: _, [] => false
  end.

Fixpoint contains (needle s : pystr) : bool :=
  starts_with needle s ||
  match s with
  | [] => false
  | _ :: s' => contains needle s'
  end.

Fixpoint strip_prefix (p s : pystr) : option pystr :=
  match p, s with
  | [], _ => Some s
  | a :: p', b :: s' => if a =? b then strip_prefix p' s' else None
  | _ :: _, [] => None
  end.

Definition join_with (sep : pystr) (l : list pystr) : pystr :=
  match l with
  | [] => []
  | h :: t => h ++ concat (map (fun x => sep ++ x) t)
  end.

Fixpoint split_on (sep : Z) (s : pystr) : list pystr :=
  match s with
  | [] => [[]]
  | c :: r =>
      if c =? sep then [] :: split_on sep r
      else match split_on sep r with
           | h :: t => (c :: h) :: t
           | [] => [[c]]
           end
  end.

Definition pystr_eqb (a b : pystr) : bool := bool_decide (a = b).

(** ** pathlib (POSIX flavour) *)

Module pathlib.

Record Path := mkPath { root : pystr; parts : list pystr }.

Definition slash : Z := 47.
Definition dot : Z := 46.

(** A component kept by the parser: not empty and not ["."]. *)
Definition keep_part (x : pystr) : bool :=
  negb (pystr_eqb x []) && negb (pystr_eqb x [dot]).

(** [Path(s)]: [posixpath.splitroot], then the components. *)
Definition parse (s : pystr) : Path :=
  match s with
  | a :: r1 =>
      if a =? slash then
        match r1 with
        | b :: r2 =>
            if (b =? slash) && negb (starts_with [slash] r2)
            then mkPath [slash; slash] (filter keep_part (split_on slash r2))
            else mkPath [slash] (filter keep_part (split_on slash r1))
        | [] => mkPath [slash] []
        end
      else mkPath [] (filter keep_part (split_on slash s))
  | [] => mkPath [] []
  end.

(** [str(p)] *)
Definition str (p : Path) : pystr :=
  match root p, parts p with
  | [], [] => [dot]
  | r, ps => r ++ join_with [slash] ps
  end.

Definition is_absolute (p : Path) : bool := negb (pystr_eqb (root p) []).

(** [p.name] *)
Definition name (p : Path) : pystr := List.last (parts p) [].

(** [s.rfind('.')], as the number of characters before the last dot. *)
Fixpoint rfind_dot (s : pystr) : option nat :=
  match s with
  | [] => None
  | c :: r =>
      match rfind_dot r with
      | Some i => Some (S i)
      | None => if c =? dot then Some O else None
      end
  end.

(** [p.stem]: the name without its last suffix. *)
Definition stem (p : Path) : pystr :=
  let n := name p in
  match rfind_dot n with
  | Some i =>
      if (0 <? i)%nat && (i <? length n - 1)%nat then firstn i n else n
  | None => n
  end.

(** [p.parent] *)
Definition parent (p : Path) : Path :=
  match parts p with
  | [] => p
  | ps => mkPath (root p) (removelast ps)
  end.

(** [p / s]: an absolute right operand replaces the left one. *)
Definition joinpath (p : Path) (s : pystr) : Path :=
  let q := parse s in
  if is_absolute q then q else mkPath (root p) (parts p ++ parts q).

(** [p.absolute()], [cwd] being [os.getcwd()]. *)
Definition absolute (cwd : pystr) (p : Path) : Path :=
  if is_absolute p then p
  else let c := parse cwd in mkPath (root c) (parts c ++ parts p).

(** A component as the parser keeps it. *)
Definition good_part (x : pystr) : Prop :=
  keep_part x = true /\ Forall (fun c => c <> slash) x.

(** A path as the parser builds it. *)
Definition wf (p : Path) : Prop :=
  (root p = [] \/ root p = [slash] \/ root p = [slash; slash])
  /\ Forall good_part (parts p).

End pathlib.

(** ** json: the encoder used by [json.dump(..., ensure_ascii=False, indent=2)]
    and the decoder of [json.loads] *)

Module json.

Definition quote : Z := 34.
Definition backslash : Z := 92.

Definition hex_digit (n : Z) : Z := if n <? 10 then 48 + n else 87 + n.

(** [ESCAPE_DCT]: the two-character escapes, [\u00xx] for the other
    control characters; everything from U+0020 on is kept as it is. *)
Definition escape_cp (c : Z) : pystr :=
  if c =? quote then [backslash; quote]
  else if c =? backslash then [backslash; backslash]
  else if c =? 10 then [backslash; 110]
  else if c =? 13 then [backslash; 114]
  else if c =? 9 then [backslash; 116]
  else if c =? 8 then [backslash; 98]
  else if c =? 12 then [backslash; 102]
  else if (0 <=? c) && (c <? 32)
       then [backslash; 117; 48; 48; hex_digit (c / 16); hex_digit (c mod 16)]
  else [c].

Definition escape (s : pystr) : pystr := concat (map escape_cp s).

(** [py_encode_basestring] *)
Definition encode_basestring (s : pystr) : pystr := quote :: escape s ++ [quote].

(** The values the script puts in its record. *)
Inductive pyvalue :=
| PStr (s : pystr)
| PFloat (x : float).

Section Encoder.
Variable float_repr : float -> pystr.

(** [floatstr] of [json.encoder], with [allow_nan] left at its default. *)
Definition floatstr (o : float) : pystr :=
  if negb (PrimFloat.eqb o o) then lit "NaN"
  else if PrimFloat.eqb o infinity then lit "Infinity"
  else if PrimFloat.eqb o neg_infinity then lit "-Infinity"
  else float_repr o.

Definition encode_value (v : pyvalue) : pystr :=
  match v with
  | PStr s => encode_basestring s
  | PFloat x => floatstr x
  end.

(** An item whose strings the codec can encode. *)
Definition plain_item (kv : pystr * pyvalue) : Prop :=
  Utf8.encodable kv.1 = true
  /\ match kv.2 with PStr s => Utf8.encodable s = true | PFloat _ => True end.

(** A float that is neither NaN nor an infinity. *)
Definition finite (o : float) : bool :=
  PrimFloat.eqb o o && negb (PrimFloat.eqb o infinity)
  && negb (PrimFloat.eqb o neg_infinity).

(** The chunks [_iterencode_dict] yields per item at indent level 1. *)
Fixpoint iterencode_items (first : bool) (items : list (pystr * pyvalue))
  : list pystr :=
  match items with
  | [] => []
  | (k, v) :: rest =>
      (if first then [] else [lit "," ++ [10; 32; 32]])
      ++ [encode_basestring k; lit ": "; encode_value v]
      ++ iterencode_items false rest
  end.

(** [iterencode] of a flat dict with [indent=2]. *)
Definition iterencode_dict (items : list (pystr * pyvalue)) : list pystr :=
  match items with
  | [] => [lit "{}"]
  | _ => [lit "{"; [10; 32; 32]] ++ iterencode_items true items
         ++ [[10]; lit "}"]
  end.
End Encoder.

(** *** Decoder *)

#[local] Set Warnings "-register-all".
Inductive value :=
| Null
| Bool (b : bool)
| Number (token : pystr)
| Str (s : pystr)
| Arr (items : list value)
| Obj (pairs : list (pystr * value)).

Definition is_ws (c : Z) : bool :=
  (c =? 32) || (c =? 9) || (c =? 10) || (c =? 13).

Fixpoint skip_ws (s : pystr) : pystr :=
  match s with
  | c :: r => if is_ws c then skip_ws r else s
  | [] => []
  end.

Definition hex_value (c : Z) : option Z :=
  if (48 <=? c) && (c <=? 57) then Some (c - 48)
  else if (97 <=? c) && (c <=? 102) then Some (c - 87)
  else if (65 <=? c) && (c <=? 70) then Some (c - 55)
  else None.

Definition hex4 (a b c d : Z) : option Z :=
  match hex_value a, hex_value b, hex_value c, hex_value d with
  | Some x, Some y, Some z, Some w => Some (((x * 16 + y) * 16 + z) * 16 + w)
  | _, _, _, _ => None
  end.

(** [BACKSLASH] *)
Definition unescape (c : Z) : option Z :=
  if c =? quote then Some quote
  else if c =? backslash then Some backslash
  else if c =? 47 then Some 47
  else if c =? 98 then Some 8
  else if c =? 102 then Some 12
  else if c =? 110 then Some 10
  else if c =? 114 then Some 13
  else if c =? 116 then Some 9
  else None.

(** A low surrogate escape [\uDC00]..[\uDFFF] at the head of the input. *)
Definition low_surrogate_escape (s : pystr) : option (Z * pystr) :=
  match s with
  | b :: u :: h1 :: h2 :: h3 :: h4 :: r =>
      if (b =? backslash) && (u =? 117) then
        match hex4 h1 h2 h3 h4 with
        | Some lo => if (0xDC00 <=? lo) && (lo <=? 0xDFFF) then Some (lo, r) else None
        | None => None
        end
      else None
  | _ => None
  end.

(** [py_scanstring] with [strict=True]; the input starts after the
    opening quote.  Returns the string and what follows the closing quote. *)
Fixpoint scanstring (s : pystr) : option (pystr * pystr) :=
  match s with
  | [] => None
  | c :: r =>
      if c =? quote then Some ([], r)
      else if c =? backslash then
        match r with
        | e :: r1 =>
            if e =? 117 then
              match r1 with
              | h1 :: h2 :: h3 :: h4 :: r5 =>
                  match hex4 h1 h2 h3 h4 with
                  | Some uni =>
                      if (0xD800 <=? uni) && (uni <=? 0xDBFF) then
                        match r5 with
                        | b :: u :: g1 :: g2 :: g3 :: g4 :: r11 =>
                            match low_surrogate_escape r5 with
                            | Some (lo, _) =>
                                '(t, rest) ← scanstring r11;
                                Some ((0x10000 + (uni - 0xD800) * 1024 + (lo - 0xDC00)) :: t, rest)
                            | None =>
                                '(t, rest) ← scanstring r5; Some (uni :: t, rest)
                            end
                        | _ => '(t, rest) ← scanstring r5; Some (uni :: t, rest)
                        end
                      else '(t, rest) ← scanstring r5; Some (uni :: t, rest)
                  | None => None
                  end
              | _ => None
              end
            else
              match unescape e with
              | Some ch => '(t, rest) ← scanstring r1; Some (ch :: t, rest)
              | None => None
              end
        | [] => None
        end
      else if (0 <=? c) && (c <? 32) then None
      else '(t, rest) ← scanstring r; Some (c :: t, rest)
  end.

Definition is_digit (c : Z) : bool := (48 <=? c) && (c <=? 57).

Fixpoint span_digits (s : pystr) : pystr * pystr :=
  match s with
  | c :: r =>
      if is_digit c then let '(d, r') := span_digits r in (c :: d, r')
      else ([], s)
  | [] => ([], [])
  end.

(** [NUMBER_RE]: an optional minus sign, then 0 or a digit string without
    leading zero; an optional fraction (a dot and digits); an optional
    exponent (e or E, an optional sign, digits). *)
Definition scan_int (s : pystr) : option (pystr * pystr) :=
  let '(sign, s1) :=
    match s with
    | c :: r => if c =? 45 then ([45], r) else ([], s)
    | [] => ([], [])
    end in
  match s1 with
  | c :: r1 =>
      if c =? 48 then Some (sign ++ [48], r1)
      else if is_digit c then
        let '(d, r2) := span_digits r1 in Some (sign ++ c :: d, r2)
      else None
  | [] => None
  end.

Definition scan_frac (s : pystr) : pystr * pystr :=
  match s with
  | c :: r =>
      if c =? 46 then
        match span_digits r with
        | (d0 :: d, r') => (c :: d0 :: d, r')
        | ([], _) => ([], s)
        end
      else ([], s)
  | [] => ([], [])
  end.

Definition scan_exp (s : pystr) : pystr * pystr :=
  match s with
  | c :: r =>
      if (c =? 101) || (c =? 69) then
        let '(sign, r1) :=
          match r with
          | g :: r0 => if (g =? 45) || (g =? 43) then ([g], r0) else ([], r)
          | [] => ([], [])
          end in
        match span_digits r1 with
        | (d0 :: d, r') => (c :: sign ++ d0 :: d, r')
        | ([], _) => ([], s)
        end
      else ([], s)
  | [] => ([], [])
  end.

Definition scan_number (s : pystr) : option (pystr * pystr) :=
  match scan_int s with
  | Some (i, r1) =>
      let '(f, r2) := scan_frac r1 in
      let '(e, r3) := scan_exp r2 in
      Some (i ++ f ++ e, r3)
  | None => None
  end.

(** A whole string is one number of the JSON grammar. *)
Definition number_token (t : pystr) : bool :=
  match scan_number t with
  | Some (_, []) => true
  | _ => false
  end.

(** What follows a value in the encoder's output: a comma or a newline. *)
Definition delimiter (c : Z) : Prop := c = 44 \/ c = 10.

Definition scan_literal (s : pystr) : option (value * pystr) :=
  match strip_prefix (lit "null") s with Some r => Some (Null, r) | None =>
  match strip_prefix (lit "true") s with Some r => Some (Bool true, r) | None =>
  match strip_prefix (lit "false") s with Some r => Some (Bool false, r) | None =>
  match scan_number s with Some (t, r) => Some (Number t, r) | None =>
  match strip_prefix (lit "NaN") s with Some r => Some (Number (lit "NaN"), r) | None =>
  match strip_prefix (lit "Infinity") s with Some r => Some (Number (lit "Infinity"), r) | None =>
  match strip_prefix (lit "-Infinity") s with Some r => Some (Number (lit "-Infinity"), r) | None =>
  None end end end end end end end.

(** [scan_once], [JSONObject] and [JSONArray]; [fuel] bounds the nesting
    depth plus the number of items. *)
Fixpoint scan_once (fuel : nat) (s : pystr) : option (value * pystr) :=
  match fuel with
  | O => None
  | S f =>
      match s with
      | c :: r =>
          if c =? quote then
            '(t, rest) ← scanstring r; Some (Str t, rest)
          else if c =? 123 then
            match skip_ws r with
            | d :: r1 =>
                if d =? 125 then Some (Obj [], r1)
                else if d =? quote then
                  '(ps, rest) ← scan_pairs f r1; Some (Obj ps, rest)
                else None
            | [] => None
            end
          else if c =? 91 then
            match skip_ws r with
            | d :: r1 =>
                if d =? 93 then Some (Arr [], r1)
                else '(vs, rest) ← scan_items f (d :: r1); Some (Arr vs, rest)
            | [] => None
            end
          else scan_literal s
      | [] => None
      end
  end
(** the input starts after the opening quote of a key *)
with scan_pairs (fuel : nat) (s : pystr) : option (list (pystr * value) * pystr) :=
  match fuel with
  | O => None
  | S f =>
      '(k, r1) ← scanstring s;
      match skip_ws r1 with
      | c :: r2 =>
          if c =? 58 then
            '(v, r3) ← scan_once f (skip_ws r2);
            match skip_ws r3 with
            | d :: r4 =>
                if d =? 125 then Some ([(k, v)], r4)
                else if d =? 44 then
                  match skip_ws r4 with
                  | q :: r5 =>
                      if q =? quote then
                        '(ps, rest) ← scan_pairs f r5; Some ((k, v) :: ps, rest)
                      else None
                  | [] => None
                  end
                else None
            | [] => None
            end
          else None
      | [] => None
      end
  end
with scan_items (fuel : nat) (s : pystr) : option (list value * pystr) :=
  match fuel with
  | O => None
  | S f =>
      '(v, r1) ← scan_once f s;
      match skip_ws r1 with
      | d :: r2 =>
          if d =? 93 then Some ([v], r2)
          else if d =? 44 then
            '(vs, rest) ← scan_items f (skip_ws r2); Some (v :: vs, rest)
          else None
      | [] => None
      end
  end.

(** [json.loads(s)]: one value, surrounded by whitespace only. *)
Definition loads (s : pystr) : option value :=
  match scan_once (S (length s)) (skip_ws s) with
  | Some (v, rest) => match skip_ws rest with [] => Some v | _ => None end
  | None => None
  end.

(** [d[key]] on a decoded object; a repeated key keeps its last value. *)
Fixpoint lookup_pairs (key : pystr) (ps : list (pystr * value)) : option value :=
  match ps with
  | [] => None
  | (k, v) :: rest =>
      match lookup_pairs key rest with
      | Some v' => Some v'
      | None => if pystr_eqb k key then Some v else None
      end
  end.

Definition get (key : pystr) (v : value) : option value :=
  match v with
  | Obj ps => lookup_pairs key ps
  | _ => None
  end.

(** The decoded form of an encoded value; a number is kept as its text. *)
Definition decoded (float_repr : float -> pystr) (v : pyvalue) : value :=
  match v with
  | PStr s => Str s
  | PFloat x => Number (floatstr float_repr x)
  end.

Definition decoded_pair (float_repr : float -> pystr) (kv : pystr * pyvalue)
  : pystr * value :=
  (kv.1, decoded float_repr kv.2).

End json.

(** ** The world the script runs in *)

Inductive exc_class :=
| Exception
| OSError
| ValueError
| FileNotFoundError
| FileExistsError
| IsADirectoryError
| NotADirectoryError
| PermissionError
| UnicodeDecodeError
| UnicodeEncodeError
| LibraryError.

(** A raised exception: its class and [str(e)]; [sys.exit(n)] raises
    [SystemExit], which [except Exception] does not catch. *)
Inductive exn :=
| Exc (cls : exc_class) (text : pystr)
| SystemExit (code : Z).

Record datetime := mkDatetime {
  year : Z; month : Z; day : Z;
  hour : Z; minute : Z; second : Z; microsecond : Z
}.

(** What belongs to the Python runtime and its libraries rather than to the
    script: how floats are printed, timedelta arithmetic, and the wording of
    the exceptions the runtime raises on its own. *)
Record Runtime := mkRuntime {
  float_repr : float -> pystr;
  float_fixed : nat -> float -> pystr;
  total_seconds : datetime -> datetime -> float;
  error_text : exc_class -> pystr -> pystr
}.

Inductive node :=
| Dir
| File (data : bytes).

Inductive content_block :=
| VideoBlock (video : pystr) (fps : float)
| TextBlock (text : pystr).

Record message := mkMessage { role : pystr; content : list content_block }.

Record api_request := mkRequest {
  req_model : pystr;
  req_messages : list message;
  req_temperature : float;
  req_max_tokens : Z;
  req_top_p : float
}.

(** What [MultiModalConversation.call] does: it answers with a status code,
    a message and, when well formed, the first choice's content; or the call
    itself raises. *)
Inductive api_reply :=
| Reply (status_code : Z) (message_text : pystr) (choice_content : option pystr)
| Fault (cls : exc_class) (text : pystr).

Inductive level := DEBUG | INFO | WARNING | ERROR.

Inductive event :=
| EvLog (lv : level) (msg : pystr)
| EvPrint (msg : pystr)
| EvTraceback (e : exn)
| EvMkdir (path : pystr)
| EvOpenRead (path : pystr)
| EvOpenWrite (path : pystr)
| EvApiCall (req : api_request).

(** The fixed surroundings of one run.  [script_file] is [__file__], the
    path the interpreter read the script from: a path of valid UTF-8. *)
Record Env := mkEnv {
  cwd : pystr;
  script_file : pystr;
  clock : nat -> datetime;
  endpoint : api_request -> api_reply;
  script_file_utf8 : Utf8.encodable script_file = true
}.

(** The mutable state: files by absolute path, the paths the process may not
    open or create, the clock readings taken so far, and the effects
    performed, most recent first. *)
Record World := mkWorld {
  fs : gmap pystr node;
  denied : gset pystr;
  ticks : nat;
  trace : list event
}.

Definition with_fs (f : gmap pystr node) (w : World) : World :=
  mkWorld f (denied w) (ticks w) (trace w).

Definition emit (e : event) (w : World) : World :=
  mkWorld (fs w) (denied w) (ticks w) (e :: trace w).

(** ** State and exceptions *)

Inductive res (A : Type) :=
| Done (a : A)
| Raised (e : exn).
Arguments Done {A} a.
Arguments Raised {A} e.

Definition M (A : Type) : Type := World -> res A * World.

Definition ret {A} (a : A) : M A := fun w => (Done a, w).

Definition bind {A B} (m : M A) (k : A -> M B) : M B :=
  fun w => match m w with
           | (Done a, w') => k a w'
           | (Raised e, w') => (Raised e, w')
           end.

Definition raise {A} (e : exn) : M A := fun w => (Raised e, w).

(** [try: body except Exception as e: handler] *)
Definition try_except {A} (body : M A) (handler : exc_class -> pystr -> M A) : M A :=
  fun w => match body w with
           | (Raised (Exc c t), w') => handler c t w'
           | r => r
           end.

Declare Scope py_scope.
Delimit Scope py_scope with py.
Notation "x <- m ;; k" := (bind m (fun x => k))
  (at level 100, m at next level, right associativity) : py_scope.
Notation "m ;; k" := (bind m (fun _ => k))
  (at level 100, right associativity) : py_scope.
Local Open Scope py_scope.

Definition do_emit (e : event) : M unit := fun w => (Done tt, emit e w).

(** [logging.basicConfig(level=logging.INFO)]: DEBUG records are dropped. *)
Definition logger (lv : level) (msg : pystr) : M unit :=
  match lv with
  | DEBUG => ret tt
  | _ => do_emit (EvLog lv msg)
  end.

(** [print(msg)] of a string the console shows: a constant, a number, or
    what [annotate_video] announces before the call. *)
Definition print (msg : pystr) : M unit := do_emit (EvPrint msg).

(** ** What the operating system makes of a path *)

Definition NAME_MAX : nat := 255.

(** [os.fsencode]: UTF-8 with [surrogateescape], under which the code
    points U+DC80..U+DCFF stand for one byte each. *)
Definition is_escape (c : Z) : bool := (0xDC80 <=? c) && (c <? 0xDD00).

Definition fs_encodable (s : pystr) : bool :=
  forallb (fun c => Utf8.encodable_cp c || is_escape c) s.

Definition fs_width (c : Z) : nat :=
  if c <? 0x80 then 1
  else if c <? 0x800 then 2
  else if is_escape c then 1
  else if c <? 0x10000 then 3
  else 4.

Definition fs_length (s : pystr) : nat := sum_list (map fs_width s).

(** A component longer than the file system allows. *)
Definition too_long (part : pystr) : bool := (NAME_MAX <? fs_length part)%nat.

(** Why a path is not found: Python refuses it before the system call (a
    null character, a code point [os.fsencode] cannot encode), or the
    system call fails with ENOENT, ENOTDIR or ENAMETOOLONG. *)
Inductive miss :=
| NullByte
| NotEncodable
| NoEntry
| NotDirectory
| NameTooLong.

(** [s] ends with a slash or with the component [.]: it names a directory. *)
Definition names_directory (s : pystr) : bool :=
  negb (pathlib.keep_part (List.last (split_on pathlib.slash s) [])).

Section Script.

Variable rt : Runtime.
Variable env : Env.

(** The key of a path in the file system: its absolute form. *)
Definition os_path (p : pathlib.Path) : pystr :=
  pathlib.str (pathlib.absolute (cwd env) p).

(** [print(msg)] in general: the text is encoded for the console as a
    whole, and nothing is shown when that fails. *)
Definition print_text (msg : pystr) : M unit :=
  fun w =>
    if Utf8.encodable msg then (Done tt, emit (EvPrint msg) w)
    else (Raised (Exc UnicodeEncodeError (error_text rt UnicodeEncodeError msg)), w).

(** The walk of the system call along a path that is not there.  It stops
    at the deepest directory on the way that exists; the component after it
    is refused when it is too long and is missing otherwise; a regular file
    on the way ends the walk.  The walk starts in the root or in the working
    directory, which are there. *)
Fixpoint walk (fuel : nat) (p : pathlib.Path) (files : gmap pystr node) : miss :=
  match fuel with
  | O => NoEntry
  | S f =>
      let verdict :=
        if too_long (pathlib.name p) then NameTooLong else NoEntry in
      match files !! os_path (pathlib.parent p) with
      | Some (File _) => NotDirectory
      | Some Dir => verdict
      | None =>
          match pathlib.parts (pathlib.parent p) with
          | [] => verdict
          | _ => walk f (pathlib.parent p) files
          end
      end
  end.

(** Why the path [p], written [shown], is not found among [files]. *)
Definition lookup_miss (shown : pystr) (p : pathlib.Path)
                       (files : gmap pystr node) : miss :=
  if existsb (Z.eqb 0) shown then NullByte
  else if negb (fs_encodable shown) then NotEncodable
  else walk (length (pathlib.parts p)) p files.

(** The exception [open] raises for a path that is not found. *)
Definition miss_error (shown : pystr) (m : miss) : exn :=
  match m with
  | NullByte => Exc ValueError (lit "embedded null byte")
  | NotEncodable =>
      Exc UnicodeEncodeError (error_text rt UnicodeEncodeError shown)
  | NoEntry => Exc FileNotFoundError (error_text rt FileNotFoundError shown)
  | NotDirectory =>
      Exc NotADirectoryError (error_text rt NotADirectoryError shown)
  | NameTooLong => Exc OSError (error_text rt OSError shown)
  end.

(** [p.exists()]: [False] for a path that is not found, except that
    ENAMETOOLONG is not among the errors [exists] takes for an answer and is
    raised as [OSError]. *)
Definition path_exists (p : pathlib.Path) : M bool :=
  fun w =>
    match fs w !! os_path p with
    | Some _ => (Done true, w)
    | None =>
        match lookup_miss (pathlib.str p) p (fs w) with
        | NameTooLong => (Raised (miss_error (pathlib.str p) NameTooLong), w)
        | _ => (Done false, w)
        end
    end.

(** [p.stat().st_size] *)
Definition stat_size (p : pathlib.Path) : M Z :=
  fun w => match fs w !! os_path p with
           | Some (File data) => (Done (Z.of_nat (length data)), w)
           | Some Dir => (Done 4096, w)
           | None => (Raised (Exc FileNotFoundError
                                 (error_text rt FileNotFoundError (pathlib.str p))), w)
           end.

(** The checks an [open] or [mkdir] goes through before touching [p]:
    the parent is a directory and access is not refused. *)
Definition access_error (p : pathlib.Path) (w : World) : option exn :=
  let oserror c := Some (Exc c (error_text rt c (pathlib.str p))) in
  match fs w !! os_path (pathlib.parent p) with
  | None => oserror FileNotFoundError
  | Some (File _) => oserror NotADirectoryError
  | Some Dir =>
      if bool_decide (os_path p ∈ denied w) then oserror PermissionError
      else None
  end.

(** [p.mkdir(exist_ok=True)] *)
Definition mkdir_exist_ok (p : pathlib.Path) : M unit :=
  fun w0 =>
    let w := emit (EvMkdir (os_path p)) w0 in
    match fs w !! os_path p with
    | Some Dir => (Done tt, w)
    | Some (File _) =>
        (Raised (Exc FileExistsError
                     (error_text rt FileExistsError (pathlib.str p))), w)
    | None =>
        match access_error p w with
        | Some e => (Raised e, w)
        | None => (Done tt, with_fs (<[os_path p := Dir]> (fs w)) w)
        end
    end.

(** [with open(shown, 'r', encoding='utf-8') as f: f.read()], where the
    string [shown] names the path [p]; [as_dir] says that it names it as a
    directory.  The errors of the operating system carry the path as it was
    written, the error of the codec describes the bytes.  A directory that
    may be opened is refused by [open] itself. *)
Definition open_read (shown : pystr) (p : pathlib.Path) (as_dir : bool) : M pystr :=
  fun w0 =>
    let w := emit (EvOpenRead (os_path p)) w0 in
    let oserror c := (Raised (Exc c (error_text rt c shown)), w) in
    match fs w !! os_path p with
    | None => (Raised (miss_error shown (lookup_miss shown p (fs w))), w)
    | Some Dir =>
        if bool_decide (os_path p ∈ denied w) then oserror PermissionError
        else oserror IsADirectoryError
    | Some (File data) =>
        if as_dir then oserror NotADirectoryError
        else if bool_decide (os_path p ∈ denied w) then oserror PermissionError
        else match Utf8.decode data with
             | Some s => (Done (universal_newlines s), w)
             | None =>
                 (Raised (Exc UnicodeDecodeError
                              (error_text rt UnicodeDecodeError data)), w)
             end
    end.

(** [open(p, 'r', encoding='utf-8')] on a [Path]: [str(p)] is what is
    opened. *)
Definition read_text (p : pathlib.Path) : M pystr :=
  open_read (pathlib.str p) p false.

(** [open(s, 'r', encoding='utf-8')] on a string. *)
Definition read_file (s : pystr) : M pystr :=
  open_read s (pathlib.parse s) (names_directory s).

(** [open(p, 'w', encoding='utf-8')]: the file is created or truncated. *)
Definition open_write (p : pathlib.Path) : M unit :=
  fun w0 =>
    let w := emit (EvOpenWrite (os_path p)) w0 in
    match fs w !! os_path p with
    | Some Dir =>
        (Raised (Exc IsADirectoryError
                     (error_text rt IsADirectoryError (pathlib.str p))), w)
    | _ =>
        match access_error p w with
        | Some e => (Raised e, w)
        | None => (Done tt, with_fs (<[os_path p := File []]> (fs w)) w)
        end
    end.

(** [f.write(s)] on a file opened by [open_write]: the text is encoded as a
    whole, and nothing of it is written when that fails. *)
Definition f_write (p : pathlib.Path) (s : pystr) : M unit :=
  fun w =>
    match Utf8.encode s with
    | None => (Raised (Exc UnicodeEncodeError (error_text rt UnicodeEncodeError s)), w)
    | Some bs =>
        match fs w !! os_path p with
        | Some (File data) =>
            (Done tt, with_fs (<[os_path p := File (data ++ bs)]> (fs w)) w)
        | _ => (Done tt, w)
        end
    end.

(** [datetime.now()] *)
Definition datetime_now : M datetime :=
  fun w => (Done (clock env (ticks w)),
            mkWorld (fs w) (denied w) (S (ticks w)) (trace w)).

(** [MultiModalConversation.call(...)] *)
Definition api_call (req : api_request) : M api_reply :=
  fun w0 =>
    let w := emit (EvApiCall req) w0 in
    match endpoint env req with
    | Fault c t => (Raised (Exc c t), w)
    | r => (Done r, w)
    end.

End Script.

(** ** The script *)

#[local] Set Warnings "-inexact-float".

Definition MODEL : pystr := lit "qwen-vl-max-latest".
Definition FPS : float := 1.0%float.
Definition TEMPERATURE : float := 0.3%float.
Definition MAX_TOKENS : Z := 4000.
Definition TOP_P : float := 0.9%float.

Record VideoAnnotator := mkAnnotator {
  self_model : pystr;
  self_fps : float;
  self_temperature : float;
  self_max_tokens : Z;
  base_dir : pathlib.Path;
  videos_dir : pathlib.Path;
  outputs_dir : pathlib.Path;
  prompts_dir : pathlib.Path
}.

Definition set_fps (x : float) (a : VideoAnnotator) : VideoAnnotator :=
  mkAnnotator (self_model a) x (self_temperature a) (self_max_tokens a)
              (base_dir a) (videos_dir a) (outputs_dir a) (prompts_dir a).

Definition set_model (m : pystr) (a : VideoAnnotator) : VideoAnnotator :=
  mkAnnotator m (self_fps a) (self_temperature a) (self_max_tokens a)
              (base_dir a) (videos_dir a) (outputs_dir a) (prompts_dir a).

Definition set_temperature (x : float) (a : VideoAnnotator) : VideoAnnotator :=
  mkAnnotator (self_model a) (self_fps a) x (self_max_tokens a)
              (base_dir a) (videos_dir a) (outputs_dir a) (prompts_dir a).

(** The dict [annotate_video] returns. *)
Record AnnotationResult := mkResult {
  r_content : pystr;
  r_processing_time : float;
  r_model : pystr;
  r_fps : float
}.

(** The namespace [parse_args] returns. *)
Record Args := mkArgs {
  a_video : pystr;
  a_prompt : option pystr;
  a_fps : option float;
  a_model : option pystr;
  a_temperature : option float
}.

(** Truth values of the optional arguments: [None], [0.0], [-0.0] and the
    empty string are false. *)
Definition float_truthy (x : float) : bool := negb (PrimFloat.eqb x 0%float).


Definition str_truthy (s : pystr) : bool :=
  match s with [] => false | _ => true end.

Definition FALLBACK_PROMPT : pystr :=
  lit "Проанализируй это видео и опиши действия, которые происходят в нём.".

Definition len_str (s : pystr) : pystr := str_of_int (Z.of_nat (length s)).

(** [st_size / (1024 * 1024)] *)
Definition megabytes (st_size : Z) : float :=
  PrimFloat.div (PrimFloat.of_uint63 (Uint63.of_Z st_size)) 1048576%float.

(** The clock readings [strftime] pads to a fixed width. *)
Definition valid_datetime (t : datetime) : bool :=
  (1000 <=? year t) && (year t <=? 9999)
  && (1 <=? month t) && (month t <=? 12)
  && (1 <=? day t) && (day t <=? 31)
  && (0 <=? hour t) && (hour t <=? 23)
  && (0 <=? minute t) && (minute t <=? 59)
  && (0 <=? second t) && (second t <=? 59).




(** [strftime("%Y%m%d_%H%M%S")] *)
Definition zero_pad (width : nat) (n : Z) : pystr :=
  let d := str_of_int n in repeat 48 (width - length d) ++ d.

Definition strftime_stamp (t : datetime) : pystr :=
  zero_pad 4 (year t) ++ zero_pad 2 (month t) ++ zero_pad 2 (day t)
  ++ [95] ++ zero_pad 2 (hour t) ++ zero_pad 2 (minute t) ++ zero_pad 2 (second t).

Section Program.

Variable rt : Runtime.
Variable env : Env.

(** [VideoAnnotator.__init__] *)
Definition VideoAnnotator_init : M VideoAnnotator :=
  let base := pathlib.parent (pathlib.parse (script_file env)) in
  let videos := pathlib.joinpath base (lit "videos") in
  let outputs := pathlib.joinpath base (lit "outputs") in
  let prompts := pathlib.joinpath base (lit "prompts") in
  let mk (d : pathlib.Path) : M unit :=
    mkdir_exist_ok rt env d ;;
    logger DEBUG (lit "Проверена/создана директория: " ++ pathlib.str d) in
  mk videos ;; mk outputs ;; mk prompts ;;
  ret (mkAnnotator MODEL FPS TEMPERATURE MAX_TOKENS base videos outputs prompts).

(** The path [load_prompt] reads: the default one, or the argument. *)
Definition resolved_prompt_path (self : VideoAnnotator) (prompt_path : option pystr)
  : pathlib.Path :=
  match prompt_path with
  | None => pathlib.joinpath (prompts_dir self) (lit "pov_annotation_prompt.txt")
  | Some s => pathlib.parse s
  end.

(** [VideoAnnotator.load_prompt] *)
Definition load_prompt (self : VideoAnnotator) (prompt_path : option pystr)
  : M pystr :=
  let prompt_path := resolved_prompt_path self prompt_path in
  logger INFO (lit "Загрузка промпта из: " ++ pathlib.str prompt_path) ;;
  exists_ <- path_exists rt env prompt_path ;;
  if negb exists_ then
    logger WARNING (lit "Файл промпта не найден: " ++ pathlib.str prompt_path) ;;
    ret FALLBACK_PROMPT
  else
    content <- read_text rt env prompt_path ;;
    logger INFO (lit "Промпт загружен, размер: " ++ len_str content
                 ++ lit " символов") ;;
    ret content.

(** Lines 105-106 of [annotate_video]: the prompt given, or the loaded one. *)
Definition resolve_prompt (self : VideoAnnotator) (prompt_text : option pystr)
  : M pystr :=
  match prompt_text with
  | None => load_prompt self None
  | Some t => ret t
  end.

(** The [messages] argument of the call. *)
Definition build_messages (video_url : pystr) (fps : float) (prompt_text : pystr)
  : list message :=
  [ mkMessage (lit "user")
              [ VideoBlock video_url fps; TextBlock prompt_text ] ].

(** [VideoAnnotator.annotate_video] *)
Definition annotate_video (self : VideoAnnotator) (video_path : pystr)
                          (prompt_text : option pystr) : M AnnotationResult :=
  let video_path := pathlib.parse video_path in
  logger INFO (lit "Начало обработки видео: " ++ pathlib.str video_path) ;;
  exists_ <- path_exists rt env video_path ;;
  if negb exists_ then
    logger ERROR (lit "Видео не найдено: " ++ pathlib.str video_path) ;;
    raise (Exc FileNotFoundError (lit "Видео не найдено: " ++ pathlib.str video_path))
  else
    st_size <- stat_size rt env video_path ;;
    let file_size := megabytes st_size in
    logger INFO (lit "Размер видео: " ++ float_fixed rt 2 file_size ++ lit " MB") ;;
    (if PrimFloat.ltb 1000%float file_size then
       logger WARNING (lit "Видео слишком большое (" ++ float_fixed rt 2 file_size
                       ++ lit " MB). Максимум 1 GB.")
     else ret tt) ;;
    prompt_text <- resolve_prompt self prompt_text ;;
    print ([10] ++ lit "📹 Обработка видео: " ++ pathlib.name video_path) ;;
    print (lit "🤖 Модель: " ++ self_model self) ;;
    print (lit "⚙️  FPS: " ++ float_repr rt (self_fps self)) ;;
    print (lit "🌡️  Temperature: " ++ float_repr rt (self_temperature self)) ;;
    print (lit "📝 Длина промпта: " ++ len_str prompt_text ++ lit " символов") ;;
    print (lit "💾 Размер видео: " ++ float_fixed rt 2 file_size ++ lit " MB") ;;
    let video_url :=
      lit "file://" ++ pathlib.str (pathlib.absolute (cwd env) video_path) in
    logger INFO (lit "Видео URL: " ++ video_url) ;;
    let messages := build_messages video_url (self_fps self) prompt_text in
    logger DEBUG (lit "Сформированы messages для API, fps=" ++ float_repr rt (self_fps self)) ;;
    print ([10] ++ lit "⏳ Отправка запроса в DashScope API...") ;;
    logger INFO (lit "Отправка запроса в DashScope API...") ;;
    start_time <- datetime_now env ;;
    try_except
      (logger DEBUG (lit "Вызов API с параметрами: model=" ++ self_model self
                     ++ lit ", temp=" ++ float_repr rt (self_temperature self)
                     ++ lit ", max_tokens=" ++ str_of_int (self_max_tokens self)) ;;
       response <- api_call env (mkRequest (self_model self) messages
                                           (self_temperature self)
                                           (self_max_tokens self) TOP_P) ;;
       end_time <- datetime_now env ;;
       let processing_time := total_seconds rt start_time end_time in
       logger INFO (lit "Получен ответ от API за " ++ float_fixed rt 1 processing_time
                    ++ lit " секунд") ;;
       match response with
       | Fault c t => raise (Exc c t) (* raised by the call itself, above *)
       | Reply status_code message_text choice =>
           if negb (status_code =? 200) then
             logger ERROR (lit "Ошибка API: код " ++ str_of_int status_code
                           ++ lit ", сообщение: " ++ message_text) ;;
             raise (Exc Exception (lit "Ошибка API: " ++ message_text))
           else
             match choice with
             | None =>
                 raise (Exc LibraryError (error_text rt LibraryError message_text))
             | Some content =>
                 logger INFO (lit "Размер аннотации: " ++ len_str content
                              ++ lit " символов") ;;
                 print (lit "✅ Обработка завершена за "
                        ++ float_fixed rt 1 processing_time ++ lit " секунд") ;;
                 ret (mkResult content processing_time (self_model self)
                               (self_fps self))
             end
       end)
      (fun c t =>
         logger ERROR (lit "Ошибка при обработке: " ++ t) ;;
         print_text rt (lit "❌ Ошибка при обработке: " ++ t) ;;
         raise (Exc c t)).

(** The dict handed to [json.dump] in [save_results]. *)
Definition json_record (video_name timestamp : pystr) (result : AnnotationResult)
  : list (pystr * json.pyvalue) :=
  [ (lit "video", json.PStr video_name);
    (lit "model", json.PStr (r_model result));
    (lit "fps", json.PFloat (r_fps result));
    (lit "processing_time", json.PFloat (r_processing_time result));
    (lit "timestamp", json.PStr timestamp);
    (lit "annotation", json.PStr (r_content result)) ].

(** The successive [f.write] arguments of the text version: six labelled
    lines, then the annotation. *)
Definition text_header_lines (video_name timestamp : pystr)
                             (result : AnnotationResult) : list pystr :=
  [ lit "=== Аннотация видео: " ++ video_name ++ lit " ===" ++ [10];
    lit "Модель: " ++ r_model result ++ [10];
    lit "FPS: " ++ float_repr rt (r_fps result) ++ [10];
    lit "Время обработки: " ++ float_fixed rt 1 (r_processing_time result)
      ++ lit " сек" ++ [10];
    lit "Дата: " ++ timestamp ++ [10];
    [10] ++ lit "--- Аннотация ---" ++ [10] ].

Definition text_lines (video_name timestamp : pystr) (result : AnnotationResult)
  : list pystr :=
  text_header_lines video_name timestamp result ++ [r_content result].

(** [for chunk in chunks: f.write(chunk)] *)
Fixpoint write_all (p : pathlib.Path) (chunks : list pystr) : M unit :=
  match chunks with
  | [] => ret tt
  | c :: rest => f_write rt env p c ;; write_all p rest
  end.

(** The body of the first [try] of [save_results]. *)
Definition write_json (json_path : pathlib.Path) (video_name timestamp : pystr)
                      (result : AnnotationResult) : M unit :=
  open_write rt env json_path ;;
  write_all json_path
    (json.iterencode_dict (float_repr rt) (json_record video_name timestamp result)) ;;
  logger INFO (lit "JSON сохранен: " ++ pathlib.str json_path).

(** The body of the second [try] of [save_results]. *)
Definition write_txt (txt_path : pathlib.Path) (video_name timestamp : pystr)
                     (result : AnnotationResult) : M unit :=
  open_write rt env txt_path ;;
  write_all txt_path (text_lines video_name timestamp result) ;;
  logger INFO (lit "TXT сохранен: " ++ pathlib.str txt_path).

Definition base_name_of (video_name timestamp : pystr) : pystr :=
  pathlib.stem (pathlib.parse video_name) ++ [95] ++ timestamp.

(** The two [try] statements of [save_results]: a failure is logged and
    swallowed. *)
Definition try_write_json (json_path : pathlib.Path) (video_name timestamp : pystr)
                          (result : AnnotationResult) : M unit :=
  try_except (write_json json_path video_name timestamp result)
             (fun _ t => logger ERROR (lit "Ошибка сохранения JSON: " ++ t)).

Definition try_write_txt (txt_path : pathlib.Path) (video_name timestamp : pystr)
                         (result : AnnotationResult) : M unit :=
  try_except (write_txt txt_path video_name timestamp result)
             (fun _ t => logger ERROR (lit "Ошибка сохранения TXT: " ++ t)).

(** [VideoAnnotator.save_results] *)
Definition save_results (self : VideoAnnotator) (video_name : pystr)
                        (result : AnnotationResult)
  : M (pathlib.Path * pathlib.Path) :=
  now <- datetime_now env ;;
  let timestamp := strftime_stamp now in
  let base_name := base_name_of video_name timestamp in
  logger INFO (lit "Сохранение результатов для " ++ video_name) ;;
  let json_path := pathlib.joinpath (outputs_dir self) (base_name ++ lit ".json") in
  try_write_json json_path video_name timestamp result ;;
  let txt_path := pathlib.joinpath (outputs_dir self) (base_name ++ lit ".txt") in
  try_write_txt txt_path video_name timestamp result ;;
  print ([10] ++ lit "💾 Результаты сохранены:") ;;
  print_text rt (lit "   • JSON: " ++ pathlib.str json_path) ;;
  print_text rt (lit "   • TXT:  " ++ pathlib.str txt_path) ;;
  ret (json_path, txt_path).

(** The time stamp and the two paths [save_results] derives when it starts
    in state [w]. *)
Definition stamp_at (w : World) : pystr := strftime_stamp (clock env (ticks w)).

Definition json_path_at (self : VideoAnnotator) (video_name : pystr) (w : World)
  : pathlib.Path :=
  pathlib.joinpath (outputs_dir self)
                   (base_name_of video_name (stamp_at w) ++ lit ".json").

Definition txt_path_at (self : VideoAnnotator) (video_name : pystr) (w : World)
  : pathlib.Path :=
  pathlib.joinpath (outputs_dir self)
                   (base_name_of video_name (stamp_at w) ++ lit ".txt").

(** The state in which the first [try] of [save_results] starts. *)
Definition save_start (video_name : pystr) (w : World) : World :=
  emit (EvLog INFO (lit "Сохранение результатов для " ++ video_name))
       (mkWorld (fs w) (denied w) (S (ticks w)) (trace w)).

Definition opt_float_str (o : option float) : pystr :=
  match o with Some x => float_repr rt x | None => lit "None" end.

Definition opt_str (o : option pystr) : pystr :=
  match o with Some s => s | None => lit "None" end.

(** Lines 243-252 of [main]: an override is applied when it is truthy. *)
Definition apply_overrides (args : Args) (annotator : VideoAnnotator)
  : M VideoAnnotator :=
  annotator <-
    (match a_fps args with
     | Some x =>
         if float_truthy x then
           logger INFO (lit "FPS изменен на " ++ float_repr rt x) ;;
           ret (set_fps x annotator)
         else ret annotator
     | None => ret annotator
     end) ;;
  annotator <-
    (match a_model args with
     | Some m =>
         if str_truthy m then
           logger INFO (lit "Модель изменена на " ++ m) ;;
           ret (set_model m annotator)
         else ret annotator
     | None => ret annotator
     end) ;;
  match a_temperature args with
  | Some x =>
      if float_truthy x then
        logger INFO (lit "Temperature изменена на " ++ float_repr rt x) ;;
        ret (set_temperature x annotator)
      else ret annotator
  | None => ret annotator
  end.

(** Lines 254-259 of [main]: the prompt override is read outside the [try];
    [open] is given the argument as it was typed. *)
Definition read_prompt_override (args : Args) : M (option pystr) :=
  match a_prompt args with
  | Some p =>
      if str_truthy p then
        logger INFO (lit "Загрузка кастомного промпта из " ++ p) ;;
        text <- read_file rt env p ;;
        ret (Some text)
      else ret None
  | None => ret None
  end.

(** [main] up to the point where the prompt override is read. *)
Definition main_setup (args : Args) : M VideoAnnotator :=
  logger INFO (repeat 61 60) ;;
  logger INFO (lit "Запуск скрипта аннотации видео") ;;
  logger INFO (lit "Видео: " ++ a_video args) ;;
  logger INFO (lit "Параметры командной строки: fps=" ++ opt_float_str (a_fps args)
               ++ lit ", model=" ++ opt_str (a_model args)
               ++ lit ", temp=" ++ opt_float_str (a_temperature args)) ;;
  annotator <- VideoAnnotator_init ;;
  apply_overrides args annotator.

(** Everything [main] does before its [try]. *)
Definition main_prelude (args : Args) : M (VideoAnnotator * option pystr) :=
  annotator <- main_setup args ;;
  prompt <- read_prompt_override args ;;
  ret (annotator, prompt).

(** The body of the [try] of [main]. *)
Definition main_body (args : Args) (annotator : VideoAnnotator)
                     (prompt : option pystr) : M unit :=
  result <- annotate_video annotator (a_video args) prompt ;;
  save_results annotator (pathlib.name (pathlib.parse (a_video args))) result ;;
  print ([10] ++ lit "📄 Первые 500 символов аннотации:") ;;
  print (repeat 45 50) ;;
  print_text rt (firstn 500 (r_content result)) ;;
  (if (500 <? length (r_content result))%nat then print (lit "...") else ret tt) ;;
  logger INFO (lit "Скрипт завершен успешно") ;;
  logger INFO (repeat 61 60).

(** [main()] *)
Definition main (args : Args) : M unit :=
  ready <- main_prelude args ;;
  try_except (main_body args (fst ready) (snd ready))
             (fun _ t =>
                logger ERROR (lit "Критическая ошибка: " ++ t) ;;
                print_text rt ([10] ++ lit "❌ Ошибка: " ++ t) ;;
                raise (SystemExit 1)).

(** Running the script on the arguments [parse_args] has returned: the
    interpreter turns how [main] ends into the exit status, printing a
    traceback for an exception nobody caught.  (What [argparse] does with a
    command line it refuses, or with [--help], comes before and is not
    modelled.) *)
Definition run (args : Args) (w : World) : Z * World :=
  match main args w with
  | (Done _, w') => (0, w')
  | (Raised (SystemExit code), w') => (code, w')
  | (Raised (Exc c t), w') => (1, emit (EvTraceback (Exc c t)) w')
  end.

End Program.

(** ** Reading a written file back *)

(** [json.load(open(path, encoding='utf-8'))] on the bytes of a file. *)
Definition json_load_file (data : bytes) : option json.value :=
  match Utf8.decode data with
  | Some text => json.loads (universal_newlines text)
  | None => None
  end.

(** The runtime prints floats the way Python does: a finite float as a JSON
    number, every float in characters that are written as they are. *)
Definition sane_runtime (rt : Runtime) : Prop :=
  (forall x, json.finite x = true -> json.number_token (float_repr rt x) = true)
  /\ (forall x, Utf8.plain (float_repr rt x) = true)
  /\ (forall n x, Utf8.plain (float_fixed rt n x) = true).

(** [open(p, 'w')] succeeds in [w]: the parent is a directory, the path is
    not refused and is not itself a directory. *)
Definition can_create (env : Env) (w : World) (p : pathlib.Path) : Prop :=
  fs w !! os_path env (pathlib.parent p) = Some Dir
  /\ (os_path env p ∉ denied w)
  /\ fs w !! os_path env p <> Some Dir.

(** Only the file at [key] may differ. *)
Definition touches_only (key : pystr) (w w' : World) : Prop :=
  denied w' = denied w /\ forall k, k <> key -> fs w' !! k = fs w !! k.

(** ** What a run leaves behind *)

Definition is_api_call (e : event) : option api_request :=
  match e with EvApiCall r => Some r | _ => None end.

Definition is_write_open (e : event) : option pystr :=
  match e with EvOpenWrite p => Some p | _ => None end.

(** The requests sent to the endpoint, most recent first. *)
Definition api_calls (w : World) : list api_request := omap is_api_call (trace w).

(** The paths opened for writing, most recent first. *)
Definition write_opens (w : World) : list pystr := omap is_write_open (trace w).

(** No regular file was created, removed or changed. *)
Definition files_same (w w' : World) : Prop :=
  forall p d, fs w' !! p = Some (File d) <-> fs w !! p = Some (File d).

(** Nothing was written: the regular files are those of before, and no file
    was opened for writing. *)
Definition quiet (w w' : World) : Prop :=
  files_same w w' /\ write_opens w' = write_opens w.

Definition no_call (w w' : World) : Prop := api_calls w' = api_calls w.

(** Every state [m] can end in is related to the state it started from. *)
Definition steps {A} (R : World -> World -> Prop) (m : M A) : Prop :=
  forall w, R w (snd (m w)).

(** The trace only grows. *)
Definition extends (w w' : World) : Prop :=
  exists added, trace w' = added ++ trace w.

(** [m] always returns normally. *)
Definition total {A} (m : M A) : Prop :=
  forall w, exists a, fst (m w) = Done a.

(** [m] always ends with an exception other than [SystemExit]. *)
Definition always_raises {A} (m : M A) : Prop :=
  forall w, exists c t, fst (m w) = Raised (Exc c t).

(** [m] never ends by [sys.exit]. *)
Definition never_exits {A} (m : M A) : Prop :=
  forall w, match fst (m w) with Raised (SystemExit _) => False | _ => True end.

(** ** A concrete run, for the examples

    A runtime that prints the floats of the examples as Python does, a
    working directory holding the script and one video, a clock stopped at
    noon on 1 January 2024, and an endpoint that gives a fixed reply. *)

Definition sample_runtime : Runtime :=
  mkRuntime
    (fun x => if PrimFloat.eqb x 1%float then lit "1.0"
              else if PrimFloat.eqb x 0.3%float then lit "0.3"
              else if PrimFloat.eqb x 2.5%float then lit "2.5"
              else lit "0.0")
    (fun digits x => if (digits =? 1)%nat then lit "2.5" else lit "0.00")
    (fun _ _ => 2.5%float)
    (fun _ subject => lit "error: " ++ subject).

Definition sample_env (reply : api_reply) : Env :=
  mkEnv (lit "/home/user/backend")
        (lit "/home/user/backend/annotate_video.py")
        (fun _ => mkDatetime 2024 1 1 12 0 0 0)
        (fun _ => reply)
        eq_refl.

Definition sample_fs : gmap pystr node :=
  <[lit "/home/user/backend" := Dir]>
    (<[lit "/home/user/backend/outputs" := Dir]>
       (<[lit "/home/user/backend/clip.mp4" := File [0; 0; 1]]> ∅)).

Definition sample_world : World := mkWorld sample_fs ∅ 0 [].

Definition sample_json_key : pystr :=
  lit "/home/user/backend/outputs/clip_20240101_120000.json".

Definition sample_txt_key : pystr :=
  lit "/home/user/backend/outputs/clip_20240101_120000.txt".

(** The sample world with one more node. *)
Definition sample_world_with (key : pystr) (n : node) : World :=
  mkWorld (<[key := n]> sample_fs) ∅ 0 [].


(** The sample world, with some paths the process may not open. *)
Definition sample_world_denying (keys : gset pystr) : World :=
  mkWorld sample_fs keys 0 [].

Definition sample_annotator : VideoAnnotator :=
  let base := pathlib.parse (lit "/home/user/backend") in
  mkAnnotator MODEL FPS TEMPERATURE MAX_TOKENS base
              (pathlib.joinpath base (lit "videos"))
              (pathlib.joinpath base (lit "outputs"))
              (pathlib.joinpath base (lit "prompts")).

Definition sample_args : Args := mkArgs (lit "clip.mp4") None None None None.

Definition sample_result (annotation : pystr) : AnnotationResult :=
  mkResult annotation 2.5%float MODEL FPS.

(** ** Further observations on a run *)

Definition is_read_open (e : event) : option pystr :=
  match e with EvOpenRead p => Some p | _ => None end.

(** The paths opened for reading, most recent first. *)
Definition read_opens (w : World) : list pystr := omap is_read_open (trace w).

Definition level_eqb (a b : level) : bool :=
  match a, b with
  | DEBUG, DEBUG | INFO, INFO | WARNING, WARNING | ERROR, ERROR => true
  | _, _ => false
  end.

Definition is_log (lv : level) (e : event) : option pystr :=
  match e with
  | EvLog l msg => if level_eqb l lv then Some msg else None
  | _ => None
  end.

(** The records logged at level [lv], most recent first. *)
Definition logged (lv : level) (w : World) : list pystr := omap (is_log lv) (trace w).

(** The files, the directories and the refused paths are those of before. *)
Definition fs_kept (w w' : World) : Prop := fs w' = fs w /\ denied w' = denied w.

(** The script's directory and the three directories [__init__] makes
    sure of. *)
Definition script_dir (env : Env) : pathlib.Path :=
  pathlib.parent (pathlib.parse (script_file env)).

Definition init_dirs (env : Env) : list pathlib.Path :=
  [ pathlib.joinpath (script_dir env) (lit "videos");
    pathlib.joinpath (script_dir env) (lit "outputs");
    pathlib.joinpath (script_dir env) (lit "prompts") ].

(** The request [annotate_video] sends for the video [v] and the prompt
    text [text]. *)
Definition request_of (env : Env) (self : VideoAnnotator) (v text : pystr)
  : api_request :=
  mkRequest (self_model self)
            (build_messages
               (lit "file://"
                ++ pathlib.str (pathlib.absolute (cwd env) (pathlib.parse v)))
               (self_fps self) text)
            (self_temperature self) (self_max_tokens self) TOP_P.

(** *** What a file URI denotes

    The reading of RFC 3986 and RFC 8089 that [urllib.parse] implements:
    after [file://] comes the authority, up to the next [/], [?] or [#];
    the path ends at the first [?] or [#]; in the path, [%XX] stands for a
    byte, and the bytes of a run of escapes are read as UTF-8. *)








(** A path whose components the file system can hold. *)
Definition short_parts (p : pathlib.Path) : Prop :=
  Forall (fun part => too_long part = false) (pathlib.parts p).



(** The video URL of a request: that of the first video block of its first
    message. *)
Definition video_url (req : api_request) : option pystr :=
  match req_messages req with
  | m :: _ =>
      match content m with
      | VideoBlock url _ :: _ => Some url
      | _ => None
      end
  | [] => None
  end.

(** The exception the [try] of [annotate_video] raises for an answer of the
    endpoint: that of the call itself, the one of line 160 for a status
    other than 200, or that of reading a content that is not there; none
    for an answer 200 with a content. *)
Definition body_failure (rt : Runtime) (reply : api_reply)
  : option (exc_class * pystr) :=
  match reply with
  | Fault c t => Some (c, t)
  | Reply code msg choice =>
      if negb (code =? 200) then Some (Exception, lit "Ошибка API: " ++ msg)
      else match choice with
           | None => Some (LibraryError, error_text rt LibraryError msg)
           | Some _ => None
           end
  end.

(** What the [except] block of [annotate_video] makes of the exception
    [c], [t] in the state [w]: it logs it, prints it and raises it again;
    when the console cannot show the line, the [print] raises instead. *)
Definition handled (rt : Runtime) (c : exc_class) (t : pystr) (w : World)
  : res AnnotationResult * World :=
  let logged_it := emit (EvLog ERROR (lit "Ошибка при обработке: " ++ t)) w in
  let line := lit "❌ Ошибка при обработке: " ++ t in
  if Utf8.encodable line then (Raised (Exc c t), emit (EvPrint line) logged_it)
  else (Raised (Exc UnicodeEncodeError (error_text rt UnicodeEncodeError line)),
        logged_it).

(** A directory is there already, or it can be made: nothing is at its
    path, its parent is a directory and the path is not refused. *)
Definition dir_ready (env : Env) (w : World) (d : pathlib.Path) : Prop :=
  fs w !! os_path env d = Some Dir
  \/ (fs w !! os_path env d = None
      /\ fs w !! os_path env (pathlib.parent d) = Some Dir
      /\ os_path env d ∉ denied w).

(** The events of one kind, picked by [f], are those of before. *)
Definition unseen {X} (f : event -> option X) (w w' : World) : Prop :=
  omap f (trace w') = omap f (trace w).

(** Whatever was opened for reading is the file at [key]. *)
Definition reads_only (key : pystr) (w w' : World) : Prop :=
  exists l, read_opens w' = l ++ read_opens w /\ Forall (fun k => k = key) l.

(** [x if x else default], as lines 244-252 of [main] decide for each
    setting given on the command line. *)
Definition float_or (o : option float) (default : float) : float :=
  match o with
  | Some x => if float_truthy x then x else default
  | None => default
  end.

Definition str_or (o : option pystr) (default : pystr) : pystr :=
  match o with
  | Some s => if str_truthy s then s else default
  | None => default
  end.

(** The number a string of decimal digits denotes. *)
Definition digits_value (s : pystr) : Z :=
  fold_left (fun acc c => acc * 10 + (c - 48)) s 0.

(** The fields of a clock reading that the time stamp shows. *)
Definition to_the_second (t : datetime) : Z * Z * Z * Z * Z * Z :=
  (year t, month t, day t, hour t, minute t, second t).


(** Nothing is removed, and what was a directory still is one. *)
Definition keeps_entries (w w' : World) : Prop :=
  forall k, (is_Some (fs w !! k) -> is_Some (fs w' !! k))
            /\ (fs w !! k = Some Dir -> fs w' !! k = Some Dir).

(** Every path whose entry has changed is one of [allowed]. *)
Definition changes_within (allowed : pystr -> Prop) (w w' : World) : Prop :=
  forall k, ~ allowed k -> fs w' !! k = fs w !! k.

(** The paths a run may write to: the three directories beside the script,
    and files named after the video and a time stamp, with the extension
    [.json] or [.txt], directly inside [outputs]. *)
Definition run_targets (env : Env) (args : Args) (k : pystr) : Prop :=
  (exists d, In d (init_dirs env) /\ k = os_path env d)
  \/ (exists t ext,
        In ext [lit ".json"; lit ".txt"]
        /\ k = os_path env
                 (pathlib.joinpath
                    (pathlib.joinpath (script_dir env) (lit "outputs"))
                    (base_name_of (pathlib.name (pathlib.parse (a_video args)))
                                  (strftime_stamp t) ++ ext))).

(** ** The UTF-8 codec *)

Module Utf8Facts.
Import Utf8.

Lemma is_cont_tail (x : Z) : is_cont (0x80 + x mod 64) = true.
Proof.
  unfold is_cont. pose proof (Z.mod_pos_bound x 64 ltac:(lia)).
  apply andb_true_intro; split; [apply Z.leb_le | apply Z.ltb_lt]; lia.
Qed.

Lemma tail_value (x : Z) : 0x80 + x mod 64 - 0x80 = x mod 64.
Proof. lia. Qed.

(** Decoding what [encode_cp] produced gives the code point back, whatever
    follows. *)
Lemma decode_encode_cp (c : Z) (bs rest : bytes) :
  encode_cp c = Some bs ->
  decode (bs ++ rest) = cons c <$> decode rest.
Proof.
  unfold encode_cp, encodable_cp, is_surrogate.
  destruct (0 <=? c) eqn:H0; simpl; [|discriminate].
  destruct (c <? 1114112) eqn:H1; simpl; [|discriminate].
  apply Z.leb_le in H0. apply Z.ltb_lt in H1.
  destruct ((55296 <=? c) && (c <? 57344)) eqn:Hs; simpl; [discriminate|].
  destruct (c <? 128) eqn:H2.
  { intros [= <-]. apply Z.ltb_lt in H2. simpl.
    replace (0 <=? c) with true by (symmetry; apply Z.leb_le; lia).
    replace (c <? 128) with true by (symmetry; apply Z.ltb_lt; lia).
    reflexivity. }
  apply Z.ltb_ge in H2.
  destruct (c <? 2048) eqn:H3.
  { intros [= <-]. apply Z.ltb_lt in H3.
    cbn [app decode].
    replace ((0 <=? 192 + c / 64) && (192 + c / 64 <? 128)) with false
      by (symmetry; apply andb_false_iff; right; apply Z.ltb_ge;
          pose proof (Z.div_pos c 64); lia).
    replace ((194 <=? 192 + c / 64) && (192 + c / 64 <? 224)) with true
      by (symmetry; apply andb_true_intro; split;
          [apply Z.leb_le | apply Z.ltb_lt];
          pose proof (Z.div_le_lower_bound c 64 2);
          pose proof (Z.div_lt_upper_bound c 64 32); lia).
    rewrite is_cont_tail. f_equal. f_equal.
    pose proof (Z.div_mod c 64). lia. }
  apply Z.ltb_ge in H3.
  destruct (c <? 65536) eqn:H4.
  { intros [= <-]. apply Z.ltb_lt in H4.
    cbn [app decode].
    assert (Hq : 0 <= c / 4096 < 16)
      by (split; [apply Z.div_pos | apply Z.div_lt_upper_bound]; lia).
    replace ((0 <=? 224 + c / 4096) && (224 + c / 4096 <? 128)) with false
      by (symmetry; apply andb_false_iff; right; apply Z.ltb_ge; lia).
    replace ((194 <=? 224 + c / 4096) && (224 + c / 4096 <? 224)) with false
      by (symmetry; apply andb_false_iff; right; apply Z.ltb_ge; lia).
    replace ((224 <=? 224 + c / 4096) && (224 + c / 4096 <? 240)) with true
      by (symmetry; apply andb_true_intro; split;
          [apply Z.leb_le | apply Z.ltb_lt]; lia).
    rewrite !is_cont_tail, !tail_value.
    assert (Hc : (224 + c / 4096 - 224) * 4096 + (c / 64) mod 64 * 64 + c mod 64 = c).
    { assert (E1 : c = 64 * (c / 64) + c mod 64) by (apply Z.div_mod; lia).
      assert (E2 : c / 64 = 64 * (c / 64 / 64) + (c / 64) mod 64)
        by (apply Z.div_mod; lia).
      rewrite Z.div_div in E2 by lia. change (64 * 64) with 4096 in E2. lia. }
    cbv zeta. rewrite Hc.
    replace (2048 <=? c) with true by (symmetry; apply Z.leb_le; lia).
    unfold is_surrogate. rewrite Hs. reflexivity. }
  apply Z.ltb_ge in H4.
  intros [= <-].
  cbn [app decode].
  assert (Hq : 0 <= c / 262144 < 5)
    by (split; [apply Z.div_pos | apply Z.div_lt_upper_bound]; lia).
  replace ((0 <=? 240 + c / 262144) && (240 + c / 262144 <? 128)) with false
    by (symmetry; apply andb_false_iff; right; apply Z.ltb_ge; lia).
  replace ((194 <=? 240 + c / 262144) && (240 + c / 262144 <? 224)) with false
    by (symmetry; apply andb_false_iff; right; apply Z.ltb_ge; lia).
  replace ((224 <=? 240 + c / 262144) && (240 + c / 262144 <? 240)) with false
    by (symmetry; apply andb_false_iff; right; apply Z.ltb_ge; lia).
  replace ((240 <=? 240 + c / 262144) && (240 + c / 262144 <? 245)) with true
    by (symmetry; apply andb_true_intro; split;
        [apply Z.leb_le | apply Z.ltb_lt]; lia).
  rewrite !is_cont_tail, !tail_value.
  assert (Hc : (240 + c / 262144 - 240) * 262144 + (c / 4096) mod 64 * 4096
               + (c / 64) mod 64 * 64 + c mod 64 = c).
  { assert (E1 : c = 64 * (c / 64) + c mod 64) by (apply Z.div_mod; lia).
    assert (E2 : c / 64 = 64 * (c / 64 / 64) + (c / 64) mod 64)
      by (apply Z.div_mod; lia).
    assert (E3 : c / 4096 = 64 * (c / 4096 / 64) + (c / 4096) mod 64)
      by (apply Z.div_mod; lia).
    rewrite Z.div_div in E2, E3 by lia.
    change (64 * 64) with 4096 in E2. change (4096 * 64) with 262144 in E3. lia. }
  cbv zeta. rewrite Hc.
  replace (65536 <=? c) with true by (symmetry; apply Z.leb_le; lia).
  replace (c <? 1114112) with true by (symmetry; apply Z.ltb_lt; lia).
  reflexivity.
Qed.

(** The codec is lossless: decoding an encoded string gives it back. *)
Lemma decode_encode (s : pystr) (bs : bytes) :
  encode s = Some bs -> decode bs = Some s.
Proof.
  revert bs. induction s as [|c r IH]; intros bs.
  - intros [= <-]. reflexivity.
  - cbn [encode]. destruct (encode_cp c) as [b1|] eqn:Hc; [|discriminate].
    destruct (encode r) as [br|] eqn:Hr; [|discriminate].
    intros [= <-]. rewrite (decode_encode_cp _ _ _ Hc), (IH _ eq_refl).
    reflexivity.
Qed.

Lemma encode_cp_is_Some (c : Z) :
  encodable_cp c = true -> is_Some (encode_cp c).
Proof.
  unfold encode_cp. intros ->. cbn [negb].
  repeat match goal with |- context [if ?b then _ else _] => destruct b end; eauto.
Qed.

Lemma encode_cp_None (c : Z) :
  encodable_cp c = false -> encode_cp c = None.
Proof. unfold encode_cp. intros ->. reflexivity. Qed.

(** Exactly the strings without lone surrogates can be encoded. *)
Lemma encode_is_Some (s : pystr) :
  encodable s = true <-> is_Some (encode s).
Proof.
  unfold encodable. induction s as [|c r IH]; cbn [forallb encode].
  - split; eauto.
  - rewrite andb_true_iff, IH. split.
    + intros [Hc [br ->]]. destruct (encode_cp_is_Some c Hc) as [b ->]. eauto.
    + destruct (encodable_cp c) eqn:Hc.
      * destruct (encode_cp c); [|intros [? [=]]].
        destruct (encode r); [eauto | intros [? [=]]].
      * rewrite (encode_cp_None c Hc). intros [? [=]].
Qed.

Lemma encode_app (a b : pystr) :
  encode (a ++ b) =
  match encode a, encode b with
  | Some x, Some y => Some (x ++ y)
  | _, _ => None
  end.
Proof.
  induction a as [|c r IH]; cbn [app encode].
  - destruct (encode b); reflexivity.
  - rewrite IH. destruct (encode_cp c), (encode r), (encode b);
      try reflexivity. rewrite app_assoc. reflexivity.
Qed.

Lemma encodable_app (a b : pystr) :
  encodable (a ++ b) = encodable a && encodable b.
Proof. apply forallb_app. Qed.

End Utf8Facts.

(** ** JSON strings: what the encoder escapes, the decoder restores *)

Module JsonFacts.
Import json.

Lemma small_cases (c : Z) :
  0 <= c < 32 ->
  In c [0; 1; 2; 3; 4; 5; 6; 7; 8; 9; 10; 11; 12; 13; 14; 15; 16; 17; 18; 19;
        20; 21; 22; 23; 24; 25; 26; 27; 28; 29; 30; 31].
Proof. intros H. cbn [In]. lia. Qed.

(** One escaped character is read back as that character. *)
Lemma scanstring_escape_cp (c : Z) (tail : pystr) :
  scanstring (escape_cp c ++ tail) =
  scanstring tail ≫= (fun tr => Some (c :: tr.1, tr.2)).
Proof.
  assert (Hpair : forall o : option (pystr * pystr),
             (o ≫= (fun '(t, rest) => Some (c :: t, rest)))
             = (o ≫= (fun tr => Some (c :: tr.1, tr.2)))).
  { intros [[t rest]|]; reflexivity. }
  destruct (Z_lt_le_dec c 0) as [Hneg|Hpos];
    [|destruct (Z_lt_le_dec c 32) as [Hsmall|Hbig]].
  - unfold escape_cp.
    repeat match goal with
           | |- context [?a =? ?b] =>
               destruct (Z.eqb_spec a b); [unfold quote, backslash in *; lia|]
           end.
    replace ((0 <=? c) && (c <? 32)) with false
      by (symmetry; apply andb_false_iff; left; apply Z.leb_gt; lia).
    cbn [app]; cbn [scanstring].
    repeat match goal with
           | |- context [?a =? ?b] =>
               destruct (Z.eqb_spec a b); [unfold quote, backslash in *; lia|]
           end.
    replace ((0 <=? c) && (c <? 32)) with false
      by (symmetry; apply andb_false_iff; left; apply Z.leb_gt; lia).
    apply Hpair.
  - pose proof (small_cases c ltac:(lia)) as Hin. cbn [In] in Hin.
    repeat (destruct Hin as [<-|Hin]; [rewrite <- Hpair; reflexivity|]).
    destruct Hin.
  - unfold escape_cp.
    replace ((0 <=? c) && (c <? 32)) with false
      by (symmetry; apply andb_false_iff; right; apply Z.ltb_ge; lia).
    destruct (Z.eqb_spec c quote) as [->|Hq]; [rewrite <- Hpair; reflexivity|].
    destruct (Z.eqb_spec c backslash) as [->|Hb]; [rewrite <- Hpair; reflexivity|].
    repeat match goal with
           | |- context [?a =? ?b] =>
               destruct (Z.eqb_spec a b); [unfold quote, backslash in *; lia|]
           end.
    cbn [app]; cbn [scanstring].
    destruct (Z.eqb_spec c quote); [contradiction|].
    destruct (Z.eqb_spec c backslash); [contradiction|].
    replace ((0 <=? c) && (c <? 32)) with false
      by (symmetry; apply andb_false_iff; right; apply Z.ltb_ge; lia).
    apply Hpair.
Qed.

(** Round trip of a string literal: scanning the escaped text up to the
    closing quote gives the original string and what follows the quote. *)
Lemma scanstring_escape (s rest : pystr) :
  scanstring (escape s ++ quote :: rest) = Some (s, rest).
Proof.
  unfold escape. induction s as [|c r IH]; cbn [map concat].
  - reflexivity.
  - rewrite <- app_assoc, scanstring_escape_cp, IH. reflexivity.
Qed.

Lemma scan_once_string (fuel : nat) (s rest : pystr) :
  scan_once (S fuel) (encode_basestring s ++ rest) = Some (Str s, rest).
Proof.
  unfold encode_basestring. cbn [app]; cbn [scan_once].
  replace (quote =? quote) with true by reflexivity.
  rewrite <- app_assoc. cbn [app]. rewrite scanstring_escape. reflexivity.
Qed.

End JsonFacts.

(** ** JSON numbers: a number token is read back whole when a comma or a
    newline follows *)

Module NumberFacts.
Import json JsonFacts.

Lemma span_digits_spec (s d r : pystr) :
  span_digits s = (d, r) ->
  s = d ++ r /\ match r with c :: _ => is_digit c = false | [] => True end.
Proof.
  revert d r. induction s as [|c s IH]; intros d r; cbn [span_digits].
  - intros [= <- <-]. split; [reflexivity | exact I].
  - destruct (is_digit c) eqn:Hc.
    + destruct (span_digits s) as [d' r'] eqn:Hs. intros [= <- <-].
      destruct (IH _ _ eq_refl) as [-> Hr]. split; [reflexivity | exact Hr].
    + intros [= <- <-]. split; [reflexivity | exact Hc].
Qed.


(** Appending a delimiter and anything else does not change which digits
    are taken. *)
Lemma span_digits_comma (s d r rest : pystr) (dl : Z) :
  delimiter dl ->
  span_digits s = (d, r) ->
  span_digits (s ++ dl :: rest) = (d, r ++ dl :: rest).
Proof.
  intros Hdl. revert d r.
  induction s as [|c s IH]; intros d r; cbn [span_digits app].
  - intros [= <- <-]. destruct Hdl as [-> | ->]; reflexivity.
  - destruct (is_digit c) eqn:Hc.
    + destruct (span_digits s) as [d' r'] eqn:Hs. intros [= <- <-].
      rewrite (IH _ _ eq_refl). reflexivity.
    + intros [= <- <-]. reflexivity.
Qed.

Lemma scan_int_comma (s i r rest : pystr) (dl : Z) :
  delimiter dl ->
  scan_int s = Some (i, r) ->
  scan_int (s ++ dl :: rest) = Some (i, r ++ dl :: rest).
Proof.
  intros Hdl.
  assert (Hpos : forall s0 sign,
    match s0 with
    | c :: r1 =>
        if c =? 48 then Some (sign ++ [48], r1)
        else if is_digit c then
          let '(d, r2) := span_digits r1 in Some (sign ++ c :: d, r2)
        else None
    | [] => None
    end = Some (i, r) ->
    match s0 ++ dl :: rest with
    | c :: r1 =>
        if c =? 48 then Some (sign ++ [48], r1)
        else if is_digit c then
          let '(d, r2) := span_digits r1 in Some (sign ++ c :: d, r2)
        else None
    | [] => None
    end = Some (i, r ++ dl :: rest)).
  { intros [|c r1] sign; [discriminate|]. cbn [app].
    destruct (c =? 48); [intros [= <- <-]; reflexivity|].
    destruct (is_digit c); [|discriminate].
    destruct (span_digits r1) as [d r2] eqn:Hs.
    rewrite (span_digits_comma _ _ _ rest dl Hdl Hs). intros [= <- <-]. reflexivity. }
  unfold scan_int. destruct s as [|c s']; [discriminate|].
  cbn [app]. destruct (c =? 45).
  - apply Hpos.
  - apply (Hpos (c :: s')).
Qed.

Lemma scan_frac_comma (s f r rest : pystr) (dl : Z) :
  delimiter dl ->
  scan_frac s = (f, r) ->
  scan_frac (s ++ dl :: rest) = (f, r ++ dl :: rest).
Proof.
  intros Hdl.
  unfold scan_frac. destruct s as [|c s']; cbn [app].
  - intros [= <- <-]. destruct Hdl as [-> | ->]; reflexivity.
  - destruct (c =? 46); [|intros [= <- <-]; reflexivity].
    destruct (span_digits s') as [d r'] eqn:Hs.
    rewrite (span_digits_comma _ _ _ rest dl Hdl Hs).
    destruct d; intros [= <- <-]; reflexivity.
Qed.

Lemma scan_exp_comma (s e r rest : pystr) (dl : Z) :
  delimiter dl ->
  scan_exp s = (e, r) ->
  scan_exp (s ++ dl :: rest) = (e, r ++ dl :: rest).
Proof.
  intros Hdl.
  unfold scan_exp. destruct s as [|c s']; cbn [app].
  - intros [= <- <-]. destruct Hdl as [-> | ->]; reflexivity.
  - destruct ((c =? 101) || (c =? 69)); [|intros [= <- <-]; reflexivity].
    destruct s' as [|g s'']; cbn [app].
    + cbn [span_digits]. intros [= <- <-]. destruct Hdl as [-> | ->]; reflexivity.
    + destruct ((g =? 45) || (g =? 43)).
      * destruct (span_digits s'') as [d r'] eqn:Hs.
        rewrite (span_digits_comma _ _ _ rest dl Hdl Hs).
        destruct d; intros [= <- <-]; reflexivity.
      * destruct (span_digits (g :: s'')) as [d r'] eqn:Hs.
        change (g :: s'' ++ dl :: rest) with ((g :: s'') ++ dl :: rest).
        rewrite (span_digits_comma (g :: s'') _ _ rest dl Hdl Hs).
        destruct d; intros [= <- <-]; reflexivity.
Qed.

Lemma scan_number_comma (s tok r rest : pystr) (dl : Z) :
  delimiter dl ->
  scan_number s = Some (tok, r) ->
  scan_number (s ++ dl :: rest) = Some (tok, r ++ dl :: rest).
Proof.
  intros Hdl.
  unfold scan_number.
  destruct (scan_int s) as [[i r1]|] eqn:Hi; [|discriminate].
  rewrite (scan_int_comma _ _ _ rest dl Hdl Hi).
  destruct (scan_frac r1) as [f r2] eqn:Hf.
  rewrite (scan_frac_comma _ _ _ rest dl Hdl Hf).
  destruct (scan_exp r2) as [e r3] eqn:He.
  rewrite (scan_exp_comma _ _ _ rest dl Hdl He).
  intros [= <- <-]. reflexivity.
Qed.

(** What the scanners return is a split of their input. *)
Lemma scan_int_split (s i r : pystr) :
  scan_int s = Some (i, r) -> s = i ++ r.
Proof.
  assert (Hpos : forall s0 sign,
    match s0 with
    | c :: r1 =>
        if c =? 48 then Some (sign ++ [48], r1)
        else if is_digit c then
          let '(d, r2) := span_digits r1 in Some (sign ++ c :: d, r2)
        else None
    | [] => None
    end = Some (i, r) -> sign ++ s0 = i ++ r).
  { intros [|c r1] sign; [discriminate|].
    destruct (Z.eqb_spec c 48) as [->|_].
    - intros [= <- <-]. rewrite <- app_assoc. reflexivity.
    - destruct (is_digit c); [|discriminate].
      destruct (span_digits r1) as [d r2] eqn:Hs.
      apply span_digits_spec in Hs as [-> _]. intros [= <- <-].
      rewrite <- app_assoc. reflexivity. }
  unfold scan_int. destruct s as [|c s']; [discriminate|].
  destruct (Z.eqb_spec c 45) as [->|_].
  - apply (Hpos s' [45]).
  - apply (Hpos (c :: s') []).
Qed.

Lemma scan_frac_split (s f r : pystr) :
  scan_frac s = (f, r) -> s = f ++ r.
Proof.
  unfold scan_frac. destruct s as [|c s'].
  - intros [= <- <-]. reflexivity.
  - destruct (c =? 46); [|intros [= <- <-]; reflexivity].
    destruct (span_digits s') as [d r'] eqn:Hs.
    apply span_digits_spec in Hs as [-> _].
    destruct d; intros [= <- <-]; reflexivity.
Qed.

Lemma scan_exp_split (s e r : pystr) :
  scan_exp s = (e, r) -> s = e ++ r.
Proof.
  unfold scan_exp. destruct s as [|c s'].
  - intros [= <- <-]. reflexivity.
  - destruct ((c =? 101) || (c =? 69)); [|intros [= <- <-]; reflexivity].
    destruct s' as [|g s''].
    + cbn [span_digits]. intros [= <- <-]. reflexivity.
    + destruct ((g =? 45) || (g =? 43)).
      * destruct (span_digits s'') as [d r'] eqn:Hs.
        apply span_digits_spec in Hs as [-> _].
        destruct d; intros [= <- <-]; reflexivity.
      * destruct (span_digits (g :: s'')) as [d r'] eqn:Hs.
        apply span_digits_spec in Hs as [Hs _].
        destruct d; intros [= <- <-]; [reflexivity|].
        rewrite Hs. reflexivity.
Qed.

Lemma scan_number_split (s tok r : pystr) :
  scan_number s = Some (tok, r) -> s = tok ++ r.
Proof.
  unfold scan_number.
  destruct (scan_int s) as [[i r1]|] eqn:Hi; [|discriminate].
  destruct (scan_frac r1) as [f r2] eqn:Hf.
  destruct (scan_exp r2) as [e r3] eqn:He.
  intros [= <- <-].
  rewrite (scan_int_split _ _ _ Hi), (scan_frac_split _ _ _ Hf),
    (scan_exp_split _ _ _ He), <- !app_assoc.
  reflexivity.
Qed.

(** A number token followed by a comma is read as that token. *)
Lemma number_token_comma (t rest : pystr) (dl : Z) :
  delimiter dl ->
  number_token t = true ->
  scan_number (t ++ dl :: rest) = Some (t, dl :: rest).
Proof.
  intros Hdl. unfold number_token.
  destruct (scan_number t) as [[tok r]|] eqn:Hs; [|discriminate].
  destruct r; [|discriminate]. intros _.
  pose proof (scan_number_split _ _ _ Hs) as Ht. rewrite app_nil_r in Ht.
  subst tok. apply (scan_number_comma _ _ _ rest dl Hdl Hs).
Qed.

(** The characters of a number token: signs, digits, the dot and the
    exponent letters, all between ['+'] and ['e']. *)
Lemma span_digits_chars (s d r : pystr) :
  span_digits s = (d, r) -> Forall (fun x => 43 <= x <= 101) d.
Proof.
  revert d r. induction s as [|c s IH]; intros d r; cbn [span_digits].
  - intros [= <- <-]. constructor.
  - destruct (is_digit c) eqn:Hc.
    + destruct (span_digits s) as [d' r'] eqn:Hs. intros [= <- <-].
      constructor; [|eapply IH; reflexivity].
      unfold is_digit in Hc. apply andb_true_iff in Hc as [Hc1 Hc2].
      apply Z.leb_le in Hc1, Hc2. lia.
    + intros [= <- <-]. constructor.
Qed.

Lemma number_token_head (t : pystr) :
  number_token t = true ->
  exists c t', t = c :: t' /\ (c = 45 \/ is_digit c = true).
Proof.
  unfold number_token, scan_number, scan_int.
  destruct t as [|c t']; [discriminate|].
  destruct (Z.eqb_spec c 45) as [->|_]; [eauto|].
  destruct (Z.eqb_spec c 48) as [->|_]; [eauto|].
  destruct (is_digit c) eqn:Hd; [eauto | discriminate].
Qed.

Lemma scan_number_chars (s tok r : pystr) :
  scan_number s = Some (tok, r) -> Forall (fun x => 43 <= x <= 101) tok.
Proof.
  unfold scan_number.
  destruct (scan_int s) as [[i r1]|] eqn:Hi; [|discriminate].
  destruct (scan_frac r1) as [f r2] eqn:Hf.
  destruct (scan_exp r2) as [e r3] eqn:He.
  intros [= <- <-]. rewrite !Forall_app. repeat split.
  - revert Hi. unfold scan_int.
    assert (Hpos : forall s0 sign, Forall (fun x => 43 <= x <= 101) sign ->
      match s0 with
      | c :: r1 =>
          if c =? 48 then Some (sign ++ [48], r1)
          else if is_digit c then
            let '(d, r2) := span_digits r1 in Some (sign ++ c :: d, r2)
          else None
      | [] => None
      end = Some (i, r1) -> Forall (fun x => 43 <= x <= 101) i).
    { intros [|c r0] sign Hsign; [discriminate|].
      destruct (c =? 48).
      - intros [= <- <-]. apply Forall_app. split; [exact Hsign|].
        repeat constructor; lia.
      - destruct (is_digit c) eqn:Hd; [|discriminate].
        destruct (span_digits r0) as [d r2'] eqn:Hs. intros [= <- <-].
        apply Forall_app. split; [exact Hsign|]. constructor.
        + unfold is_digit in Hd. apply andb_true_iff in Hd as [Hd1 Hd2].
          apply Z.leb_le in Hd1, Hd2. lia.
        + apply (span_digits_chars _ _ _ Hs). }
    destruct s as [|c s']; [discriminate|].
    destruct (c =? 45).
    + apply Hpos. repeat constructor; lia.
    + apply (Hpos (c :: s')). constructor.
  - revert Hf. unfold scan_frac. destruct r1 as [|c s']; [intros [= <- <-]; constructor|].
    destruct (Z.eqb_spec c 46) as [->|_]; [|intros [= <- <-]; constructor].
    destruct (span_digits s') as [d r'] eqn:Hs.
    pose proof (span_digits_chars _ _ _ Hs) as Hd.
    destruct d; intros [= <- <-]; [constructor|].
    constructor; [lia | exact Hd].
  - revert He. unfold scan_exp. destruct r2 as [|c s']; [intros [= <- <-]; constructor|].
    destruct ((c =? 101) || (c =? 69)) eqn:Hc; [|intros [= <- <-]; constructor].
    assert (43 <= c <= 101).
    { apply orb_true_iff in Hc as [Hc|Hc]; apply Z.eqb_eq in Hc; lia. }
    destruct s' as [|g s''].
    + cbn [span_digits]. intros [= <- <-]. constructor.
    + destruct ((g =? 45) || (g =? 43)) eqn:Hg.
      * assert (43 <= g <= 101).
        { apply orb_true_iff in Hg as [Hg|Hg]; apply Z.eqb_eq in Hg; lia. }
        destruct (span_digits s'') as [d r'] eqn:Hs.
        pose proof (span_digits_chars _ _ _ Hs) as Hd.
        destruct d; intros [= <- <-]; [constructor|].
        constructor; [assumption|]. constructor; [assumption | exact Hd].
      * destruct (span_digits (g :: s'')) as [d r'] eqn:Hs.
        pose proof (span_digits_chars _ _ _ Hs) as Hd.
        destruct d; intros [= <- <-]; [constructor|].
        constructor; [assumption | exact Hd].
Qed.

Lemma number_token_chars (t : pystr) :
  number_token t = true -> Forall (fun x => 43 <= x <= 101) t.
Proof.
  unfold number_token.
  destruct (scan_number t) as [[tok r]|] eqn:Hs; [|discriminate].
  destruct r; [|discriminate]. intros _.
  pose proof (scan_number_split _ _ _ Hs) as Ht. rewrite app_nil_r in Ht.
  subst tok. apply (scan_number_chars _ _ _ Hs).
Qed.

Lemma scan_once_number (f : nat) (t rest : pystr) (dl : Z) :
  delimiter dl ->
  number_token t = true ->
  scan_once (S f) (t ++ dl :: rest) = Some (Number t, dl :: rest).
Proof.
  intros Hdl Ht.
  destruct (number_token_head t Ht) as (c & t' & -> & Hc).
  assert (Hrange : c = 45 \/ 48 <= c <= 57).
  { destruct Hc as [->|Hd]; [lia|]. right. unfold is_digit in Hd.
    apply andb_true_iff in Hd as [H1 H2].
    apply Z.leb_le in H1. apply Z.leb_le in H2. lia. }
  cbn [app]; cbn [scan_once]. unfold quote.
  destruct (Z.eqb_spec c 34); [lia|].
  destruct (Z.eqb_spec c 123); [lia|].
  destruct (Z.eqb_spec c 91); [lia|].
  unfold scan_literal.
  change (lit "null") with [110; 117; 108; 108].
  change (lit "true") with [116; 114; 117; 101].
  change (lit "false") with [102; 97; 108; 115; 101].
  cbn [strip_prefix].
  destruct (Z.eqb_spec 110 c); [lia|].
  destruct (Z.eqb_spec 116 c); [lia|].
  destruct (Z.eqb_spec 102 c); [lia|].
  change (c :: t' ++ dl :: rest) with ((c :: t') ++ dl :: rest).
  rewrite (number_token_comma _ rest dl Hdl Ht). reflexivity.
Qed.

Lemma skip_ws_head (c : Z) (r : pystr) :
  is_ws c = false -> skip_ws (c :: r) = c :: r.
Proof. intros H. cbn [skip_ws]. rewrite H. reflexivity. Qed.

Section Decode.
Variable float_repr : float -> pystr.
Hypothesis repr_number :
  forall x, finite x = true -> number_token (float_repr x) = true.

Lemma floatstr_cases (x : float) :
  floatstr float_repr x = lit "NaN" \/ floatstr float_repr x = lit "Infinity"
  \/ floatstr float_repr x = lit "-Infinity"
  \/ number_token (floatstr float_repr x) = true.
Proof.
  unfold floatstr. pose proof (repr_number x) as H. unfold finite in H.
  destruct (PrimFloat.eqb x x); cbn [negb]; [|auto].
  destruct (PrimFloat.eqb x infinity); [auto|].
  destruct (PrimFloat.eqb x neg_infinity); [auto|].
  right. right. right. apply H. reflexivity.
Qed.

(** An encoded value, after the blank that follows the colon, is read back
    as its decoded form, up to the delimiter. *)
Lemma scan_value (f : nat) (v : pyvalue) (dl : Z) (rest : pystr) :
  delimiter dl ->
  scan_once (S f) (skip_ws (32 :: encode_value float_repr v ++ dl :: rest))
  = Some (decoded float_repr v, dl :: rest).
Proof.
  intros Hdl. cbn [skip_ws]. change (is_ws 32) with true. cbv iota.
  destruct v as [s|x]; cbn [encode_value decoded].
  - unfold encode_basestring. cbn [app]. rewrite skip_ws_head by reflexivity.
    apply (scan_once_string f s (dl :: rest)).
  - destruct (floatstr_cases x) as [H|[H|[H|H]]].
    + rewrite H. destruct Hdl as [-> | ->]; reflexivity.
    + rewrite H. destruct Hdl as [-> | ->]; reflexivity.
    + rewrite H. destruct Hdl as [-> | ->]; reflexivity.
    + destruct (number_token_head _ H) as (c & t' & Heq & Hc).
      rewrite Heq in H |- *. cbn [app]. rewrite skip_ws_head.
      * apply (scan_once_number f (c :: t') rest dl); assumption.
      * destruct Hc as [->|Hd]; [reflexivity|].
        unfold is_digit in Hd. apply andb_true_iff in Hd as [H1 H2].
        apply Z.leb_le in H1. apply Z.leb_le in H2. unfold is_ws.
        rewrite !orb_false_iff. repeat split; apply Z.eqb_neq; lia.
Qed.

Lemma scan_pairs_unfold (f : nat) (s : pystr) :
  scan_pairs (S f) s =
  scanstring s ≫= fun '(k, r1) =>
    match skip_ws r1 with
    | c :: r2 =>
        if c =? 58 then
          scan_once f (skip_ws r2) ≫= fun '(v, r3) =>
            match skip_ws r3 with
            | d :: r4 =>
                if d =? 125 then Some ([(k, v)], r4)
                else if d =? 44 then
                  match skip_ws r4 with
                  | q :: r5 =>
                      if q =? quote then
                        scan_pairs f r5 ≫= fun '(ps, rest) => Some ((k, v) :: ps, rest)
                      else None
                  | [] => None
                  end
                else None
            | [] => None
            end
        else None
    | [] => None
    end.
Proof. reflexivity. Qed.

Lemma skip_ws_indent (r : pystr) :
  skip_ws (10 :: 32 :: 32 :: quote :: r) = quote :: r.
Proof. reflexivity. Qed.

(** The items of an encoded dict, from after the opening quote of the first
    key to the closing brace, are read back as the decoded pairs. *)
Lemma scan_pairs_items (rest : list (pystr * pyvalue)) :
  forall (k : pystr) (v : pyvalue) (n : nat),
    scan_pairs (S (S (length rest + n)))
      (escape k ++ quote :: 58 :: 32 :: encode_value float_repr v
       ++ concat (iterencode_items float_repr false rest) ++ [10; 125])
    = Some ((k, decoded float_repr v) :: map (decoded_pair float_repr) rest, []).
Proof.
  induction rest as [|[k' v'] rest IH]; intros k v n;
    rewrite scan_pairs_unfold, scanstring_escape;
    cbn [mbind option_bind]; rewrite skip_ws_head by reflexivity;
    change (58 =? 58) with true; cbv iota.
  - cbn [iterencode_items concat app].
    rewrite (scan_value _ v 10 [125]) by (right; reflexivity).
    reflexivity.
  - cbn [iterencode_items concat app length plus].
    change (lit ",") with [44]. change (lit ": ") with [58; 32].
    unfold encode_basestring. cbn [app]. rewrite <- !app_assoc. cbn [app].
    rewrite (scan_value _ v 44) by (left; reflexivity).
    cbn [mbind option_bind].
    rewrite skip_ws_head by reflexivity.
    change (44 =? 125) with false. change (44 =? 44) with true. cbv iota.
    rewrite skip_ws_indent.
    change (quote =? quote) with true. cbv iota.
    rewrite <- ?app_assoc. rewrite (IH k' v' n). reflexivity.
Qed.

Lemma scan_once_object (f : nat) (r : pystr) :
  scan_once (S f) (123 :: r) =
  match skip_ws r with
  | d :: r1 =>
      if d =? 125 then Some (Obj [], r1)
      else if d =? quote then
        scan_pairs f r1 ≫= fun '(ps, rest) => Some (Obj ps, rest)
      else None
  | [] => None
  end.
Proof. reflexivity. Qed.

(** Round trip of a whole dict: what [json.dump] wrote, [json.loads] reads
    back as the object of the decoded pairs. *)
Lemma loads_dict (k : pystr) (v : pyvalue) (rest : list (pystr * pyvalue)) :
  loads (concat (iterencode_dict float_repr ((k, v) :: rest)))
  = Some (Obj (map (decoded_pair float_repr) ((k, v) :: rest))).
Proof.
  unfold loads, iterencode_dict.
  change (lit "{") with [123]. change (lit "}") with [125].
  cbn [concat app iterencode_items]. rewrite concat_app. cbn [concat app].
  change (lit ": ") with [58; 32].
  unfold encode_basestring at 1. cbn [app]. rewrite <- !app_assoc. cbn [app].
  rewrite skip_ws_head by reflexivity.
  set (text := (10 :: 32 :: 32 :: _)).
  assert (Hlen : exists n, length (123 :: text) = S (S (length rest + n))).
  { assert (Hrest : (length rest
                     <= length (concat (iterencode_items float_repr false rest)))%nat).
    { clear. induction rest as [|[k' v'] rest IH]; [constructor|].
      cbn [length iterencode_items concat app]. rewrite !length_app.
      change (lit ",") with [44]. cbn [length]. lia. }
    assert (Hge : (S (S (length rest)) <= length (cons 123%Z text))%nat).
    { subst text. cbn [length]. rewrite !length_app. cbn [length].
      rewrite !length_app. lia. }
    exists (length (cons 123%Z text) - S (S (length rest)))%nat. lia. }
  destruct Hlen as [n ->]. subst text.
  rewrite scan_once_object. unfold encode_basestring. cbn [app].
  rewrite <- ?app_assoc. cbn [app]. rewrite skip_ws_indent.
  change (quote =? 125) with false. change (quote =? quote) with true. cbv iota.
  rewrite (scan_pairs_items rest k v n). reflexivity.
Qed.

End Decode.

End NumberFacts.

(** ** Paths *)

Module PathFacts.
Import pathlib.

Lemma split_on_no_sep (sep : Z) (s : pystr) :
  Forall (fun x => Forall (fun c => c <> sep) x) (split_on sep s).
Proof.
  induction s as [|c r IH]; cbn [split_on].
  - repeat constructor.
  - destruct (Z.eqb_spec c sep) as [->|Hne].
    + constructor; [constructor | exact IH].
    + destruct (split_on sep r) as [|h t]; [repeat constructor; assumption|].
      inversion IH; subst. constructor; [constructor; assumption | assumption].
Qed.

Lemma split_on_free (sep : Z) (s : pystr) :
  Forall (fun c => c <> sep) s -> split_on sep s = [s].
Proof.
  induction 1 as [|c r Hc Hr IH]; cbn [split_on]; [reflexivity|].
  destruct (Z.eqb_spec c sep); [contradiction|]. rewrite IH. reflexivity.
Qed.

Lemma filter_keep_good (l : list pystr) :
  Forall (fun x => Forall (fun c => c <> slash) x) l ->
  Forall good_part (filter keep_part l).
Proof.
  induction 1 as [|x l Hx Hl IH]; [constructor|].
  rewrite filter_cons. destruct (decide (keep_part x)) as [Hk|Hk]; [|exact IH].
  constructor; [|exact IH]. split; [|exact Hx].
  destruct (keep_part x); [reflexivity | contradiction].
Qed.


(** [Path(s)] is well formed, whatever [s] is. *)
Lemma parse_wf (s : pystr) : wf (parse s).
Proof.
  unfold parse, wf.
  destruct s as [|a r1]; [cbn; split; [auto | constructor]|].
  destruct (a =? slash).
  - destruct r1 as [|b r2]; [cbn; split; [auto | constructor]|].
    destruct ((b =? slash) && negb (starts_with [slash] r2)); cbn [root parts];
      (split; [auto | apply filter_keep_good, split_on_no_sep]).
  - cbn [root parts]. split; [auto | apply filter_keep_good, split_on_no_sep].
Qed.

(** A single good component parses to itself. *)
Lemma parse_good_part (x : pystr) :
  good_part x -> parse x = mkPath [] [x].
Proof.
  intros [Hk Hx]. unfold parse. destruct x as [|a r]; [discriminate|].
  inversion Hx as [|? ? Ha Hr]; subst.
  destruct (Z.eqb_spec a slash); [contradiction|].
  rewrite (split_on_free slash (a :: r) Hx).
  rewrite filter_cons. destruct (decide (keep_part (a :: r))) as [|Hn]; [reflexivity|].
  rewrite Hk in Hn. contradiction Hn. exact I.
Qed.

Lemma joinpath_good_part (p : Path) (x : pystr) :
  good_part x -> joinpath p x = mkPath (root p) (parts p ++ [x]).
Proof.
  intros Hx. unfold joinpath. rewrite (parse_good_part x Hx). reflexivity.
Qed.

Lemma name_snoc (r : pystr) (ps : list pystr) (x : pystr) :
  name (mkPath r (ps ++ [x])) = x.
Proof. unfold name. cbn [parts]. apply last_last. Qed.

Lemma parent_snoc (r : pystr) (ps : list pystr) (x : pystr) :
  parent (mkPath r (ps ++ [x])) = mkPath r ps.
Proof.
  unfold parent. cbn [parts root].
  destruct (ps ++ [x]) eqn:E; [destruct ps; discriminate|].
  rewrite <- E, removelast_last. reflexivity.
Qed.

Lemma concat_sep_snoc (sep : pystr) (t : list pystr) (x : pystr) :
  concat (map (fun q => sep ++ q) (t ++ [x]))
  = sep ++ concat (map (fun q => q ++ sep) t) ++ x.
Proof.
  induction t as [|q t IH]; cbn [app map concat].
  - rewrite app_nil_r. reflexivity.
  - rewrite IH, <- !app_assoc. reflexivity.
Qed.

Lemma join_with_snoc (sep : pystr) (ps : list pystr) (x : pystr) :
  join_with sep (ps ++ [x]) = concat (map (fun q => q ++ sep) ps) ++ x.
Proof.
  destruct ps as [|h t]; cbn [join_with app map concat].
  - apply app_nil_r.
  - rewrite concat_sep_snoc, <- !app_assoc. reflexivity.
Qed.

(** The text of a path ending in [x] is a prefix that does not depend on [x],
    followed by [x]. *)
Lemma str_snoc (r : pystr) (ps : list pystr) (x : pystr) :
  str (mkPath r (ps ++ [x])) = (r ++ concat (map (fun q => q ++ [slash]) ps)) ++ x.
Proof.
  rewrite <- app_assoc, <- join_with_snoc. unfold str. cbn [root parts].
  destruct (ps ++ [x]) as [|h t] eqn:E; [destruct ps; discriminate|].
  destruct r; reflexivity.
Qed.

Lemma absolute_snoc (cwd r : pystr) (ps : list pystr) (x : pystr) :
  exists r' ps', forall y,
    absolute cwd (mkPath r (ps ++ [y])) = mkPath r' (ps' ++ [y]).
Proof.
  unfold absolute, is_absolute. cbn [root parts].
  destruct (negb (pystr_eqb r [])).
  - exists r, ps. reflexivity.
  - exists (root (parse cwd)), (parts (parse cwd) ++ ps). intros y.
    rewrite app_assoc. reflexivity.
Qed.

(** Two files of one directory with different names have different keys. *)
Lemma sibling_keys_differ (cwd r : pystr) (ps : list pystr) (x y : pystr) :
  x <> y ->
  str (absolute cwd (mkPath r (ps ++ [x])))
  <> str (absolute cwd (mkPath r (ps ++ [y]))).
Proof.
  intros Hxy. destruct (absolute_snoc cwd r ps x) as (r' & ps' & Habs).
  rewrite !Habs, !str_snoc. intros H. apply app_inv_head in H. contradiction.
Qed.

(** *** [str] and [parse] are inverse on well-formed paths *)







(** The stem of a well-formed path holds no slash. *)
Lemma name_no_slash (p : Path) :
  wf p -> Forall (fun c => c <> slash) (name p).
Proof.
  intros [_ Hps]. unfold name.
  induction Hps as [|x l [_ Hx] Hl IH]; [constructor|].
  cbn [parts] in *. destruct l; [exact Hx | exact IH].
Qed.

Lemma stem_no_slash (p : Path) :
  wf p -> Forall (fun c => c <> slash) (stem p).
Proof.
  intros Hp. pose proof (name_no_slash p Hp) as Hn. unfold stem.
  destruct (rfind_dot (name p)) as [i|]; [|exact Hn].
  destruct ((0 <? i)%nat && (i <? length (name p) - 1)%nat); [|exact Hn].
  apply Forall_take. exact Hn.
Qed.

End PathFacts.

(** ** Text: newlines, decimal numbers, time stamps *)

Lemma universal_newlines_id (s : pystr) :
  Forall (fun c => c <> 13) s -> universal_newlines s = s.
Proof.
  induction 1 as [|c r Hc Hr IH]; cbn [universal_newlines]; [reflexivity|].
  destruct (Z.eqb_spec c 13); [contradiction|]. rewrite IH. reflexivity.
Qed.

Lemma digits_fuel_chars (fuel : nat) (n : Z) (acc : pystr) :
  Forall (fun c => 48 <= c <= 57) acc ->
  Forall (fun c => 48 <= c <= 57) (digits_fuel fuel n acc).
Proof.
  revert n acc. induction fuel as [|f IH]; intros n acc Hacc; cbn [digits_fuel].
  - exact Hacc.
  - assert (Hnew : Forall (fun c => 48 <= c <= 57) ((48 + n mod 10) :: acc)).
    { constructor; [|exact Hacc].
      pose proof (Z.mod_pos_bound n 10 ltac:(lia)). lia. }
    destruct (n <? 10); [exact Hnew | apply IH; exact Hnew].
Qed.

(** [str(n)] holds digits, after a minus sign when [n] is negative. *)
Lemma str_of_int_chars (n : Z) :
  Forall (fun c => c = 45 \/ 48 <= c <= 57) (str_of_int n).
Proof.
  assert (H : forall m, Forall (fun c => c = 45 \/ 48 <= c <= 57) (str_of_nonneg m)).
  { intros m. unfold str_of_nonneg.
    eapply Forall_impl; [apply digits_fuel_chars; constructor|].
    intros c Hc. right. exact Hc. }
  unfold str_of_int. destruct (n <? 0); [constructor; [left; reflexivity|]|]; apply H.
Qed.

Lemma zero_pad_chars (width : nat) (n : Z) :
  Forall (fun c => c = 45 \/ 48 <= c <= 57) (zero_pad width n).
Proof.
  unfold zero_pad. apply Forall_app. split; [|apply str_of_int_chars].
  apply Forall_forall. intros c Hc. apply list_elem_of_In, repeat_spec in Hc.
  subst. right. lia.
Qed.

Lemma strftime_stamp_chars (t : datetime) :
  Forall (fun c => c = 45 \/ c = 95 \/ 48 <= c <= 57) (strftime_stamp t).
Proof.
  assert (H : forall w n, Forall (fun c => c = 45 \/ c = 95 \/ 48 <= c <= 57)
                                 (zero_pad w n)).
  { intros w n. eapply Forall_impl; [apply zero_pad_chars|].
    intros c [Hc|Hc]; auto. }
  unfold strftime_stamp. rewrite !Forall_app. repeat split; try apply H.
  constructor; [right; left; reflexivity | constructor].
Qed.

(** The fixed-width fields, checked over their whole range. *)
Lemma below_forallb (P : Z -> bool) (lo len : Z) (n : Z) :
  forallb P (map Z.of_nat (seq (Z.to_nat lo) (Z.to_nat len))) = true ->
  0 <= lo -> lo <= n < lo + len -> P n = true.
Proof.
  intros Hall Hlo Hn. rewrite forallb_forall in Hall. apply Hall.
  apply in_map_iff. exists (Z.to_nat n). split; [lia|]. apply in_seq. lia.
Qed.




(** ** Reasoning about runs *)

Arguments lit : simpl never.

Lemma bind_Done {A B} (m : M A) (k : A -> M B) (w w' : World) (a : A) :
  m w = (Done a, w') -> bind m k w = k a w'.
Proof. unfold bind. intros ->. reflexivity. Qed.

Lemma bind_Raised {A B} (m : M A) (k : A -> M B) (w w' : World) (e : exn) :
  m w = (Raised e, w') -> bind m k w = (Raised e, w').
Proof. unfold bind. intros ->. reflexivity. Qed.

Lemma run_pair {A} (m : M A) (w : World) : m w = (fst (m w), snd (m w)).
Proof. destruct (m w); reflexivity. Qed.

Section Steps.
Context (R : World -> World -> Prop) `{!PreOrder R}.

Lemma steps_ret {A} (a : A) : steps R (ret a).
Proof. intros w. reflexivity. Qed.

Lemma steps_raise {A} (e : exn) : steps R (@raise A e).
Proof. intros w. reflexivity. Qed.

Lemma steps_bind {A B} (m : M A) (k : A -> M B) :
  steps R m -> (forall a, steps R (k a)) -> steps R (bind m k).
Proof.
  intros Hm Hk w. unfold bind. specialize (Hm w).
  destruct (m w) as [[a|e] w1]; cbn [snd] in *; [|exact Hm].
  etransitivity; [exact Hm | apply Hk].
Qed.

Lemma steps_try_except {A} (body : M A) (handler : exc_class -> pystr -> M A) :
  steps R body -> (forall c t, steps R (handler c t)) ->
  steps R (try_except body handler).
Proof.
  intros Hb Hh w. unfold try_except. specialize (Hb w).
  destruct (body w) as [[a|[c t|code]] w1]; cbn [snd] in *; try exact Hb.
  etransitivity; [exact Hb | apply Hh].
Qed.

End Steps.

Lemma never_exits_ret {A} (a : A) : never_exits (ret a).
Proof. intros w. exact I. Qed.

Lemma never_exits_raise {A} (c : exc_class) (t : pystr) :
  never_exits (@raise A (Exc c t)).
Proof. intros w. exact I. Qed.

Lemma never_exits_bind {A B} (m : M A) (k : A -> M B) :
  never_exits m -> (forall a, never_exits (k a)) -> never_exits (bind m k).
Proof.
  intros Hm Hk w. unfold bind. specialize (Hm w).
  destruct (m w) as [[a|e] w1]; cbn [fst] in *; [apply Hk | exact Hm].
Qed.

Lemma never_exits_try_except {A} (body : M A) (handler : exc_class -> pystr -> M A) :
  never_exits body -> (forall c t, never_exits (handler c t)) ->
  never_exits (try_except body handler).
Proof.
  intros Hb Hh w. unfold try_except. specialize (Hb w).
  destruct (body w) as [[a|[c t|code]] w1]; cbn [fst] in *;
    [exact I | apply Hh | contradiction].
Qed.

Lemma total_ret {A} (a : A) : total (ret a).
Proof. intros w. eauto. Qed.

Lemma total_bind {A B} (m : M A) (k : A -> M B) :
  total m -> (forall a, total (k a)) -> total (bind m k).
Proof.
  intros Hm Hk w. unfold bind. destruct (Hm w) as [a Ha].
  destruct (m w) as [r w1]; cbn [fst] in Ha; subst r. apply Hk.
Qed.

(** A [try] whose handler only logs always comes back. *)
Lemma total_try_except (body : M unit) (handler : exc_class -> pystr -> M unit) :
  never_exits body -> (forall c t, total (handler c t)) ->
  total (try_except body handler).
Proof.
  intros Hb Hh w. unfold try_except. specialize (Hb w).
  destruct (body w) as [[[]|[c t|code]] w1]; cbn [fst] in *;
    [eauto | apply Hh | contradiction].
Qed.

(** *** The primitives *)

Instance files_same_preorder : PreOrder files_same.
Proof.
  split.
  - intros w p d. reflexivity.
  - intros a b c Hab Hbc p d. rewrite (Hbc p d). apply Hab.
Qed.

Instance quiet_preorder : PreOrder quiet.
Proof.
  split.
  - intros w. split; reflexivity.
  - intros a b c [H1 H2] [H3 H4]. split; [etransitivity; eassumption | congruence].
Qed.

Instance no_call_preorder : PreOrder no_call.
Proof.
  split.
  - intros w. reflexivity.
  - intros a b c H1 H2. unfold no_call in *. congruence.
Qed.

Instance extends_preorder : PreOrder extends.
Proof.
  split.
  - intros w. exists []. reflexivity.
  - intros a b c [x Hx] [y Hy]. exists (y ++ x). rewrite Hy, Hx, app_assoc.
    reflexivity.
Qed.

Lemma quiet_emit (e : event) (w : World) :
  is_write_open e = None -> quiet w (emit e w).
Proof.
  intros He. split; [intros p d; reflexivity|].
  unfold write_opens. cbn [emit trace omap list_omap]. rewrite He. reflexivity.
Qed.

Lemma no_call_emit (e : event) (w : World) :
  is_api_call e = None -> no_call w (emit e w).
Proof.
  intros He. unfold no_call, api_calls. cbn [emit trace omap list_omap].
  rewrite He. reflexivity.
Qed.

Lemma quiet_emit_after (e : event) (w w' : World) :
  is_write_open e = None -> quiet w w' -> quiet w (emit e w').
Proof. intros He H. etransitivity; [exact H | apply quiet_emit; exact He]. Qed.

Lemma no_call_emit_after (e : event) (w w' : World) :
  is_api_call e = None -> no_call w w' -> no_call w (emit e w').
Proof. intros He H. etransitivity; [exact H | apply no_call_emit; exact He]. Qed.

Lemma extends_emit (e : event) (w : World) : extends w (emit e w).
Proof. exists [e]. reflexivity. Qed.

Create HintDb run discriminated.

Lemma logger_run (lv : level) (msg : pystr) (w : World) :
  logger lv msg w
  = (Done tt, match lv with DEBUG => w | _ => emit (EvLog lv msg) w end).
Proof. destruct lv; reflexivity. Qed.

Lemma print_run (msg : pystr) (w : World) :
  print msg w = (Done tt, emit (EvPrint msg) w).
Proof. reflexivity. Qed.

Lemma steps_logger (R : World -> World -> Prop) `{!PreOrder R} lv msg :
  (forall w, R w (emit (EvLog lv msg) w)) -> steps R (logger lv msg).
Proof. intros H w. rewrite logger_run. destruct lv; cbn [snd]; [reflexivity | apply H ..]. Qed.

Lemma steps_print (R : World -> World -> Prop) msg :
  (forall w, R w (emit (EvPrint msg) w)) -> steps R (print msg).
Proof. intros H w. apply H. Qed.

Lemma never_exits_logger lv msg : never_exits (logger lv msg).
Proof. intros w. rewrite logger_run. exact I. Qed.

Lemma never_exits_print msg : never_exits (print msg).
Proof. intros w. exact I. Qed.

Lemma total_logger lv msg : total (logger lv msg).
Proof. intros w. rewrite logger_run. eauto. Qed.

Lemma total_print msg : total (print msg).
Proof. intros w. eauto. Qed.

(** Case analysis on what a primitive finds in the world. *)
Ltac case_prim :=
  cbv zeta; cbn [emit fs denied];
  repeat match goal with
         | |- context [match fs ?w !! ?k with _ => _ end] =>
             destruct (fs w !! k) as [[|?]|] eqn:?
         | |- context [if bool_decide ?P then _ else _] =>
             destruct (bool_decide P) eqn:?
         | |- context [match Utf8.decode ?d with _ => _ end] =>
             destruct (Utf8.decode d) eqn:?
         | |- context [match Utf8.encode ?d with _ => _ end] =>
             destruct (Utf8.encode d) eqn:?
         | |- context [if Utf8.encodable ?m then _ else _] =>
             destruct (Utf8.encodable m) eqn:?
         | |- context [match lookup_miss ?e ?s ?p ?w with _ => _ end] =>
             destruct (lookup_miss e s p w) eqn:?
         | |- context [miss_error ?r ?s (lookup_miss ?e ?s' ?p ?w)] =>
             destruct (lookup_miss e s' p w) eqn:?; cbn [miss_error]
         end;
  cbn [fst snd].

Section Primitives.
Variable rt : Runtime.
Variable env : Env.

Lemma print_text_ok (msg : pystr) (w : World) :
  Utf8.encodable msg = true -> print_text rt msg w = (Done tt, emit (EvPrint msg) w).
Proof. unfold print_text. intros ->. reflexivity. Qed.

Lemma print_text_fails (msg : pystr) (w : World) :
  Utf8.encodable msg = false ->
  print_text rt msg w
  = (Raised (Exc UnicodeEncodeError (error_text rt UnicodeEncodeError msg)), w).
Proof. unfold print_text. intros ->. reflexivity. Qed.

Lemma steps_print_text (R : World -> World -> Prop) `{!PreOrder R} msg :
  (forall w, R w (emit (EvPrint msg) w)) -> steps R (print_text rt msg).
Proof.
  intros H w. unfold print_text. destruct (Utf8.encodable msg); cbn [snd];
    [apply H | reflexivity].
Qed.

Lemma never_exits_print_text msg : never_exits (print_text rt msg).
Proof. intros w. unfold print_text. destruct (Utf8.encodable msg); exact I. Qed.

(** A path that is there is found. *)
Lemma path_exists_found (p : pathlib.Path) (w : World) :
  is_Some (fs w !! os_path env p) -> path_exists rt env p w = (Done true, w).
Proof. intros [n Hn]. unfold path_exists. rewrite Hn. reflexivity. Qed.



Lemma path_exists_world (p : pathlib.Path) (w : World) :
  snd (path_exists rt env p w) = w.
Proof. unfold path_exists. case_prim; reflexivity. Qed.

(** What [exists()] answers tells whether the path is there. *)
Lemma path_exists_done (p : pathlib.Path) (w : World) (b : bool) :
  fst (path_exists rt env p w) = Done b ->
  b = bool_decide (is_Some (fs w !! os_path env p)).
Proof.
  unfold path_exists. destruct (fs w !! os_path env p) as [n|] eqn:Hn.
  - intros [= <-]. symmetry. apply bool_decide_eq_true_2. eauto.
  - destruct (lookup_miss _ _ _ _); intros [= <-]; symmetry;
      apply bool_decide_eq_false_2; intros [? [=]].
Qed.

Lemma last_In {A} (l : list A) (d : A) : l <> [] -> In (List.last l d) l.
Proof.
  induction l as [|x l IH]; [congruence|]. intros _.
  destruct l as [|y l']; [left; reflexivity|].
  right. apply IH. discriminate.
Qed.

Lemma removelast_In {A} (l : list A) (x : A) : In x (removelast l) -> In x l.
Proof.
  induction l as [|y l IH]; [intros []|].
  destruct l as [|z l']; [intros []|].
  intros [<-|H]; [left; reflexivity | right; apply IH; exact H].
Qed.

(** The walk refuses a path only for a component that is too long. *)
Lemma walk_short (fuel : nat) (p : pathlib.Path) (files : gmap pystr node) :
  Forall (fun part => too_long part = false) (pathlib.parts p) ->
  walk env fuel p files <> NameTooLong.
Proof.
  revert p. induction fuel as [|f IH]; intros p Hs; cbn [walk]; [discriminate|].
  rewrite Forall_forall in Hs.
  assert (Hname : too_long (pathlib.name p) = false).
  { unfold pathlib.name. destruct (pathlib.parts p) as [|x l] eqn:Hp.
    - reflexivity.
    - apply Hs. apply list_elem_of_In. apply last_In. discriminate. }
  cbv zeta. rewrite Hname.
  destruct (files !! os_path env (pathlib.parent p)) as [[|d]|]; try discriminate.
  destruct (pathlib.parts (pathlib.parent p)) eqn:Hpp; [discriminate|].
  apply IH. rewrite Forall_forall. intros y Hy. apply Hs.
  apply list_elem_of_In in Hy. apply list_elem_of_In.
  unfold pathlib.parent in Hy.
  destruct (pathlib.parts p) as [|x1 l1] eqn:Hp; [rewrite Hp in Hy; exact Hy|].
  cbn [pathlib.parts] in Hy. apply removelast_In. exact Hy.
Qed.

Lemma lookup_miss_short (shown : pystr) (p : pathlib.Path)
                        (files : gmap pystr node) :
  Forall (fun part => too_long part = false) (pathlib.parts p) ->
  lookup_miss env shown p files <> NameTooLong.
Proof.
  intros Hs. unfold lookup_miss.
  destruct (existsb _ shown); [discriminate|].
  destruct (negb _); [discriminate|]. apply walk_short. exact Hs.
Qed.


Lemma datetime_now_run (w : World) :
  datetime_now env w
  = (Done (clock env (ticks w)), mkWorld (fs w) (denied w) (S (ticks w)) (trace w)).
Proof. reflexivity. Qed.

Lemma steps_path_exists R `{!PreOrder R} p : steps R (path_exists rt env p).
Proof. intros w. rewrite path_exists_world. reflexivity. Qed.

Lemma never_exits_path_exists p : never_exits (path_exists rt env p).
Proof. intros w. unfold path_exists, miss_error. case_prim; exact I. Qed.

Lemma never_exits_stat_size p : never_exits (stat_size rt env p).
Proof. intros w. unfold stat_size. destruct (fs w !! _) as [[]|]; exact I. Qed.

Lemma never_exits_datetime_now : never_exits (datetime_now env).
Proof. intros w. exact I. Qed.

Lemma total_datetime_now : total (datetime_now env).
Proof. intros w. eauto. Qed.

Lemma never_exits_mkdir p : never_exits (mkdir_exist_ok rt env p).
Proof.
  intros w. unfold mkdir_exist_ok, access_error.
  case_prim; exact I.
Qed.

Lemma never_exits_open_read s p d : never_exits (open_read rt env s p d).
Proof.
  intros w. unfold open_read. destruct d; case_prim; exact I.
Qed.

Lemma never_exits_read_text p : never_exits (read_text rt env p).
Proof. apply never_exits_open_read. Qed.

Lemma never_exits_read_file s : never_exits (read_file rt env s).
Proof. apply never_exits_open_read. Qed.

Lemma never_exits_open_write p : never_exits (open_write rt env p).
Proof.
  intros w. unfold open_write, access_error. cbn [emit fs denied].
  case_prim; exact I.
Qed.

Lemma never_exits_f_write p s : never_exits (f_write rt env p s).
Proof.
  intros w. unfold f_write.
  case_prim; exact I.
Qed.

Lemma never_exits_api_call req : never_exits (api_call env req).
Proof. intros w. unfold api_call. destruct (endpoint env req); exact I. Qed.

(** What leaves the files and the write log alone. *)
Lemma quiet_stat_size p : steps quiet (stat_size rt env p).
Proof. intros w. unfold stat_size. destruct (fs w !! _) as [[]|]; reflexivity. Qed.

Lemma quiet_datetime_now : steps quiet (datetime_now env).
Proof. intros w. split; [intros p d|]; reflexivity. Qed.

Lemma quiet_mkdir p : steps quiet (mkdir_exist_ok rt env p).
Proof.
  intros w. unfold mkdir_exist_ok.
  assert (Hq : quiet w (emit (EvMkdir (os_path env p)) w))
    by (apply quiet_emit; reflexivity).
  cbn [emit fs]. destruct (fs w !! os_path env p) as [[|d]|] eqn:Hp; cbn [snd];
    try exact Hq.
  destruct (access_error _ _ _ _); cbn [snd]; [exact Hq|].
  split; [|reflexivity]. intros q d. unfold with_fs. cbn [fs emit].
  destruct (decide (q = os_path env p)) as [->|Hne].
  - rewrite lookup_insert_eq, Hp. split; discriminate.
  - rewrite lookup_insert_ne by congruence. reflexivity.
Qed.

Lemma quiet_open_read s p d : steps quiet (open_read rt env s p d).
Proof.
  intros w. unfold open_read.
  assert (Hq : quiet w (emit (EvOpenRead (os_path env p)) w))
    by (apply quiet_emit; reflexivity).
  destruct d; case_prim; exact Hq.
Qed.

Lemma quiet_read_text p : steps quiet (read_text rt env p).
Proof. apply quiet_open_read. Qed.

Lemma quiet_read_file s : steps quiet (read_file rt env s).
Proof. apply quiet_open_read. Qed.

Lemma quiet_api_call req : steps quiet (api_call env req).
Proof.
  intros w. unfold api_call.
  assert (Hq : quiet w (emit (EvApiCall req) w)) by (apply quiet_emit; reflexivity).
  destruct (endpoint env req); exact Hq.
Qed.

(** What sends nothing to the endpoint. *)
Lemma no_call_stat_size p : steps no_call (stat_size rt env p).
Proof. intros w. unfold stat_size. destruct (fs w !! _) as [[]|]; reflexivity. Qed.

Lemma no_call_datetime_now : steps no_call (datetime_now env).
Proof. intros w. reflexivity. Qed.

Lemma no_call_mkdir p : steps no_call (mkdir_exist_ok rt env p).
Proof.
  intros w. unfold mkdir_exist_ok, access_error. cbn [emit fs denied].
  case_prim; reflexivity.
Qed.

Lemma no_call_open_read s p d : steps no_call (open_read rt env s p d).
Proof.
  intros w. unfold open_read. destruct d; case_prim; reflexivity.
Qed.

Lemma no_call_read_text p : steps no_call (read_text rt env p).
Proof. apply no_call_open_read. Qed.

Lemma no_call_read_file s : steps no_call (read_file rt env s).
Proof. apply no_call_open_read. Qed.

Lemma no_call_open_write p : steps no_call (open_write rt env p).
Proof.
  intros w. unfold open_write, access_error. cbn [emit fs denied].
  case_prim; reflexivity.
Qed.

Lemma no_call_f_write p s : steps no_call (f_write rt env p s).
Proof.
  intros w. unfold f_write.
  case_prim; reflexivity.
Qed.

End Primitives.

#[export] Hint Resolve steps_ret steps_raise never_exits_ret never_exits_raise
  never_exits_logger never_exits_print never_exits_print_text
  never_exits_path_exists
  never_exits_stat_size never_exits_datetime_now never_exits_mkdir
  never_exits_read_text never_exits_read_file
  never_exits_open_write never_exits_f_write
  never_exits_api_call steps_path_exists
  quiet_stat_size quiet_datetime_now quiet_mkdir quiet_read_text quiet_read_file
  quiet_api_call
  no_call_stat_size no_call_datetime_now no_call_mkdir no_call_read_text
  no_call_read_file no_call_open_write no_call_f_write
  total_ret total_logger total_print total_datetime_now : run.

(** One step of a compositional argument about a program of [M]. *)
Ltac run_step :=
  match goal with
  | |- steps _ (bind _ _) => apply steps_bind; [try typeclasses eauto | | intros]
  | |- steps _ (try_except _ _) =>
      apply steps_try_except; [try typeclasses eauto | | intros]
  | |- steps quiet (logger _ _) =>
      apply steps_logger; [typeclasses eauto | intros; apply quiet_emit; reflexivity]
  | |- steps quiet (print _) =>
      apply steps_print; intros; apply quiet_emit; reflexivity
  | |- steps quiet (print_text _ _) =>
      apply steps_print_text; [typeclasses eauto | intros; apply quiet_emit; reflexivity]
  | |- steps no_call (logger _ _) =>
      apply steps_logger; [typeclasses eauto | intros; apply no_call_emit; reflexivity]
  | |- steps no_call (print _) =>
      apply steps_print; intros; apply no_call_emit; reflexivity
  | |- steps no_call (print_text _ _) =>
      apply steps_print_text;
      [typeclasses eauto | intros; apply no_call_emit; reflexivity]
  | |- never_exits (bind _ _) => apply never_exits_bind; [ | intros]
  | |- never_exits (try_except _ _) => apply never_exits_try_except; [ | intros]
  | |- total (bind _ _) => apply total_bind; [ | intros]
  | |- _ (if ?b then _ else _) => destruct b
  | |- _ (match ?x with _ => _ end) => destruct x
  | |- _ => solve [eauto with run typeclass_instances]
  end.

Ltac run_auto := cbv zeta; repeat run_step.

(** ** What the parts of the script leave alone *)

Section ScriptFrames.
Variable rt : Runtime.
Variable env : Env.

Lemma quiet_init : steps quiet (VideoAnnotator_init rt env).
Proof. unfold VideoAnnotator_init. run_auto. Qed.

Lemma no_call_init : steps no_call (VideoAnnotator_init rt env).
Proof. unfold VideoAnnotator_init. run_auto. Qed.

Lemma never_exits_init : never_exits (VideoAnnotator_init rt env).
Proof. unfold VideoAnnotator_init. run_auto. Qed.

Lemma quiet_apply_overrides args a : steps quiet (apply_overrides rt args a).
Proof. unfold apply_overrides. run_auto. Qed.

Lemma no_call_apply_overrides args a : steps no_call (apply_overrides rt args a).
Proof. unfold apply_overrides. run_auto. Qed.

Lemma total_apply_overrides args a : total (apply_overrides rt args a).
Proof. unfold apply_overrides. run_auto. Qed.

Lemma never_exits_apply_overrides args a : never_exits (apply_overrides rt args a).
Proof. unfold apply_overrides. run_auto. Qed.

Lemma quiet_read_prompt_override args :
  steps quiet (read_prompt_override rt env args).
Proof. unfold read_prompt_override. run_auto. Qed.


Lemma never_exits_read_prompt_override args :
  never_exits (read_prompt_override rt env args).
Proof. unfold read_prompt_override. run_auto. Qed.

Lemma quiet_main_setup args : steps quiet (main_setup rt env args).
Proof.
  unfold main_setup. pose proof quiet_init. pose proof quiet_apply_overrides.
  run_auto.
Qed.

Lemma no_call_main_setup args : steps no_call (main_setup rt env args).
Proof.
  unfold main_setup. pose proof no_call_init. pose proof no_call_apply_overrides.
  run_auto.
Qed.

Lemma never_exits_main_setup args : never_exits (main_setup rt env args).
Proof.
  unfold main_setup. pose proof never_exits_init.
  pose proof never_exits_apply_overrides. run_auto.
Qed.

Lemma quiet_main_prelude args : steps quiet (main_prelude rt env args).
Proof.
  unfold main_prelude. pose proof quiet_main_setup.
  pose proof quiet_read_prompt_override. run_auto.
Qed.


Lemma never_exits_main_prelude args : never_exits (main_prelude rt env args).
Proof.
  unfold main_prelude. pose proof never_exits_main_setup.
  pose proof never_exits_read_prompt_override. run_auto.
Qed.

Lemma quiet_load_prompt self p : steps quiet (load_prompt rt env self p).
Proof. unfold load_prompt. run_auto. Qed.


Lemma never_exits_load_prompt self p : never_exits (load_prompt rt env self p).
Proof. unfold load_prompt. run_auto. Qed.

Lemma quiet_resolve_prompt self p : steps quiet (resolve_prompt rt env self p).
Proof. unfold resolve_prompt. pose proof quiet_load_prompt. run_auto. Qed.


Lemma never_exits_resolve_prompt self p :
  never_exits (resolve_prompt rt env self p).
Proof. unfold resolve_prompt. pose proof never_exits_load_prompt. run_auto. Qed.

(** [annotate_video] writes no file, whatever happens. *)
Lemma quiet_annotate_video self v p : steps quiet (annotate_video rt env self v p).
Proof. unfold annotate_video. pose proof quiet_resolve_prompt. run_auto. Qed.

(** An exception of [annotate_video] is never [SystemExit]. *)
Lemma never_exits_annotate_video self v p :
  never_exits (annotate_video rt env self v p).
Proof. unfold annotate_video. pose proof never_exits_resolve_prompt. run_auto. Qed.

Lemma never_exits_write_all p chunks : never_exits (write_all rt env p chunks).
Proof. induction chunks; cbn [write_all]; run_auto. Qed.

Lemma no_call_write_all p chunks : steps no_call (write_all rt env p chunks).
Proof. induction chunks; cbn [write_all]; run_auto. Qed.

Lemma never_exits_write_json p n t r : never_exits (write_json rt env p n t r).
Proof. unfold write_json. pose proof never_exits_write_all. run_auto. Qed.

Lemma never_exits_write_txt p n t r : never_exits (write_txt rt env p n t r).
Proof. unfold write_txt. pose proof never_exits_write_all. run_auto. Qed.

Lemma no_call_save_results self n r : steps no_call (save_results rt env self n r).
Proof.
  unfold save_results, try_write_json, try_write_txt, write_json, write_txt.
  pose proof no_call_write_all.
  run_auto.
Qed.

End ScriptFrames.

#[export] Hint Resolve never_exits_load_prompt never_exits_resolve_prompt
  never_exits_write_all
  never_exits_init never_exits_apply_overrides : run.

(** ** Overrides given on the command line *)

Section Overrides.
Variable rt : Runtime.
Variable env : Env.




End Overrides.


(** ** Saving the results *)

Section Extends.
Variable rt : Runtime.
Variable env : Env.

Lemma extends_logger lv msg : steps extends (logger lv msg).
Proof. apply steps_logger; [typeclasses eauto | intros; apply extends_emit]. Qed.

Lemma extends_f_write p s : steps extends (f_write rt env p s).
Proof. intros w. unfold f_write. case_prim; exists []; reflexivity. Qed.

Lemma extends_write_all p chunks : steps extends (write_all rt env p chunks).
Proof.
  induction chunks; cbn [write_all].
  - apply steps_ret. typeclasses eauto.
  - apply steps_bind; [typeclasses eauto | apply extends_f_write | intros; assumption].
Qed.

(** Opening a file for writing is recorded, whether it succeeds or not. *)
Lemma open_write_trace p w :
  trace (snd (open_write rt env p w)) = EvOpenWrite (os_path env p) :: trace w.
Proof.
  unfold open_write, access_error. case_prim; reflexivity.
Qed.

(** Whatever happens after [open(p, 'w')], the attempt stays on record. *)
Lemma opened_then (p : pathlib.Path) (k : M unit) (w : World) :
  steps extends k ->
  In (EvOpenWrite (os_path env p))
     (trace (snd (bind (open_write rt env p) (fun _ => k) w))).
Proof.
  intros Hk. unfold bind. pose proof (open_write_trace p w) as Ht.
  destruct (open_write rt env p w) as [[[]|e] w1]; cbn [snd] in *.
  - destruct (Hk w1) as [added ->]. rewrite Ht. apply in_app_iff. right. left.
    reflexivity.
  - rewrite Ht. left. reflexivity.
Qed.

Lemma write_json_attempted p n t r w :
  In (EvOpenWrite (os_path env p)) (trace (snd (write_json rt env p n t r w))).
Proof.
  unfold write_json. apply opened_then.
  apply steps_bind; [typeclasses eauto | apply extends_write_all |
                     intros; apply extends_logger].
Qed.

Lemma write_txt_attempted p n t r w :
  In (EvOpenWrite (os_path env p)) (trace (snd (write_txt rt env p n t r w))).
Proof.
  unfold write_txt. apply opened_then.
  apply steps_bind; [typeclasses eauto | apply extends_write_all |
                     intros; apply extends_logger].
Qed.

(** A [try] around a write: when the write raises, the handler logs the
    error text and nothing else happens. *)
Lemma try_logged (body : M unit) (prefix : pystr) (w : World) :
  never_exits body ->
  let handled := try_except body (fun _ t => logger ERROR (prefix ++ t)) in
  fst (handled w) = Done tt
  /\ extends (snd (body w)) (snd (handled w))
  /\ forall c t, fst (body w) = Raised (Exc c t) ->
       snd (handled w) = emit (EvLog ERROR (prefix ++ t)) (snd (body w)).
Proof.
  intros Hb. cbv zeta. unfold try_except. specialize (Hb w).
  destruct (body w) as [[[]|[c t|code]] w1]; cbn [fst snd] in *.
  - repeat split; [reflexivity | discriminate].
  - rewrite logger_run. cbn [fst snd].
    repeat split; [apply extends_emit | intros ? ? [= <- <-]; reflexivity].
  - contradiction.
Qed.

Lemma total_try_write_json p n t r : total (try_write_json rt env p n t r).
Proof.
  apply total_try_except; [apply never_exits_write_json | intros; apply total_logger].
Qed.

Lemma total_try_write_txt p n t r : total (try_write_txt rt env p n t r).
Proof.
  apply total_try_except; [apply never_exits_write_txt | intros; apply total_logger].
Qed.

(** [save_results], step by step: the clock is read, the start is logged,
    the two guarded writes run one after the other, a heading and the two
    paths are printed, and the two paths are returned.  A path that the
    console cannot encode ends it with [UnicodeEncodeError]. *)
Lemma save_results_run self name result w :
  let ts := stamp_at env w in
  let jp := json_path_at env self name w in
  let tp := txt_path_at env self name w in
  let w2 := snd (try_write_json rt env jp name ts result (save_start name w)) in
  let w3 := snd (try_write_txt rt env tp name ts result w2) in
  let w4 := emit (EvPrint ([10] ++ lit "💾 Результаты сохранены:")) w3 in
  let jline := lit "   • JSON: " ++ pathlib.str jp in
  let tline := lit "   • TXT:  " ++ pathlib.str tp in
  save_results rt env self name result w
  = if Utf8.encodable jline then
      if Utf8.encodable tline then
        (Done (jp, tp), emit (EvPrint tline) (emit (EvPrint jline) w4))
      else
        (Raised (Exc UnicodeEncodeError (error_text rt UnicodeEncodeError tline)),
         emit (EvPrint jline) w4)
    else
      (Raised (Exc UnicodeEncodeError (error_text rt UnicodeEncodeError jline)), w4).
Proof.
  cbv zeta. unfold save_results.
  rewrite (bind_Done _ _ _ _ _ (datetime_now_run env w)). cbv zeta.
  rewrite (bind_Done _ _ _ _ _ (logger_run INFO _ _)).
  fold (stamp_at env w). fold (json_path_at env self name w).
  fold (txt_path_at env self name w). fold (save_start name w).
  destruct (total_try_write_json (json_path_at env self name w) name
              (stamp_at env w) result (save_start name w)) as [[] Hj].
  rewrite (bind_Done _ _ _ _ tt (eq_trans (run_pair _ _) (f_equal2 pair Hj eq_refl))).
  destruct (total_try_write_txt (txt_path_at env self name w) name
              (stamp_at env w) result
              (snd (try_write_json rt env (json_path_at env self name w) name
                      (stamp_at env w) result (save_start name w)))) as [[] Ht].
  rewrite (bind_Done _ _ _ _ tt (eq_trans (run_pair _ _) (f_equal2 pair Ht eq_refl))).
  unfold bind at 1. rewrite print_run. unfold bind, print_text, ret.
  destruct (Utf8.encodable (lit "   • JSON: " ++ _)); [|reflexivity].
  destruct (Utf8.encodable (lit "   • TXT:  " ++ _)); reflexivity.
Qed.

(** A label in front of a path does not change whether it can be shown. *)
Lemma encodable_labelled (label : string) (s : pystr) :
  Utf8.encodable (lit label) = true ->
  Utf8.encodable (lit label ++ s) = Utf8.encodable s.
Proof. intros H. rewrite Utf8Facts.encodable_app, H. reflexivity. Qed.

Lemma json_line_encodable (s : pystr) :
  Utf8.encodable (lit "   • JSON: " ++ s) = Utf8.encodable s.
Proof. apply encodable_labelled. vm_compute. reflexivity. Qed.

Lemma txt_line_encodable (s : pystr) :
  Utf8.encodable (lit "   • TXT:  " ++ s) = Utf8.encodable s.
Proof. apply encodable_labelled. vm_compute. reflexivity. Qed.

(** When the console can show the two paths, [save_results] returns them. *)
Lemma save_results_shown self name result w :
  let ts := stamp_at env w in
  let jp := json_path_at env self name w in
  let tp := txt_path_at env self name w in
  let w2 := snd (try_write_json rt env jp name ts result (save_start name w)) in
  let w3 := snd (try_write_txt rt env tp name ts result w2) in
  Utf8.encodable (pathlib.str jp) = true ->
  Utf8.encodable (pathlib.str tp) = true ->
  save_results rt env self name result w
  = (Done (jp, tp),
     emit (EvPrint (lit "   • TXT:  " ++ pathlib.str tp))
       (emit (EvPrint (lit "   • JSON: " ++ pathlib.str jp))
          (emit (EvPrint ([10] ++ lit "💾 Результаты сохранены:")) w3))).
Proof.
  cbv zeta. intros Hj Ht. rewrite save_results_run. cbv zeta.
  rewrite json_line_encodable, txt_line_encodable, Hj, Ht. reflexivity.
Qed.

(** Whether or not the paths can be shown, what [save_results] leaves
    behind is what the two writes left, with printed lines added. *)
Lemma save_results_left self name result w :
  let ts := stamp_at env w in
  let jp := json_path_at env self name w in
  let tp := txt_path_at env self name w in
  let w2 := snd (try_write_json rt env jp name ts result (save_start name w)) in
  let w3 := snd (try_write_txt rt env tp name ts result w2) in
  let w' := snd (save_results rt env self name result w) in
  fs w' = fs w3 /\ denied w' = denied w3 /\ ticks w' = ticks w3
  /\ exists lines, trace w' = map EvPrint lines ++ trace w3.
Proof.
  cbv zeta. rewrite save_results_run. cbv zeta.
  destruct (Utf8.encodable (lit "   • JSON: " ++ _));
    [destruct (Utf8.encodable (lit "   • TXT:  " ++ _))|]; cbn [snd emit fs denied ticks trace];
    (split; [reflexivity|]); (split; [reflexivity|]); (split; [reflexivity|]).
  - eexists [_; _; _]. reflexivity.
  - eexists [_; _]. reflexivity.
  - eexists [_]. reflexivity.
Qed.

Lemma never_exits_save_results self name result :
  never_exits (save_results rt env self name result).
Proof.
  intros w. rewrite save_results_run. cbv zeta.
  destruct (Utf8.encodable (lit "   • JSON: " ++ _));
    [destruct (Utf8.encodable (lit "   • TXT:  " ++ _))|]; exact I.
Qed.

(** Once [annotate_video] has returned, the [try] of [main] ends normally
    when the console can show the two paths and the preview. *)
Lemma main_body_done args a p w r :
  fst (annotate_video rt env a (a_video args) p w) = Done r ->
  let wa := snd (annotate_video rt env a (a_video args) p w) in
  let vname := pathlib.name (pathlib.parse (a_video args)) in
  Utf8.encodable (pathlib.str (json_path_at env a vname wa)) = true ->
  Utf8.encodable (pathlib.str (txt_path_at env a vname wa)) = true ->
  Utf8.encodable (firstn 500 (r_content r)) = true ->
  exists w', main_body rt env args a p w = (Done tt, w').
Proof.
  intros Hr. cbv zeta. intros Hj Ht Hc. unfold main_body.
  rewrite (bind_Done _ _ _ _ r (eq_trans (run_pair _ _) (f_equal2 pair Hr eq_refl))).
  unfold bind at 1. rewrite (save_results_shown _ _ _ _ Hj Ht). cbv iota.
  unfold bind. rewrite !print_run. rewrite (print_text_ok rt _ _ Hc).
  destruct (500 <? length (r_content r))%nat;
    rewrite ?print_run; unfold ret; rewrite !logger_run; eauto.
Qed.

Lemma run_exit_zero args w0 a p r :
  fst (main_prelude rt env args w0) = Done (a, p) ->
  let w1 := snd (main_prelude rt env args w0) in
  fst (annotate_video rt env a (a_video args) p w1) = Done r ->
  let wa := snd (annotate_video rt env a (a_video args) p w1) in
  let vname := pathlib.name (pathlib.parse (a_video args)) in
  Utf8.encodable (pathlib.str (json_path_at env a vname wa)) = true ->
  Utf8.encodable (pathlib.str (txt_path_at env a vname wa)) = true ->
  Utf8.encodable (firstn 500 (r_content r)) = true ->
  fst (run rt env args w0) = 0.
Proof.
  intros Hp. cbv zeta. intros Hr Hj Ht Hc. unfold run, main.
  rewrite (bind_Done _ _ _ _ (a, p) (eq_trans (run_pair _ _) (f_equal2 pair Hp eq_refl))).
  cbn [fst snd]. unfold try_except.
  destruct (main_body_done args a p _ r Hr Hj Ht Hc) as [w' ->]. reflexivity.
Qed.

(** C4. The two writes of [save_results] are independent.  Started in [w],
    it runs the guarded JSON write and then, whatever that did, the guarded
    text write; each opens its file (the attempt is on record) and a write
    that raises has its error logged at ERROR level and is swallowed.  When
    the console can show the two paths, [save_results] returns them; and a
    run of the driver whose [annotate_video] returned ends with status 0
    when the console can show the two paths and the first 500 characters of
    the annotation. *)
Theorem writes_are_independent
    (self : VideoAnnotator) (name : pystr) (result : AnnotationResult) (w : World)
    (args : Args) (w0 : World) (a : VideoAnnotator) (p : option pystr)
    (r : AnnotationResult) :
  fst (main_prelude rt env args w0) = Done (a, p) ->
  fst (annotate_video rt env a (a_video args) p (snd (main_prelude rt env args w0)))
  = Done r ->
  let ts := stamp_at env w in
  let jp := json_path_at env self name w in
  let tp := txt_path_at env self name w in
  let w1 := save_start name w in
  let w2 := snd (try_write_json rt env jp name ts result w1) in
  let w3 := snd (try_write_txt rt env tp name ts result w2) in
  let w' := snd (save_results rt env self name result w) in
  let wa := snd (annotate_video rt env a (a_video args) p
                   (snd (main_prelude rt env args w0))) in
  let vname := pathlib.name (pathlib.parse (a_video args)) in
  (forall c t, fst (write_json rt env jp name ts result w1) = Raised (Exc c t) ->
     w2 = emit (EvLog ERROR (lit "Ошибка сохранения JSON: " ++ t))
               (snd (write_json rt env jp name ts result w1)))
  /\ (forall c t, fst (write_txt rt env tp name ts result w2) = Raised (Exc c t) ->
        w3 = emit (EvLog ERROR (lit "Ошибка сохранения TXT: " ++ t))
                  (snd (write_txt rt env tp name ts result w2)))
  /\ extends w3 w'
  /\ In (EvOpenWrite (os_path env jp)) (trace w')
  /\ In (EvOpenWrite (os_path env tp)) (trace w')
  /\ (Utf8.encodable (pathlib.str jp) = true ->
      Utf8.encodable (pathlib.str tp) = true ->
      fst (save_results rt env self name result w) = Done (jp, tp))
  /\ (Utf8.encodable (pathlib.str (json_path_at env a vname wa)) = true ->
      Utf8.encodable (pathlib.str (txt_path_at env a vname wa)) = true ->
      Utf8.encodable (firstn 500 (r_content r)) = true ->
      fst (run rt env args w0) = 0).
Proof.
  intros Hp Hr. cbv zeta.
  pose proof (try_logged (write_json rt env (json_path_at env self name w) name
                            (stamp_at env w) result)
                (lit "Ошибка сохранения JSON: ") (save_start name w)
                (never_exits_write_json rt env _ _ _ _)) as (_ & Hje & Hjl).
  fold (try_write_json rt env (json_path_at env self name w) name
          (stamp_at env w) result) in Hje, Hjl.
  set (w2 := snd (try_write_json rt env (json_path_at env self name w) name
                    (stamp_at env w) result (save_start name w))) in *.
  pose proof (try_logged (write_txt rt env (txt_path_at env self name w) name
                            (stamp_at env w) result)
                (lit "Ошибка сохранения TXT: ") w2
                (never_exits_write_txt rt env _ _ _ _)) as (_ & Hte & Htl).
  fold (try_write_txt rt env (txt_path_at env self name w) name
          (stamp_at env w) result) in Hte, Htl.
  set (w3 := snd (try_write_txt rt env (txt_path_at env self name w) name
                    (stamp_at env w) result w2)) in *.
  pose proof (save_results_left self name result w) as Hleft. cbv zeta in Hleft.
  fold w2 in Hleft. fold w3 in Hleft.
  destruct Hleft as (_ & _ & _ & lines & Htrace).
  assert (Hext : extends w3 (snd (save_results rt env self name result w))).
  { eexists. exact Htrace. }
  assert (Hin3 : forall e, In e (trace w3) ->
                           In e (trace (snd (save_results rt env self name result w)))).
  { intros e He. rewrite Htrace. apply in_app_iff. right. exact He. }
  split; [exact Hjl|]. split; [exact Htl|]. split; [exact Hext|].
  split; [|split; [|split]].
  - apply Hin3. destruct Hte as [added ->]. apply in_app_iff. right.
    assert (Hw2 : In (EvOpenWrite (os_path env (json_path_at env self name w)))
                     (trace w2)).
    { destruct Hje as [added2 ->]. apply in_app_iff. right.
      apply write_json_attempted. }
    clear - Hw2. unfold write_txt.
    assert (Hext' : steps extends
              (open_write rt env (txt_path_at env self name w) ;;
               write_all rt env (txt_path_at env self name w)
                 (text_lines rt name (stamp_at env w) result) ;;
               logger INFO (lit "TXT сохранен: "
                            ++ pathlib.str (txt_path_at env self name w)))).
    { apply steps_bind; [typeclasses eauto | | intros].
      - intros w0. exists [EvOpenWrite (os_path env (txt_path_at env self name w))].
        rewrite open_write_trace. reflexivity.
      - apply steps_bind; [typeclasses eauto | apply extends_write_all |
                           intros; apply extends_logger]. }
    destruct (Hext' w2) as [added ->]. apply in_app_iff. right. exact Hw2.
  - apply Hin3. destruct Hte as [added ->]. apply in_app_iff. right.
    apply write_txt_attempted.
  - intros Hj Ht. rewrite (save_results_shown _ _ _ _ Hj Ht). reflexivity.
  - apply (run_exit_zero args w0 a p r Hp Hr).
Qed.

(** C10. When the console can show the two derived paths, [save_results]
    returns them as a pair, whatever became of the two writes; so a returned
    path need not name a file: on the sample run with both paths refused,
    the paths come back and neither file exists. *)
Theorem save_results_returns_paths
    (self : VideoAnnotator) (name : pystr) (result : AnnotationResult) (w : World) :
  Utf8.encodable (pathlib.str (json_path_at env self name w)) = true ->
  Utf8.encodable (pathlib.str (txt_path_at env self name w)) = true ->
  fst (save_results rt env self name result w)
  = Done (json_path_at env self name w, txt_path_at env self name w)
  /\ let env0 := sample_env (Reply 200 [] None) in
     let w0 := sample_world_denying {[sample_json_key; sample_txt_key]} in
     let out := save_results sample_runtime env0 sample_annotator (lit "clip.mp4")
                             (sample_result (lit "text")) w0 in
     exists jp tp, fst out = Done (jp, tp)
       /\ os_path env0 jp = sample_json_key /\ os_path env0 tp = sample_txt_key
       /\ fs (snd out) !! sample_json_key = None
       /\ fs (snd out) !! sample_txt_key = None.
Proof.
  intros Hj Ht. split.
  - rewrite (save_results_shown _ _ _ _ Hj Ht). reflexivity.
  - cbv zeta. eexists _, _. split; [vm_compute; reflexivity|].
    split; [vm_compute; reflexivity|]. split; [vm_compute; reflexivity|].
    split; vm_compute; reflexivity.
Qed.

End Extends.


(** The sample run with the JSON path refused: the text file is written all
    the same and the exit status is 0. *)
Lemma writes_are_independent_witness :
  let env0 := sample_env (Reply 200 [] (Some (lit "text"))) in
  let w0 := sample_world_denying {[sample_json_key]} in
  let out := run sample_runtime env0 sample_args w0 in
  fst out = 0
  /\ fs (snd out) !! sample_json_key = None
  /\ exists data, fs (snd out) !! sample_txt_key = Some (File data).
Proof.
  cbv zeta.
  pose proof (writes_are_independent sample_runtime
                (sample_env (Reply 200 [] (Some (lit "text"))))
                sample_annotator (lit "clip.mp4") (sample_result (lit "text"))
                (sample_world_denying {[sample_json_key]})
                sample_args (sample_world_denying {[sample_json_key]})
                sample_annotator None (sample_result (lit "text"))) as H.
  destruct H as (_ & _ & _ & _ & _ & _ & Hexit);
    [vm_compute; reflexivity | vm_compute; reflexivity |].
  split; [apply Hexit; vm_compute; reflexivity|]. split; [vm_compute; reflexivity|].
  eexists. vm_compute. reflexivity.
Defined.

(** The sample run with an annotation that is one lone surrogate: both
    writes fail and are logged, the preview cannot be printed, and the exit
    status is 1. *)
Lemma failed_writes_can_end_in_status_1 :
  let env0 := sample_env (Reply 200 [] (Some [0xD800])) in
  let out := run sample_runtime env0 sample_args sample_world in
  fst out = 1
  /\ firstn 2 (logged ERROR (snd out))
     = [ lit "Критическая ошибка: error: " ++ [0xD800];
         lit "Ошибка сохранения TXT: error: " ++ [0xD800] ]
  /\ write_opens (snd out) = [sample_txt_key; sample_json_key].
Proof.
  cbv zeta. split; [vm_compute; reflexivity|].
  split; vm_compute; reflexivity.
Qed.

(** The sample paths, both refused. *)
Lemma save_results_returns_paths_witness :
  let env0 := sample_env (Reply 200 [] None) in
  let w0 := sample_world_denying {[sample_json_key; sample_txt_key]} in
  let out := save_results sample_runtime env0 sample_annotator (lit "clip.mp4")
                          (sample_result (lit "text")) w0 in
  exists jp tp, fst out = Done (jp, tp)
    /\ fs (snd out) !! os_path env0 jp = None
    /\ fs (snd out) !! os_path env0 tp = None.
Proof.
  cbv zeta.
  destruct (save_results_returns_paths sample_runtime (sample_env (Reply 200 [] None))
              sample_annotator (lit "clip.mp4") (sample_result (lit "text"))
              (sample_world_denying {[sample_json_key; sample_txt_key]}))
    as [Hret _]; [vm_compute; reflexivity | vm_compute; reflexivity |].
  eexists _, _. split; [exact Hret|].
  split; vm_compute; reflexivity.
Defined.

(** A video name that is one lone surrogate followed by [.mp4]: the console
    cannot show the derived paths, and [save_results] raises instead of
    returning them. *)
Lemma save_results_can_raise :
  let env0 := sample_env (Reply 200 [] None) in
  let out := save_results sample_runtime env0 sample_annotator
                          ([0xD800] ++ lit ".mp4") (sample_result (lit "text"))
                          sample_world in
  fst out
  = Raised (Exc UnicodeEncodeError
                (lit "error:    • JSON: /home/user/backend/outputs/" ++ [0xD800]
                 ++ lit "_20240101_120000.json")).
Proof. vm_compute. reflexivity. Qed.

(** ** Symbolic runs *)

Lemma bind_ret_run {A B} (a : A) (k : A -> M B) (w : World) :
  bind (ret a) k w = k a w.
Proof. reflexivity. Qed.

Lemma bind_raise_run {A B} (e : exn) (k : A -> M B) (w : World) :
  bind (raise e) k w = (Raised e, w).
Proof. reflexivity. Qed.

Lemma bind_logger_run {B} lv msg (k : unit -> M B) (w : World) :
  bind (logger lv msg) k w
  = k tt (match lv with DEBUG => w | _ => emit (EvLog lv msg) w end).
Proof. unfold bind. rewrite logger_run. reflexivity. Qed.

Lemma bind_print_run {B} msg (k : unit -> M B) (w : World) :
  bind (print msg) k w = k tt (emit (EvPrint msg) w).
Proof. reflexivity. Qed.

Lemma bind_path_exists_found {B} rt env p (k : bool -> M B) (w : World) :
  is_Some (fs w !! os_path env p) ->
  bind (path_exists rt env p) k w = k true w.
Proof. intros H. unfold bind. rewrite (path_exists_found rt env p w H). reflexivity. Qed.

Lemma bind_print_text_ok {B} rt msg (k : unit -> M B) (w : World) :
  Utf8.encodable msg = true ->
  bind (print_text rt msg) k w = k tt (emit (EvPrint msg) w).
Proof. intros H. unfold bind. rewrite (print_text_ok rt msg w H). reflexivity. Qed.

Lemma bind_print_text_fails {B} rt msg (k : unit -> M B) (w : World) :
  Utf8.encodable msg = false ->
  bind (print_text rt msg) k w
  = (Raised (Exc UnicodeEncodeError (error_text rt UnicodeEncodeError msg)), w).
Proof. intros H. unfold bind. rewrite (print_text_fails rt msg w H). reflexivity. Qed.

Lemma bind_datetime_now_run {B} env (k : datetime -> M B) (w : World) :
  bind (datetime_now env) k w
  = k (clock env (ticks w)) (mkWorld (fs w) (denied w) (S (ticks w)) (trace w)).
Proof. reflexivity. Qed.

Lemma raise_run {A} (e : exn) (w : World) : @raise A e w = (Raised e, w).
Proof. reflexivity. Qed.

Lemma ret_run {A} (a : A) (w : World) : ret a w = (Done a, w).
Proof. reflexivity. Qed.

Ltac run_rewrite :=
  repeat first
    [ rewrite bind_logger_run | rewrite bind_print_run | rewrite bind_ret_run
    | rewrite bind_raise_run
    | rewrite bind_datetime_now_run | rewrite logger_run | rewrite print_run
    | rewrite raise_run | rewrite ret_run ];
  cbv iota.

(** Evaluation of the deterministic steps of a run. *)
Ltac run_cbv :=
  cbv beta iota zeta
      delta [bind ret raise logger print print_text do_emit path_exists
             datetime_now try_except negb];
  cbn [emit fs denied ticks trace fst snd].

Lemma always_raises_raise {A} c t : always_raises (@raise A (Exc c t)).
Proof. intros w. eauto. Qed.

(** If every value [m] can return sends [k] into an exception, and [m]
    itself never exits, then [m ;; k] always raises. *)
Lemma always_raises_bind {A B} (P : A -> Prop) (m : M A) (k : A -> M B) :
  never_exits m ->
  (forall w a, fst (m w) = Done a -> P a) ->
  (forall a, P a -> always_raises (k a)) ->
  always_raises (bind m k).
Proof.
  intros Hm HP Hk w. unfold bind. specialize (Hm w). specialize (HP w).
  destruct (m w) as [[a|[c t|code]] w1]; cbn [fst] in *.
  - apply Hk, HP. reflexivity.
  - eauto.
  - contradiction.
Qed.

Lemma always_raises_seq {A B} (m : M A) (k : A -> M B) :
  never_exits m -> (forall a, always_raises (k a)) -> always_raises (bind m k).
Proof.
  intros Hm Hk. apply (always_raises_bind (fun _ => True)); auto.
Qed.

(** A [try] whose body always raises and whose handler re-raises. *)
Lemma always_raises_try_except {A} (body : M A) (handler : exc_class -> pystr -> M A) :
  always_raises body -> (forall c t, always_raises (handler c t)) ->
  always_raises (try_except body handler).
Proof.
  intros Hb Hh w. unfold try_except. destruct (Hb w) as (c & t & Hbw).
  destruct (body w) as [r w1]; cbn [fst] in Hbw; subst r. apply Hh.
Qed.

Section Driver.
Variable rt : Runtime.
Variable env : Env.

(** How [run] ends when [main_prelude] raises. *)
Lemma run_prelude_raises args w c t :
  fst (main_prelude rt env args w) = Raised (Exc c t) ->
  run rt env args w
  = (1, emit (EvTraceback (Exc c t)) (snd (main_prelude rt env args w))).
Proof.
  intros H. unfold run, main.
  rewrite (bind_Raised _ _ _ _ _ (eq_trans (run_pair _ _) (f_equal2 pair H eq_refl))).
  reflexivity.
Qed.

(** How [run] ends when the [try] of [main] catches an exception: the
    handler logs it, prints it and exits with status 1; when the console
    cannot show its text, the [print] of the handler raises in its turn and
    the interpreter ends the run, with status 1 as well. *)
Lemma run_body_raises args w a p c t :
  fst (main_prelude rt env args w) = Done (a, p) ->
  fst (main_body rt env args a p (snd (main_prelude rt env args w))) = Raised (Exc c t) ->
  let logged_it :=
    emit (EvLog ERROR (lit "Критическая ошибка: " ++ t))
         (snd (main_body rt env args a p (snd (main_prelude rt env args w)))) in
  let line := [10] ++ lit "❌ Ошибка: " ++ t in
  run rt env args w
  = (1, if Utf8.encodable line then emit (EvPrint line) logged_it
        else emit (EvTraceback
                     (Exc UnicodeEncodeError (error_text rt UnicodeEncodeError line)))
                  logged_it).
Proof.
  intros Hp Hb. cbv zeta. unfold run, main.
  rewrite (bind_Done _ _ _ _ _ (eq_trans (run_pair _ _) (f_equal2 pair Hp eq_refl))).
  cbn [fst snd]. unfold try_except.
  rewrite (run_pair (main_body _ _ _ _ _) _), Hb. run_rewrite.
  unfold bind, print_text.
  destruct (Utf8.encodable ([10] ++ lit "❌ Ошибка: " ++ t)); reflexivity.
Qed.

Lemma error_line_encodable (t : pystr) :
  Utf8.encodable ([10] ++ lit "❌ Ошибка: " ++ t) = Utf8.encodable t.
Proof.
  rewrite !Utf8Facts.encodable_app.
  replace (Utf8.encodable [10]) with true by reflexivity.
  replace (Utf8.encodable (lit "❌ Ошибка: ")) with true by (vm_compute; reflexivity).
  reflexivity.
Qed.

(** The same, when the console can show the text of the exception. *)
Lemma run_body_raises_shown args w a p c t :
  fst (main_prelude rt env args w) = Done (a, p) ->
  fst (main_body rt env args a p (snd (main_prelude rt env args w))) = Raised (Exc c t) ->
  Utf8.encodable t = true ->
  run rt env args w
  = (1, emit (EvPrint ([10] ++ lit "❌ Ошибка: " ++ t))
          (emit (EvLog ERROR (lit "Критическая ошибка: " ++ t))
             (snd (main_body rt env args a p (snd (main_prelude rt env args w)))))).
Proof.
  intros Hp Hb Ht. rewrite (run_body_raises args w a p c t Hp Hb). cbv zeta.
  rewrite error_line_encodable, Ht. reflexivity.
Qed.

(** What the handler of [main] adds is a log record and one more event that
    is neither a call nor the opening of a file. *)
Lemma run_body_raises_after args w a p c t :
  fst (main_prelude rt env args w) = Done (a, p) ->
  fst (main_body rt env args a p (snd (main_prelude rt env args w))) = Raised (Exc c t) ->
  fst (run rt env args w) = 1
  /\ exists e,
       snd (run rt env args w)
       = emit e (emit (EvLog ERROR (lit "Критическая ошибка: " ++ t))
                   (snd (main_body rt env args a p (snd (main_prelude rt env args w)))))
       /\ is_write_open e = None /\ is_api_call e = None
       /\ is_read_open e = None /\ (forall lv, is_log lv e = None).
Proof.
  intros Hp Hb. rewrite (run_body_raises args w a p c t Hp Hb). cbv zeta.
  split; [reflexivity|]. cbn [snd].
  destruct (Utf8.encodable _); eexists; (split; [reflexivity|]);
    (split; [reflexivity|]); (split; [reflexivity|]); split; reflexivity.
Qed.

Lemma main_body_raises args a p w c t :
  fst (annotate_video rt env a (a_video args) p w) = Raised (Exc c t) ->
  main_body rt env args a p w
  = (Raised (Exc c t), snd (annotate_video rt env a (a_video args) p w)).
Proof.
  intros H. unfold main_body.
  rewrite (bind_Raised _ _ _ _ _ (eq_trans (run_pair _ _) (f_equal2 pair H eq_refl))).
  reflexivity.
Qed.

(** When [annotate_video] cannot return, the run ends with status 1, writes
    nothing, and calls the endpoint only if [annotate_video] does. *)
Lemma run_fails args w :
  (forall a p w1, exists c t,
      fst (annotate_video rt env a (a_video args) p w1) = Raised (Exc c t)) ->
  fst (run rt env args w) = 1 /\ quiet w (snd (run rt env args w)).
Proof.
  intros Hraise.
  pose proof (never_exits_main_prelude rt env args w) as Hne.
  pose proof (quiet_main_prelude rt env args w) as Hq.
  destruct (fst (main_prelude rt env args w)) as [[a p]|[c t|code]] eqn:Hp;
    [| |contradiction].
  - destruct (Hraise a p (snd (main_prelude rt env args w))) as (c & t & Ha).
    pose proof (main_body_raises args a p _ c t Ha) as Hb.
    destruct (run_body_raises_after args w a p c t Hp (f_equal fst Hb))
      as (Hexit & e & -> & He & _).
    rewrite Hb. cbn [fst snd]. split; [exact Hexit|].
    repeat (apply quiet_emit_after; [first [exact He | reflexivity]|]).
    etransitivity; [exact Hq | apply (quiet_annotate_video rt env)].
  - rewrite (run_prelude_raises args w c t Hp). cbn [fst snd].
    split; [reflexivity|].
    etransitivity; [exact Hq | apply quiet_emit; reflexivity].
Qed.

(** *** A video that is not there *)





End Driver.



(** ** The endpoint answers with an error status *)

Section ApiError.
Variable rt : Runtime.
Variable env : Env.

Lemma bind_api_call_reply {B} req (k : api_reply -> M B) w code msg choice :
  endpoint env req = Reply code msg choice ->
  bind (api_call env req) k w = k (Reply code msg choice) (emit (EvApiCall req) w).
Proof. intros H. unfold bind, api_call. rewrite H. reflexivity. Qed.

Lemma bind_stat_size_found {B} p (k : Z -> M B) w n :
  fs w !! os_path env p = Some n ->
  bind (stat_size rt env p) k w
  = k (match n with File data => Z.of_nat (length data) | Dir => 4096 end) w.
Proof. intros H. unfold bind, stat_size. rewrite H. destruct n; reflexivity. Qed.

Variables (code : Z) (msg : pystr) (choice : option pystr).
Hypothesis endpoint_reply : forall req, endpoint env req = Reply code msg choice.
Hypothesis not_success : code <> 200.

Lemma annotate_video_always_raises self v p :
  always_raises (annotate_video rt env self v p).
Proof.
  unfold annotate_video. cbv zeta.
  repeat match goal with
         | |- always_raises (raise (Exc _ _)) => apply always_raises_raise
         | |- always_raises (bind (api_call _ _) _) => fail 1
         | |- always_raises (bind _ _) =>
             apply always_raises_seq; [run_auto | intros]
         | |- always_raises (if ?b then _ else _) => destruct b
         end.
  apply always_raises_try_except.
  - apply always_raises_seq; [run_auto | intros _].
    apply (always_raises_bind (fun a => a = Reply code msg choice));
      [run_auto | |].
    + intros w r. unfold api_call. rewrite endpoint_reply. cbn [fst].
      intros [= <-]. reflexivity.
    + intros r ->.
      apply always_raises_seq; [run_auto | intros].
      apply always_raises_seq; [run_auto | intros].
      destruct (Z.eqb_spec code 200) as [Heq|_]; [contradiction|]. cbn [negb].
      apply always_raises_seq; [run_auto | intros].
      apply always_raises_raise.
  - intros c t.
    apply always_raises_seq; [run_auto | intros].
    apply always_raises_seq; [run_auto | intros].
    apply always_raises_raise.
Qed.

End ApiError.

(** ** Prompts *)

Section Prompts.
Variable rt : Runtime.
Variable env : Env.

(** A name that is short enough, in a directory that is there, is simply
    missing. *)
Lemma lookup_miss_no_entry (shown : pystr) (p : pathlib.Path)
                           (files : gmap pystr node) :
  existsb (Z.eqb 0) shown = false -> fs_encodable shown = true ->
  files !! os_path env (pathlib.parent p) = Some Dir ->
  too_long (pathlib.name p) = false ->
  lookup_miss env shown p files = NoEntry.
Proof.
  intros H0 He Hd Hn. unfold lookup_miss. rewrite H0, He. cbn [negb].
  destruct (length (pathlib.parts p)); cbn [walk]; [reflexivity|].
  rewrite Hd, Hn. reflexivity.
Qed.

(** The walk ends with one of the three answers of the system call. *)
Lemma walk_cases (fuel : nat) (p : pathlib.Path) (files : gmap pystr node) :
  walk env fuel p files = NoEntry \/ walk env fuel p files = NotDirectory
  \/ walk env fuel p files = NameTooLong.
Proof.
  revert p. induction fuel as [|f IH]; intros p; cbn [walk]; [auto|].
  destruct (files !! os_path env (pathlib.parent p)) as [[|d]|]; auto.
  - destruct (too_long _); auto.
  - destruct (pathlib.parts (pathlib.parent p)); [destruct (too_long _); auto|].
    apply IH.
Qed.



(** *** The prompt override of the driver *)

(** [open] on a path that is not there raises what the operating system
    answers, naming the path as it was typed. *)
Lemma read_prompt_missing args p w :
  a_prompt args = Some p -> str_truthy p = true ->
  fs w !! os_path env (pathlib.parse p) = None ->
  read_prompt_override rt env args w
  = (Raised (miss_error rt p (lookup_miss env p (pathlib.parse p) (fs w))),
     emit (EvOpenRead (os_path env (pathlib.parse p)))
       (emit (EvLog INFO (lit "Загрузка кастомного промпта из " ++ p)) w)).
Proof.
  intros Hp Ht Hmiss. unfold read_prompt_override. rewrite Hp, Ht.
  run_cbv. unfold read_file, open_read. run_cbv. rewrite Hmiss. reflexivity.
Qed.

(** C7. When the file given with [--prompt] does not exist at the time the
    driver opens it, the run aborts: the exit status is 1, the interpreter
    prints a traceback (the console message), nothing is sent to the endpoint
    and no file is written.  When the annotator was set up, the exception
    reported is the one raised by opening that file, and it names the path
    as it was typed: [FileNotFoundError] when the directory of the file is
    there and the name is one the operating system accepts;
    [FileNotFoundError] or [NotADirectoryError] (a regular file on the way)
    for any path whose components are not too long.  (An empty string is no
    override for the driver.) *)
Theorem missing_prompt_aborts (args : Args) (p : pystr) (w : World) :
  a_prompt args = Some p ->
  str_truthy p = true ->
  fs (snd (main_setup rt env args w)) !! os_path env (pathlib.parse p) = None ->
  let out := run rt env args w in
  let w1 := snd (main_setup rt env args w) in
  let plain_name := existsb (Z.eqb 0) p = false /\ fs_encodable p = true in
  fst out = 1
  /\ (exists e rest, trace (snd out) = EvTraceback e :: rest)
  /\ (forall a, fst (main_setup rt env args w) = Done a ->
        exists e,
          trace (snd out)
          = EvTraceback e
            :: EvOpenRead (os_path env (pathlib.parse p))
            :: EvLog INFO (lit "Загрузка кастомного промпта из " ++ p)
            :: trace w1
          /\ (plain_name ->
              fs w1 !! os_path env (pathlib.parent (pathlib.parse p)) = Some Dir ->
              too_long (pathlib.name (pathlib.parse p)) = false ->
              e = Exc FileNotFoundError (error_text rt FileNotFoundError p))
          /\ (plain_name -> short_parts (pathlib.parse p) ->
              e = Exc FileNotFoundError (error_text rt FileNotFoundError p)
              \/ e = Exc NotADirectoryError (error_text rt NotADirectoryError p)))
  /\ quiet w (snd out) /\ no_call w (snd out).
Proof.
  intros Hp Ht Hmiss. cbv zeta.
  pose proof (never_exits_main_setup rt env args w) as Hne.
  pose proof (quiet_main_setup rt env args w) as Hq.
  pose proof (no_call_main_setup rt env args w) as Hn.
  set (m := lookup_miss env p (pathlib.parse p) (fs (snd (main_setup rt env args w)))).
  assert (Hpre : exists e w1,
             main_prelude rt env args w = (Raised e, w1)
             /\ (exists c t, e = Exc c t)
             /\ quiet w w1 /\ no_call w w1
             /\ (forall a, fst (main_setup rt env args w) = Done a ->
                   e = miss_error rt p m
                   /\ trace w1
                      = EvOpenRead (os_path env (pathlib.parse p))
                        :: EvLog INFO (lit "Загрузка кастомного промпта из " ++ p)
                        :: trace (snd (main_setup rt env args w)))).
  { unfold main_prelude. subst m.
    destruct (main_setup rt env args w) as [[a|[c t|code]] w1] eqn:Hs;
      cbn [fst snd] in *; [| |contradiction].
    - rewrite (bind_Done _ _ _ _ _ Hs).
      rewrite (bind_Raised _ _ _ _ _ (read_prompt_missing args p w1 Hp Ht Hmiss)).
      eexists _, _. split; [reflexivity|]. split; [|split; [|split]].
      + destruct (lookup_miss _ _ _ _); cbn [miss_error]; eauto.
      + repeat (apply quiet_emit_after; [reflexivity|]). exact Hq.
      + repeat (apply no_call_emit_after; [reflexivity|]). exact Hn.
      + intros a' _. split; reflexivity.
    - rewrite (bind_Raised _ _ _ _ _ Hs).
      eexists _, _. split; [reflexivity|]. split; [eauto|]. split; [exact Hq|].
      split; [exact Hn|]. intros a' [=]. }
  destruct Hpre as (e & w1 & Hrun & (c & t & ->) & Hq1 & Hn1 & Hok).
  rewrite (run_prelude_raises rt env args w c t (f_equal fst Hrun)).
  rewrite Hrun. cbn [fst snd emit trace].
  split; [reflexivity|]. split; [eauto|]. split.
  - intros a Ha. destruct (Hok a Ha) as (He & ->). rewrite He.
    eexists. split; [reflexivity|]. split.
    + intros [H0 Henc] Hdir Hname. subst m.
      rewrite (lookup_miss_no_entry p _ _ H0 Henc Hdir Hname). reflexivity.
    + intros [H0 Henc] Hshort.
      pose proof (lookup_miss_short env p (pathlib.parse p)
                    (fs (snd (main_setup rt env args w))) Hshort) as Hnl.
      subst m. unfold lookup_miss in *. rewrite H0, Henc in *.
      cbn [negb] in *.
      destruct (walk_cases (length (pathlib.parts (pathlib.parse p)))
                  (pathlib.parse p) (fs (snd (main_setup rt env args w))))
        as [Hw|[Hw|Hw]]; rewrite Hw in *; cbn [miss_error]; auto.
      contradiction.
  - split.
    + apply quiet_emit_after; [reflexivity | exact Hq1].
    + apply no_call_emit_after; [reflexivity | exact Hn1].
Qed.

End Prompts.

(** The sample run with [--prompt ./missing.txt]: the traceback names the
    path as it was typed. *)
Lemma missing_prompt_aborts_witness :
  let env0 := sample_env (Reply 200 [] (Some (lit "text"))) in
  let args := mkArgs (lit "clip.mp4") (Some (lit "./missing.txt")) None None None in
  let out := run sample_runtime env0 args sample_world in
  fst out = 1 /\ api_calls (snd out) = [] /\ write_opens (snd out) = []
  /\ exists rest,
       trace (snd out)
       = EvTraceback (Exc FileNotFoundError (lit "error: ./missing.txt")) :: rest.
Proof.
  cbv zeta.
  pose proof (missing_prompt_aborts sample_runtime
                (sample_env (Reply 200 [] (Some (lit "text"))))
                (mkArgs (lit "clip.mp4") (Some (lit "./missing.txt")) None None None)
                (lit "./missing.txt") sample_world eq_refl) as H.
  destruct H as (Hexit & _ & Htb & [_ Hwrites] & Hcalls);
    [vm_compute; reflexivity | vm_compute; reflexivity |].
  split; [exact Hexit|]. split; [rewrite Hcalls; reflexivity|].
  split; [rewrite Hwrites; reflexivity|].
  destruct (Htb sample_annotator) as (e & Htrace & Hnf & _);
    [vm_compute; reflexivity|].
  rewrite Htrace, Hnf; [eexists; reflexivity| | |].
  - split; vm_compute; reflexivity.
  - vm_compute. reflexivity.
  - vm_compute. reflexivity.
Defined.



(** ** The request *)


(** *** File URIs *)






Section Request.
Variable rt : Runtime.
Variable env : Env.

(** What [resolve_prompt] returns depends on the files only. *)
Lemma resolve_prompt_files self p (w1 w2 : World) :
  fs w1 = fs w2 -> denied w1 = denied w2 ->
  fst (resolve_prompt rt env self p w1) = fst (resolve_prompt rt env self p w2).
Proof.
  intros Hfs Hden. unfold resolve_prompt. destruct p; [reflexivity|].
  unfold load_prompt. run_cbv. rewrite Hfs.
  destruct (fs w2 !! _) as [n|] eqn:Hn.
  - run_cbv. unfold read_text, open_read. run_cbv. rewrite Hfs, Hden, Hn.
    destruct n as [|d]; (destruct (bool_decide _); try reflexivity).
    destruct (Utf8.decode d); reflexivity.
  - destruct (lookup_miss _ _ _ _); reflexivity.
Qed.


End Request.



(** ** Text that is written as it is and read back as it is *)

Module PlainFacts.
Import Utf8 json.

Lemma plain_app (a b : pystr) : plain (a ++ b) = plain a && plain b.
Proof. apply forallb_app. Qed.

Lemma plain_encodable (s : pystr) : plain s = true -> encodable s = true.
Proof.
  unfold plain, encodable. induction s as [|c r IH]; cbn [forallb]; [reflexivity|].
  unfold plain_cp at 1. rewrite !andb_true_iff. intros [[Hc _] Hr]. auto.
Qed.

Lemma plain_no_cr (s : pystr) : plain s = true -> Forall (fun c => c <> 13) s.
Proof.
  unfold plain. induction s as [|c r IH]; cbn [forallb]; [constructor|].
  unfold plain_cp at 1. rewrite !andb_true_iff, negb_true_iff, Z.eqb_neq.
  intros [[_ Hc] Hr]. constructor; auto.
Qed.

Lemma plain_concat (chunks : list pystr) :
  Forall (fun c => plain c = true) chunks -> plain (concat chunks) = true.
Proof.
  induction 1 as [|c r Hc Hr IH]; cbn [concat]; [reflexivity|].
  rewrite plain_app, Hc, IH. reflexivity.
Qed.

(** Printable ASCII is plain. *)
Lemma plain_range (s : pystr) :
  Forall (fun x => 32 <= x <= 126) s -> plain s = true.
Proof.
  unfold plain. induction 1 as [|c r Hc Hr IH]; cbn [forallb]; [reflexivity|].
  rewrite IH, andb_true_r. unfold plain_cp, encodable_cp, is_surrogate.
  repeat (apply andb_true_intro; split);
    rewrite ?negb_true_iff, ?andb_false_iff, ?Z.leb_le, ?Z.ltb_lt, ?Z.eqb_neq,
      ?Z.leb_gt, ?Z.ltb_ge; lia.
Qed.

Lemma number_token_plain (t : pystr) : number_token t = true -> plain t = true.
Proof.
  intros H. apply plain_range.
  eapply Forall_impl; [apply NumberFacts.number_token_chars; exact H|].
  intros x Hx. cbv beta in Hx. lia.
Qed.

(** Escaping keeps what can be encoded and leaves no carriage return. *)
Lemma escape_cp_plain (c : Z) : encodable_cp c = true -> plain (escape_cp c) = true.
Proof.
  intros Hc.
  destruct (Z_lt_le_dec c 32) as [Hsmall|Hbig].
  - assert (Hpos : 0 <= c).
    { unfold encodable_cp in Hc. rewrite !andb_true_iff, Z.leb_le in Hc. lia. }
    pose proof (JsonFacts.small_cases c ltac:(lia)) as Hin. cbn [In] in Hin.
    repeat (destruct Hin as [<-|Hin]; [vm_compute; reflexivity|]).
    destruct Hin.
  - unfold escape_cp.
    destruct (Z.eqb_spec c quote) as [->|Hq]; [vm_compute; reflexivity|].
    destruct (Z.eqb_spec c backslash) as [->|Hb]; [vm_compute; reflexivity|].
    repeat match goal with
           | |- context [if ?a =? ?b then _ else _] =>
               destruct (Z.eqb_spec a b); [lia|]
           end.
    replace ((0 <=? c) && (c <? 32)) with false
      by (symmetry; apply andb_false_iff; right; apply Z.ltb_ge; lia).
    cbn [plain forallb]. unfold plain_cp. rewrite Hc, andb_true_r. cbn [andb].
    apply negb_true_iff, Z.eqb_neq. lia.
Qed.

Lemma encode_basestring_plain (s : pystr) :
  encodable s = true -> plain (encode_basestring s) = true.
Proof.
  intros Hs. unfold encode_basestring.
  change (quote :: escape s ++ [quote]) with ([quote] ++ escape s ++ [quote]).
  rewrite !plain_app.
  replace (plain [quote]) with true by reflexivity. rewrite andb_true_r.
  cbn [andb]. unfold escape, encodable in *.
  induction s as [|c r IH]; cbn [map concat forallb] in *; [reflexivity|].
  apply andb_true_iff in Hs as [Hc Hr].
  rewrite plain_app, (escape_cp_plain c Hc), (IH Hr). reflexivity.
Qed.

Section Chunks.
Variable float_repr : float -> pystr.
Hypothesis repr_number :
  forall x, finite x = true -> number_token (float_repr x) = true.

Lemma floatstr_plain (x : float) : plain (floatstr float_repr x) = true.
Proof.
  destruct (NumberFacts.floatstr_cases float_repr repr_number x)
    as [H|[H|[H|H]]]; try (rewrite H; vm_compute; reflexivity).
  apply number_token_plain. exact H.
Qed.

Lemma encode_value_plain (v : pyvalue) :
  match v with PStr s => encodable s = true | PFloat _ => True end ->
  plain (encode_value float_repr v) = true.
Proof.
  destruct v as [s|x]; cbn [encode_value].
  - apply encode_basestring_plain.
  - intros _. apply floatstr_plain.
Qed.

Lemma iterencode_items_plain (first : bool) (items : list (pystr * pyvalue)) :
  Forall plain_item items ->
  Forall (fun c => plain c = true) (iterencode_items float_repr first items).
Proof.
  intros H. revert first.
  induction H as [|[k v] rest [Hk Hv] Hrest IH]; intros first;
    cbn [iterencode_items]; [constructor|].
  apply Forall_app. split.
  - destruct first; [constructor|].
    constructor; [vm_compute; reflexivity | constructor].
  - cbn [app]. constructor; [apply encode_basestring_plain; exact Hk|].
    constructor; [vm_compute; reflexivity|].
    constructor; [apply encode_value_plain; exact Hv | apply IH].
Qed.

(** Every chunk [json.dump] writes for a dict of encodable strings and
    floats is plain. *)
Lemma iterencode_dict_plain (items : list (pystr * pyvalue)) :
  Forall plain_item items ->
  Forall (fun c => plain c = true) (iterencode_dict float_repr items).
Proof.
  intros H. unfold iterencode_dict. destruct items as [|kv rest].
  - constructor; [vm_compute; reflexivity | constructor].
  - cbn [app]. constructor; [vm_compute; reflexivity|].
    constructor; [vm_compute; reflexivity|].
    apply Forall_app. split; [apply iterencode_items_plain; exact H|].
    constructor; [vm_compute; reflexivity|].
    constructor; [vm_compute; reflexivity | constructor].
Qed.

End Chunks.

End PlainFacts.

(** ** Files written by [save_results] *)

Instance touches_only_preorder (key : pystr) : PreOrder (touches_only key).
Proof.
  split.
  - intros w. split; [reflexivity | intros; reflexivity].
  - intros a b c [Hd1 Hf1] [Hd2 Hf2]. split; [congruence|].
    intros k Hk. rewrite (Hf2 k Hk). apply Hf1. exact Hk.
Qed.

Lemma touches_only_emit (key : pystr) (e : event) (w : World) :
  touches_only key w (emit e w).
Proof. split; [reflexivity | intros; reflexivity]. Qed.

Lemma try_except_done {A} (body : M A) handler (w : World) (a : A) :
  fst (body w) = Done a -> try_except body handler w = body w.
Proof.
  intros H. unfold try_except. destruct (body w) as [r w1]; cbn [fst] in H.
  subst r. reflexivity.
Qed.

Section Writes.
Variable rt : Runtime.
Variable env : Env.

Lemma touches_open_write p : steps (touches_only (os_path env p)) (open_write rt env p).
Proof.
  intros w. unfold open_write, access_error. case_prim;
    try (split; [reflexivity | intros; reflexivity]);
    (split; [reflexivity|]); intros k Hk; unfold with_fs; cbn [fs emit];
    rewrite lookup_insert_ne by congruence; reflexivity.
Qed.

Lemma touches_f_write p s : steps (touches_only (os_path env p)) (f_write rt env p s).
Proof.
  intros w. unfold f_write. case_prim;
    try (split; [reflexivity | intros; reflexivity]);
    (split; [reflexivity|]); intros k Hk; unfold with_fs; cbn [fs];
    rewrite lookup_insert_ne by congruence; reflexivity.
Qed.

Lemma touches_write_all p chunks :
  steps (touches_only (os_path env p)) (write_all rt env p chunks).
Proof.
  induction chunks; cbn [write_all].
  - apply steps_ret. typeclasses eauto.
  - apply steps_bind; [typeclasses eauto | apply touches_f_write | intros; assumption].
Qed.

Lemma touches_logger key lv msg : steps (touches_only key) (logger lv msg).
Proof. apply steps_logger; [typeclasses eauto | intros; apply touches_only_emit]. Qed.

Lemma touches_try_write_json p n t r :
  steps (touches_only (os_path env p)) (try_write_json rt env p n t r).
Proof.
  unfold try_write_json, write_json.
  apply steps_try_except; [typeclasses eauto | | intros; apply touches_logger].
  apply steps_bind; [typeclasses eauto | apply touches_open_write | intros].
  apply steps_bind; [typeclasses eauto | apply touches_write_all | intros].
  apply touches_logger.
Qed.

Lemma touches_try_write_txt p n t r :
  steps (touches_only (os_path env p)) (try_write_txt rt env p n t r).
Proof.
  unfold try_write_txt, write_txt.
  apply steps_try_except; [typeclasses eauto | | intros; apply touches_logger].
  apply steps_bind; [typeclasses eauto | apply touches_open_write | intros].
  apply steps_bind; [typeclasses eauto | apply touches_write_all | intros].
  apply touches_logger.
Qed.

(** Writing encodable chunks appends their encoding to the file. *)
Lemma write_all_ok p chunks :
  Forall (fun c => Utf8.encodable c = true) chunks ->
  forall w data,
    fs w !! os_path env p = Some (File data) ->
    exists bs, Utf8.encode (concat chunks) = Some bs
      /\ fst (write_all rt env p chunks w) = Done tt
      /\ fs (snd (write_all rt env p chunks w)) !! os_path env p
         = Some (File (data ++ bs)).
Proof.
  induction 1 as [|c rest Hc Hrest IH]; intros w data Hfile; cbn [write_all concat].
  - exists []. rewrite app_nil_r. auto.
  - apply Utf8Facts.encode_is_Some in Hc as [b Hb].
    assert (Hstep : f_write rt env p c w
                    = (Done tt, with_fs (<[os_path env p := File (data ++ b)]> (fs w)) w)).
    { unfold f_write. rewrite Hb, Hfile. reflexivity. }
    rewrite (bind_Done _ _ _ _ _ Hstep).
    destruct (IH (with_fs (<[os_path env p := File (data ++ b)]> (fs w)) w) (data ++ b))
      as (bs & Hbs & Hdone & Hlook).
    { unfold with_fs. cbn [fs]. apply lookup_insert_eq. }
    exists (b ++ bs). rewrite Utf8Facts.encode_app, Hb, Hbs.
    rewrite app_assoc. auto.
Qed.

(** Creating a file and writing encodable chunks to it leaves the file
    holding exactly their encoding. *)
Lemma write_file_ok p chunks msg w :
  can_create env w p ->
  Forall (fun c => Utf8.encodable c = true) chunks ->
  let body := (open_write rt env p ;; write_all rt env p chunks ;; logger INFO msg)%py in
  exists bs, Utf8.encode (concat chunks) = Some bs
    /\ fst (body w) = Done tt
    /\ fs (snd (body w)) !! os_path env p = Some (File bs).
Proof.
  intros (Hparent & Hden & Hnotdir) Hchunks. cbv zeta.
  assert (Hopen : open_write rt env p w
                  = (Done tt, with_fs (<[os_path env p := File []]> (fs w))
                                (emit (EvOpenWrite (os_path env p)) w))).
  { unfold open_write, access_error. cbv zeta. cbn [emit fs denied].
    rewrite Hparent. rewrite bool_decide_eq_false_2 by exact Hden.
    destruct (fs w !! os_path env p) as [[|d]|]; [contradiction | reflexivity ..]. }
  rewrite (bind_Done _ _ _ _ _ Hopen).
  destruct (write_all_ok p chunks Hchunks
              (with_fs (<[os_path env p := File []]> (fs w))
                 (emit (EvOpenWrite (os_path env p)) w)) [])
    as (bs & Hbs & Hdone & Hlook).
  { unfold with_fs. cbn [fs]. apply lookup_insert_eq. }
  exists bs. split; [exact Hbs|].
  rewrite (bind_Done _ _ _ _ tt (eq_trans (run_pair _ _) (f_equal2 pair Hdone eq_refl))).
  rewrite logger_run. cbn [fst snd emit fs]. auto.
Qed.

End Writes.

(** *** The two paths *)

Module SavedPaths.
Import pathlib PathFacts.

Lemma keep_part_long (x : pystr) : (2 <= length x)%nat -> keep_part x = true.
Proof.
  intros H. unfold keep_part, pystr_eqb.
  rewrite !bool_decide_eq_false_2; [reflexivity | |];
    intros ->; cbn [length] in H; lia.
Qed.

(** [<stem>_<stamp><ext>] is one path component. *)
Lemma output_name_good (name : pystr) (t : datetime) (ext : pystr) :
  Forall (fun c => c <> slash) ext -> (1 <= length ext)%nat ->
  good_part (base_name_of name (strftime_stamp t) ++ ext).
Proof.
  intros Hext Hlen. unfold base_name_of. split.
  - apply keep_part_long. rewrite !length_app. cbn [length]. lia.
  - rewrite !Forall_app. repeat split.
    + apply stem_no_slash, parse_wf.
    + constructor; [unfold slash; lia | constructor].
    + eapply Forall_impl; [apply strftime_stamp_chars|].
      intros c Hc. cbv beta in Hc. unfold slash. lia.
    + exact Hext.
Qed.

Lemma json_ext_ok :
  Forall (fun c => c <> slash) (lit ".json") /\ (1 <= length (lit ".json"))%nat.
Proof.
  split; [|vm_compute; lia].
  apply Forall_forall. intros c Hc. apply list_elem_of_In in Hc.
  vm_compute in Hc. unfold slash. intuition lia.
Qed.

Lemma txt_ext_ok :
  Forall (fun c => c <> slash) (lit ".txt") /\ (1 <= length (lit ".txt"))%nat.
Proof.
  split; [|vm_compute; lia].
  apply Forall_forall. intros c Hc. apply list_elem_of_In in Hc.
  vm_compute in Hc. unfold slash. intuition lia.
Qed.

Section Shapes.
Variable env : Env.
Variables (self : VideoAnnotator) (name : pystr) (w : World).

Lemma json_path_shape :
  json_path_at env self name w
  = mkPath (root (outputs_dir self)) (parts (outputs_dir self) ++ [base_name_of name (stamp_at env w) ++ lit ".json"]).
Proof.
  unfold json_path_at. apply joinpath_good_part.
  apply output_name_good; apply json_ext_ok.
Qed.

Lemma txt_path_shape :
  txt_path_at env self name w
  = mkPath (root (outputs_dir self)) (parts (outputs_dir self) ++ [base_name_of name (stamp_at env w) ++ lit ".txt"]).
Proof.
  unfold txt_path_at. apply joinpath_good_part.
  apply output_name_good; apply txt_ext_ok.
Qed.

Lemma json_path_parent : parent (json_path_at env self name w) = outputs_dir self.
Proof. rewrite json_path_shape, parent_snoc. destruct (outputs_dir self); reflexivity. Qed.

Lemma txt_path_parent : parent (txt_path_at env self name w) = outputs_dir self.
Proof. rewrite txt_path_shape, parent_snoc. destruct (outputs_dir self); reflexivity. Qed.

Lemma json_path_name :
  pathlib.name (json_path_at env self name w) = base_name_of name (stamp_at env w) ++ lit ".json".
Proof. rewrite json_path_shape. apply name_snoc. Qed.


(** The two files have different keys. *)
Lemma json_txt_keys_differ :
  os_path env (json_path_at env self name w)
  <> os_path env (txt_path_at env self name w).
Proof.
  rewrite json_path_shape, txt_path_shape. unfold os_path.
  apply sibling_keys_differ. intros H. apply app_inv_head in H.
  vm_compute in H. discriminate H.
Qed.

End Shapes.

(** A directory and an entry of it have different keys. *)
Lemma str_child_differs (r : pystr) (ps : list pystr) (x : pystr) :
  good_part x -> str (mkPath r ps) <> str (mkPath r (ps ++ [x])).
Proof.
  intros [Hk Hx].
  assert (Hne : x <> [] /\ x <> [dot]).
  { unfold keep_part, pystr_eqb in Hk. apply andb_true_iff in Hk as [H1 H2].
    apply negb_true_iff, bool_decide_eq_false in H1.
    apply negb_true_iff, bool_decide_eq_false in H2. auto. }
  destruct Hne as [Hne1 Hne2].
  destruct ps as [|q qs] using rev_ind.
  - cbn [app]. unfold str. cbn [root parts join_with concat map].
    destruct r as [|a r'].
    + cbn [app]. rewrite app_nil_r. congruence.
    + intros H. rewrite !app_nil_r in H.
      apply (f_equal (@length Z)) in H. rewrite length_app in H.
      destruct x; [contradiction | cbn [length] in H; lia].
  - rewrite !str_snoc. rewrite map_app, concat_app. cbn [map concat].
    rewrite app_nil_r. intros H.
    apply (f_equal (@length Z)) in H. rewrite !length_app in H.
    cbn [length] in H. lia.
Qed.

Lemma child_key_differs (cwd r : pystr) (ps : list pystr) (x : pystr) :
  good_part x ->
  str (absolute cwd (mkPath r ps)) <> str (absolute cwd (mkPath r (ps ++ [x]))).
Proof.
  intros Hx. unfold absolute, is_absolute. cbn [root parts].
  destruct (negb (pystr_eqb r [])).
  - apply str_child_differs. exact Hx.
  - rewrite app_assoc. apply str_child_differs. exact Hx.
Qed.

Lemma outputs_key_not_json env self name w :
  os_path env (outputs_dir self) <> os_path env (json_path_at env self name w).
Proof.
  rewrite json_path_shape. unfold os_path.
  destruct (outputs_dir self) as [r ps]. cbn [root parts].
  apply child_key_differs, output_name_good; apply json_ext_ok.
Qed.

End SavedPaths.

(** ** What the two files hold *)

Lemma sample_runtime_sane : sane_runtime sample_runtime.
Proof.
  unfold sane_runtime, sample_runtime. cbn [float_repr float_fixed].
  split; [|split].
  - intros x _.
    repeat match goal with
           | |- context [if ?b then _ else _] => destruct b
           end; vm_compute; reflexivity.
  - intros x.
    repeat match goal with
           | |- context [if ?b then _ else _] => destruct b
           end; vm_compute; reflexivity.
  - intros n x. destruct (n =? 1)%nat; vm_compute; reflexivity.
Qed.

Lemma strftime_stamp_plain (t : datetime) : Utf8.plain (strftime_stamp t) = true.
Proof.
  apply PlainFacts.plain_range.
  eapply Forall_impl; [apply strftime_stamp_chars|].
  intros c Hc. cbv beta in Hc. lia.
Qed.

Lemma annotation_of_record (repr : float -> pystr) (name ts : pystr)
                           (result : AnnotationResult) :
  json.get (lit "annotation")
           (json.Obj (map (json.decoded_pair repr) (json_record name ts result)))
  = Some (json.Str (r_content result)).
Proof. vm_compute. reflexivity. Qed.

Section Saved.
Variable rt : Runtime.
Variable env : Env.
Hypothesis runtime_ok : sane_runtime rt.

Lemma json_record_plain name t result :
  Utf8.encodable name = true ->
  Utf8.encodable (r_model result) = true ->
  Utf8.encodable (r_content result) = true ->
  Forall json.plain_item (json_record name (strftime_stamp t) result).
Proof.
  intros Hn Hm Hc. unfold json_record, json.plain_item.
  repeat (constructor; [split; [vm_compute; reflexivity | cbn [snd]; auto]|]).
  - apply PlainFacts.plain_encodable, strftime_stamp_plain.
  - constructor.
Qed.

(** The JSON file, once written, reads back as the record. *)
Lemma write_json_ok jp name t result w1 :
  can_create env w1 jp ->
  Utf8.encodable name = true ->
  Utf8.encodable (r_model result) = true ->
  Utf8.encodable (r_content result) = true ->
  let out := write_json rt env jp name (strftime_stamp t) result w1 in
  exists data,
    fst out = Done tt
    /\ fs (snd out) !! os_path env jp = Some (File data)
    /\ json_load_file data
       = Some (json.Obj (map (json.decoded_pair (float_repr rt))
                             (json_record name (strftime_stamp t) result))).
Proof.
  intros Hcreate Hn Hm Hc. cbv zeta. unfold write_json.
  destruct runtime_ok as (Hnum & _ & _).
  pose proof (PlainFacts.iterencode_dict_plain (float_repr rt) Hnum _
                (json_record_plain name t result Hn Hm Hc)) as Hplain.
  destruct (write_file_ok rt env jp _ (lit "JSON сохранен: " ++ pathlib.str jp) w1
              Hcreate
              (Forall_impl _ _ _ Hplain (fun c => PlainFacts.plain_encodable c)))
    as (bs & Hbs & Hdone & Hlook).
  exists bs. split; [exact Hdone|]. split; [exact Hlook|].
  unfold json_load_file. rewrite (Utf8Facts.decode_encode _ _ Hbs).
  rewrite universal_newlines_id
    by (apply PlainFacts.plain_no_cr, PlainFacts.plain_concat; exact Hplain).
  unfold json_record. apply (NumberFacts.loads_dict (float_repr rt) Hnum).
Qed.

Lemma text_lines_encodable name t result :
  Utf8.encodable name = true ->
  Utf8.encodable (r_model result) = true ->
  Utf8.encodable (r_content result) = true ->
  Forall (fun c => Utf8.encodable c = true)
         (text_lines rt name (strftime_stamp t) result).
Proof.
  intros Hn Hm Hc. destruct runtime_ok as (_ & Hrepr & Hfixed).
  pose proof (PlainFacts.plain_encodable _ (strftime_stamp_plain t)) as Ht.
  pose proof (fun x => PlainFacts.plain_encodable _ (Hrepr x)) as Hr.
  pose proof (fun n x => PlainFacts.plain_encodable _ (Hfixed n x)) as Hf.
  unfold text_lines, text_header_lines. cbn [app].
  repeat (constructor;
          [rewrite ?Utf8Facts.encodable_app, ?Hn, ?Hm, ?Hc, ?Ht, ?Hr, ?Hf;
           vm_compute; reflexivity|]).
  constructor.
Qed.


(** C5 (amended). Round trip of the structured record: when the video name,
    the model id and the annotation text can be encoded as UTF-8 (they hold
    no lone surrogate) and the JSON file can be created, the file
    [save_results] leaves, read back and parsed, is an object whose
    "annotation" is the original annotation text exactly, whatever
    non-ASCII characters, quotes, control characters or newlines it holds. *)
Theorem json_round_trip
    (self : VideoAnnotator) (name : pystr) (result : AnnotationResult) (w : World) :
  Utf8.encodable name = true ->
  Utf8.encodable (r_model result) = true ->
  Utf8.encodable (r_content result) = true ->
  can_create env w (json_path_at env self name w) ->
  exists data v,
    fs (snd (save_results rt env self name result w))
      !! os_path env (json_path_at env self name w) = Some (File data)
    /\ json_load_file data = Some v
    /\ json.get (lit "annotation") v = Some (json.Str (r_content result)).
Proof.
  intros Hn Hm Hc Hcreate.
  destruct (save_results_left rt env self name result w) as (Hfs & _).
  cbv zeta in Hfs. rewrite Hfs. clear Hfs.
  set (jp := json_path_at env self name w).
  set (tp := txt_path_at env self name w).
  destruct (write_json_ok jp name (clock env (ticks w)) result (save_start name w)
              Hcreate Hn Hm Hc) as (data & Hdone & Hlook & Hload).
  fold (stamp_at env w) in Hdone, Hlook, Hload.
  exists data, (json.Obj (map (json.decoded_pair (float_repr rt))
                             (json_record name (stamp_at env w) result))).
  split; [|split; [exact Hload | apply annotation_of_record]].
  destruct (touches_try_write_txt rt env tp name (stamp_at env w) result
              (snd (try_write_json rt env jp name (stamp_at env w) result
                      (save_start name w)))) as [_ Hframe].
  rewrite Hframe by apply SavedPaths.json_txt_keys_differ.
  unfold try_write_json. rewrite (try_except_done _ _ _ tt Hdone). exact Hlook.
Qed.

End Saved.

(** The sample run, with an annotation holding Cyrillic text, a quote, a
    newline and an emoji. *)
Lemma json_round_trip_witness :
  let env0 := sample_env (Reply 200 [] None) in
  let text := lit "Человек идёт" ++ [34; 10] ++ lit "по улице 📹" in
  exists data v,
    fs (snd (save_results sample_runtime env0 sample_annotator (lit "clip.mp4")
                          (sample_result text) sample_world))
      !! sample_json_key = Some (File data)
    /\ json_load_file data = Some v
    /\ json.get (lit "annotation") v = Some (json.Str text).
Proof.
  cbv zeta.
  apply (json_round_trip sample_runtime (sample_env (Reply 200 [] None))
           sample_runtime_sane sample_annotator (lit "clip.mp4")
           (sample_result (lit "Человек идёт" ++ [34; 10] ++ lit "по улице 📹"))
           sample_world).
  - vm_compute. reflexivity.
  - vm_compute. reflexivity.
  - vm_compute. reflexivity.
  - split; [vm_compute; reflexivity|].
    split; vm_compute; intros H; discriminate H.
Defined.

(** C5, as stated, fails for an annotation that cannot be encoded: with a
    lone surrogate as the annotation, the JSON write stops at the annotation
    value, and what the file holds does not parse. *)
Lemma json_round_trip_fails_on_lone_surrogate :
  let env0 := sample_env (Reply 200 [] None) in
  let out := save_results sample_runtime env0 sample_annotator (lit "clip.mp4")
                          (sample_result [55296]) sample_world in
  Utf8.encodable [55296] = false
  /\ exists data,
       fs (snd out) !! sample_json_key = Some (File data)
       /\ json_load_file data = None.
Proof.
  cbv zeta. split; [vm_compute; reflexivity|].
  eexists. split.
  - vm_compute. reflexivity.
  - vm_compute. reflexivity.
Qed.

(** ** What a step leaves unseen *)

Instance unseen_preorder {X} (f : event -> option X) : PreOrder (unseen f).
Proof.
  split.
  - intros w. reflexivity.
  - intros a b c H1 H2. unfold unseen in *. congruence.
Qed.

Instance fs_kept_preorder : PreOrder fs_kept.
Proof.
  split.
  - intros w. split; reflexivity.
  - intros a b c [H1 H2] [H3 H4]. split; congruence.
Qed.

Lemma unseen_emit {X} (f : event -> option X) (e : event) (w : World) :
  f e = None -> unseen f w (emit e w).
Proof.
  intros He. unfold unseen. cbn [emit trace omap list_omap]. rewrite He. reflexivity.
Qed.

Lemma fs_kept_emit (e : event) (w : World) : fs_kept w (emit e w).
Proof. split; reflexivity. Qed.

Section Unseen.
Variable rt : Runtime.
Variable env : Env.
Context {X : Type} (f : event -> option X).

Lemma unseen_path_exists p : steps (unseen f) (path_exists rt env p).
Proof. apply steps_path_exists. typeclasses eauto. Qed.

Lemma unseen_stat_size p : steps (unseen f) (stat_size rt env p).
Proof. intros w. unfold stat_size. destruct (fs w !! _) as [[]|]; reflexivity. Qed.

Lemma unseen_datetime_now : steps (unseen f) (datetime_now env).
Proof. intros w. reflexivity. Qed.

Lemma unseen_mkdir p :
  f (EvMkdir (os_path env p)) = None -> steps (unseen f) (mkdir_exist_ok rt env p).
Proof.
  intros Hf w. unfold mkdir_exist_ok, access_error.
  pose proof (unseen_emit f _ w Hf) as He.
  case_prim; exact He.
Qed.

Lemma unseen_open_read s p d :
  f (EvOpenRead (os_path env p)) = None -> steps (unseen f) (open_read rt env s p d).
Proof.
  intros Hf w. unfold open_read.
  pose proof (unseen_emit f _ w Hf) as He.
  destruct d; case_prim; exact He.
Qed.

Lemma unseen_read_text p :
  f (EvOpenRead (os_path env p)) = None -> steps (unseen f) (read_text rt env p).
Proof. apply unseen_open_read. Qed.

Lemma unseen_read_file s :
  f (EvOpenRead (os_path env (pathlib.parse s))) = None ->
  steps (unseen f) (read_file rt env s).
Proof. apply unseen_open_read. Qed.

Lemma unseen_open_write p :
  f (EvOpenWrite (os_path env p)) = None -> steps (unseen f) (open_write rt env p).
Proof.
  intros Hf w. unfold open_write, access_error.
  pose proof (unseen_emit f _ w Hf) as He.
  case_prim; exact He.
Qed.

Lemma unseen_f_write p s : steps (unseen f) (f_write rt env p s).
Proof. intros w. unfold f_write. case_prim; reflexivity. Qed.

Lemma unseen_write_all p chunks : steps (unseen f) (write_all rt env p chunks).
Proof.
  induction chunks; cbn [write_all].
  - apply steps_ret. typeclasses eauto.
  - apply steps_bind; [typeclasses eauto | apply unseen_f_write | intros; assumption].
Qed.

Lemma unseen_api_call req :
  f (EvApiCall req) = None -> steps (unseen f) (api_call env req).
Proof.
  intros Hf w. unfold api_call.
  pose proof (unseen_emit f _ w Hf) as He.
  destruct (endpoint env req); exact He.
Qed.

End Unseen.

Section Kept.
Variable rt : Runtime.
Variable env : Env.

Lemma fs_kept_path_exists p : steps fs_kept (path_exists rt env p).
Proof. apply steps_path_exists. typeclasses eauto. Qed.

Lemma fs_kept_stat_size p : steps fs_kept (stat_size rt env p).
Proof.
  intros w. unfold stat_size. destruct (fs w !! _) as [[]|]; split; reflexivity.
Qed.

Lemma fs_kept_datetime_now : steps fs_kept (datetime_now env).
Proof. intros w. split; reflexivity. Qed.

Lemma fs_kept_open_read s p d : steps fs_kept (open_read rt env s p d).
Proof. intros w. unfold open_read. destruct d; case_prim; split; reflexivity. Qed.

Lemma fs_kept_read_text p : steps fs_kept (read_text rt env p).
Proof. apply fs_kept_open_read. Qed.

Lemma fs_kept_read_file s : steps fs_kept (read_file rt env s).
Proof. apply fs_kept_open_read. Qed.

Lemma fs_kept_api_call req : steps fs_kept (api_call env req).
Proof. intros w. unfold api_call. destruct (endpoint env req); split; reflexivity. Qed.

End Kept.

(** One step of an argument about what a program leaves unseen or keeps. *)
Ltac frame_step :=
  match goal with
  | |- steps _ (bind _ _) => apply steps_bind; [typeclasses eauto | | intros]
  | |- steps _ (try_except _ _) =>
      apply steps_try_except; [typeclasses eauto | | intros]
  | |- steps _ (ret _) => apply steps_ret; typeclasses eauto
  | |- steps _ (raise _) => apply steps_raise; typeclasses eauto
  | |- steps _ (logger DEBUG ?msg) =>
      change (logger DEBUG msg) with (@ret unit tt); apply steps_ret;
      typeclasses eauto
  | |- steps (unseen _) (logger _ _) =>
      apply steps_logger; [typeclasses eauto | intros; apply unseen_emit; reflexivity]
  | |- steps (unseen _) (print _) =>
      apply steps_print; intros; apply unseen_emit; reflexivity
  | |- steps (unseen _) (print_text _ _) =>
      apply steps_print_text;
      [typeclasses eauto | intros; apply unseen_emit; reflexivity]
  | |- steps (unseen _) (path_exists _ _ _) => apply unseen_path_exists
  | |- steps (unseen _) (stat_size _ _ _) => apply unseen_stat_size
  | |- steps (unseen _) (datetime_now _) => apply unseen_datetime_now
  | |- steps (unseen _) (mkdir_exist_ok _ _ _) => apply unseen_mkdir; reflexivity
  | |- steps (unseen _) (read_text _ _ _) => apply unseen_read_text; reflexivity
  | |- steps (unseen _) (read_file _ _ _) => apply unseen_read_file; reflexivity
  | |- steps (unseen _) (open_write _ _ _) => apply unseen_open_write; reflexivity
  | |- steps (unseen _) (write_all _ _ _ _) => apply unseen_write_all
  | |- steps (unseen _) (api_call _ _) => apply unseen_api_call; reflexivity
  | |- steps fs_kept (logger _ _) =>
      apply steps_logger; [typeclasses eauto | intros; apply fs_kept_emit]
  | |- steps fs_kept (print _) => apply steps_print; intros; apply fs_kept_emit
  | |- steps fs_kept (print_text _ _) =>
      apply steps_print_text; [typeclasses eauto | intros; apply fs_kept_emit]
  | |- steps fs_kept (path_exists _ _ _) => apply fs_kept_path_exists
  | |- steps fs_kept (stat_size _ _ _) => apply fs_kept_stat_size
  | |- steps fs_kept (datetime_now _) => apply fs_kept_datetime_now
  | |- steps fs_kept (read_text _ _ _) => apply fs_kept_read_text
  | |- steps fs_kept (read_file _ _ _) => apply fs_kept_read_file
  | |- steps fs_kept (api_call _ _) => apply fs_kept_api_call
  | |- steps _ (if ?b then _ else _) => destruct b
  | |- steps _ (match ?x with _ => _ end) => destruct x
  end.

Ltac frame_auto := cbv beta zeta; repeat (frame_step; cbv beta zeta).

Section UnseenScript.
Variable rt : Runtime.
Variable env : Env.

(** [__init__] logs nothing above DEBUG, prints nothing and reads nothing. *)
Lemma init_logs_nothing lv : steps (unseen (is_log lv)) (VideoAnnotator_init rt env).
Proof. unfold VideoAnnotator_init. frame_auto. Qed.

Lemma main_setup_logs_no_error args :
  steps (unseen (is_log ERROR)) (main_setup rt env args).
Proof.
  unfold main_setup, apply_overrides. pose proof (init_logs_nothing ERROR).
  frame_auto; assumption.
Qed.

End UnseenScript.

(** ** The directories of [__init__] *)

Section Init.
Variable rt : Runtime.
Variable env : Env.

Lemma mkdir_ready d w :
  dir_ready env w d ->
  mkdir_exist_ok rt env d w
  = (Done tt, with_fs (<[os_path env d := Dir]> (fs w))
                (emit (EvMkdir (os_path env d)) w)).
Proof.
  intros [Hdir | (Hnone & Hparent & Hden)]; unfold mkdir_exist_ok, access_error;
    cbv zeta; cbn [emit fs denied].
  - rewrite Hdir. unfold with_fs. cbn [fs emit]. rewrite insert_id by exact Hdir.
    reflexivity.
  - rewrite Hnone, Hparent. rewrite bool_decide_eq_false_2 by exact Hden.
    reflexivity.
Qed.

(** Making one directory leaves every other one ready. *)
Lemma dir_ready_after d k e w :
  dir_ready env w d ->
  dir_ready env (with_fs (<[k := Dir]> (fs w)) (emit e w)) d.
Proof.
  unfold dir_ready, with_fs. cbn [fs denied emit].
  destruct (decide (k = os_path env d)) as [->|Hk].
  - intros _. left. apply lookup_insert_eq.
  - rewrite lookup_insert_ne by exact Hk.
    intros [Hdir | (Hnone & Hparent & Hden)]; [left; exact Hdir | right].
    split; [exact Hnone|]. split; [|exact Hden].
    destruct (decide (k = os_path env (pathlib.parent d))) as [->|Hp].
    + apply lookup_insert_eq.
    + rewrite lookup_insert_ne by exact Hp. exact Hparent.
Qed.

Lemma insert_dir_keeps (m : gmap pystr node) (k k' : pystr) (n : node) :
  m !! k' = Some Dir \/ m !! k' = None ->
  m !! k = Some n -> <[k' := Dir]> m !! k = Some n.
Proof.
  intros Hk' Hk. destruct (decide (k' = k)) as [->|Hne].
  - rewrite lookup_insert_eq. destruct Hk' as [H|H]; congruence.
  - rewrite lookup_insert_ne by exact Hne. exact Hk.
Qed.

Lemma dir_ready_cases d w :
  dir_ready env w d ->
  fs w !! os_path env d = Some Dir \/ fs w !! os_path env d = None.
Proof. intros [H | (H & _)]; auto. Qed.

Lemma init_name_good (x : pystr) :
  In x [lit "videos"; lit "outputs"; lit "prompts"] -> pathlib.good_part x.
Proof.
  intros Hx. split.
  - cbn [In] in Hx. destruct Hx as [<-|[<-|[<-|[]]]]; vm_compute; reflexivity.
  - apply Forall_forall. intros c Hc. apply list_elem_of_In in Hc.
    cbn [In] in Hx. unfold pathlib.slash.
    destruct Hx as [<-|[<-|[<-|[]]]]; vm_compute in Hc; intuition lia.
Qed.

(** Each of the three directories lies directly inside the script's. *)
Lemma init_dir_parent d :
  In d (init_dirs env) -> pathlib.parent d = script_dir env.
Proof.
  unfold init_dirs. cbn [In].
  intros [<-|[<-|[<-|[]]]];
    (rewrite PathFacts.joinpath_good_part
       by (apply init_name_good; cbn [In]; auto));
    rewrite PathFacts.parent_snoc; destruct (script_dir env); reflexivity.
Qed.

(** What [__init__] does when the three directories are ready. *)
Lemma init_run (w : World) :
  let dv := pathlib.joinpath (script_dir env) (lit "videos") in
  let do := pathlib.joinpath (script_dir env) (lit "outputs") in
  let dp := pathlib.joinpath (script_dir env) (lit "prompts") in
  dir_ready env w dv -> dir_ready env w do -> dir_ready env w dp ->
  VideoAnnotator_init rt env w
  = (Done (mkAnnotator MODEL FPS TEMPERATURE MAX_TOKENS (script_dir env) dv do dp),
     mkWorld (<[os_path env dp := Dir]>
                (<[os_path env do := Dir]> (<[os_path env dv := Dir]> (fs w))))
             (denied w) (ticks w)
             (EvMkdir (os_path env dp) :: EvMkdir (os_path env do)
              :: EvMkdir (os_path env dv) :: trace w)).
Proof.
  cbv zeta. intros Hv Ho Hp. unfold VideoAnnotator_init. cbv zeta.
  fold (script_dir env).
  set (dv := pathlib.joinpath (script_dir env) (lit "videos")) in *.
  set (do := pathlib.joinpath (script_dir env) (lit "outputs")) in *.
  set (dp := pathlib.joinpath (script_dir env) (lit "prompts")) in *.
  pose proof (dir_ready_after do (os_path env dv) (EvMkdir (os_path env dv)) w Ho)
    as Ho1.
  pose proof (dir_ready_after dp (os_path env dv) (EvMkdir (os_path env dv)) w Hp)
    as Hp1.
  pose proof (dir_ready_after dp (os_path env do) (EvMkdir (os_path env do)) _ Hp1)
    as Hp2.
  unfold bind at 1. unfold bind at 1. rewrite (mkdir_ready dv w Hv).
  rewrite logger_run. cbn [fst snd].
  unfold bind at 1. unfold bind at 1. rewrite (mkdir_ready do _ Ho1).
  rewrite logger_run. cbn [fst snd].
  unfold bind at 1. unfold bind at 1. rewrite (mkdir_ready dp _ Hp2).
  rewrite logger_run. cbn [fst snd].
  reflexivity.
Qed.

Lemma init_dirs_ready (w : World) :
  fs w !! os_path env (script_dir env) = Some Dir ->
  (forall d, In d (init_dirs env) ->
     fs w !! os_path env d = Some Dir
     \/ (fs w !! os_path env d = None /\ os_path env d ∉ denied w)) ->
  forall d, In d (init_dirs env) -> dir_ready env w d.
Proof.
  intros Hbase Hdirs d Hd. destruct (Hdirs d Hd) as [H | [H1 H2]]; [left; exact H|].
  right. rewrite (init_dir_parent d Hd). auto.
Qed.

(** X1. [__init__] makes sure of the three directories [videos], [outputs]
    and [prompts] next to the script: when the script's directory is there
    and each of the three is either a directory already or absent and
    allowed, it returns an annotator with the default settings and these
    three paths; afterwards the three are directories, whatever existed
    before is still there unchanged, no other path has changed, and an
    existing directory is no error. *)
Theorem init_creates_directories (w : World) :
  fs w !! os_path env (script_dir env) = Some Dir ->
  (forall d, In d (init_dirs env) ->
     fs w !! os_path env d = Some Dir
     \/ (fs w !! os_path env d = None /\ os_path env d ∉ denied w)) ->
  let out := VideoAnnotator_init rt env w in
  exists a,
    fst out = Done a
    /\ [videos_dir a; outputs_dir a; prompts_dir a] = init_dirs env
    /\ base_dir a = script_dir env
    /\ self_model a = MODEL /\ self_fps a = FPS
    /\ self_temperature a = TEMPERATURE /\ self_max_tokens a = MAX_TOKENS
    /\ (forall d, In d (init_dirs env) -> fs (snd out) !! os_path env d = Some Dir)
    /\ (forall k n, fs w !! k = Some n -> fs (snd out) !! k = Some n)
    /\ (forall k, (forall d, In d (init_dirs env) -> k <> os_path env d) ->
          fs (snd out) !! k = fs w !! k)
    /\ denied (snd out) = denied w.
Proof.
  intros Hbase Hdirs. cbv zeta.
  pose proof (init_dirs_ready w Hbase Hdirs) as Hready.
  pose proof (Hready _ (or_introl eq_refl)) as Hv.
  pose proof (Hready _ (or_intror (or_introl eq_refl))) as Ho.
  pose proof (Hready _ (or_intror (or_intror (or_introl eq_refl)))) as Hp.
  rewrite (init_run w Hv Ho Hp). cbn [fst snd fs denied].
  eexists. split; [reflexivity|]. cbn [videos_dir outputs_dir prompts_dir base_dir
    self_model self_fps self_temperature self_max_tokens].
  repeat (split; [reflexivity|]).
  set (kv := os_path env (pathlib.joinpath (script_dir env) (lit "videos"))) in *.
  set (ko := os_path env (pathlib.joinpath (script_dir env) (lit "outputs"))) in *.
  set (kp := os_path env (pathlib.joinpath (script_dir env) (lit "prompts"))) in *.
  pose proof (dir_ready_after _ kv (EvMkdir kv) w Ho) as Ho1.
  pose proof (dir_ready_after _ kv (EvMkdir kv) w Hp) as Hp1.
  pose proof (dir_ready_after _ ko (EvMkdir ko) _ Hp1) as Hp2.
  apply dir_ready_cases in Hv, Ho1, Hp2. unfold with_fs in Ho1, Hp2.
  cbn [fs emit] in Ho1, Hp2.
  assert (Hkeep : forall k n, fs w !! k = Some n ->
            <[kp := Dir]> (<[ko := Dir]> (<[kv := Dir]> (fs w))) !! k = Some n).
  { intros k n Hk. apply insert_dir_keeps; [exact Hp2|].
    apply insert_dir_keeps; [exact Ho1|].
    apply insert_dir_keeps; [exact Hv | exact Hk]. }
  split; [|split; [exact Hkeep | split; [|reflexivity]]].
  - unfold init_dirs. cbn [In]. fold kv ko kp.
    intros d [<-|[<-|[<-|[]]]]; fold kv ko kp.
    + apply insert_dir_keeps; [exact Hp2|].
      apply insert_dir_keeps; [exact Ho1 | apply lookup_insert_eq].
    + apply insert_dir_keeps; [exact Hp2 | apply lookup_insert_eq].
    + apply lookup_insert_eq.
  - intros k Hk. unfold init_dirs in Hk. cbn [In] in Hk.
    rewrite !lookup_insert_ne; [reflexivity | | |]; apply not_eq_sym, Hk; auto.
Qed.

Lemma mkdir_done d w :
  fst (mkdir_exist_ok rt env d w) = Done tt ->
  mkdir_exist_ok rt env d w
  = (Done tt, with_fs (<[os_path env d := Dir]> (fs w))
                (emit (EvMkdir (os_path env d)) w)).
Proof.
  unfold mkdir_exist_ok, access_error. cbv zeta. cbn [emit fs denied].
  destruct (fs w !! os_path env d) as [[|data]|] eqn:Hd; cbn [fst].
  - intros _. unfold with_fs. cbn [fs emit]. rewrite insert_id by exact Hd.
    reflexivity.
  - discriminate.
  - destruct (fs w !! os_path env (pathlib.parent d)) as [[|?]|]; cbn [fst];
      try discriminate.
    destruct (bool_decide _); cbn [fst]; [discriminate | reflexivity].
Qed.

Lemma bind_done_inv {A B} (m : M A) (k : A -> M B) (w : World) (b : B) :
  fst (bind m k w) = Done b ->
  exists a, fst (m w) = Done a /\ bind m k w = k a (snd (m w)).
Proof.
  unfold bind. destruct (m w) as [[a|e] w1]; cbn [fst snd]; [eauto | discriminate].
Qed.

(** Whenever [__init__] returns, the three directories were entered in the
    file system, in this order, and the annotator holds the defaults. *)
Lemma init_done (w : World) (a : VideoAnnotator) :
  fst (VideoAnnotator_init rt env w) = Done a ->
  a = mkAnnotator MODEL FPS TEMPERATURE MAX_TOKENS (script_dir env)
        (pathlib.joinpath (script_dir env) (lit "videos"))
        (pathlib.joinpath (script_dir env) (lit "outputs"))
        (pathlib.joinpath (script_dir env) (lit "prompts"))
  /\ fs (snd (VideoAnnotator_init rt env w))
     = <[os_path env (pathlib.joinpath (script_dir env) (lit "prompts")) := Dir]>
         (<[os_path env (pathlib.joinpath (script_dir env) (lit "outputs")) := Dir]>
            (<[os_path env (pathlib.joinpath (script_dir env) (lit "videos")) := Dir]>
               (fs w)))
  /\ denied (snd (VideoAnnotator_init rt env w)) = denied w.
Proof.
  unfold VideoAnnotator_init. cbv zeta. fold (script_dir env). unfold bind.
  repeat match goal with
         | |- context [mkdir_exist_ok rt env ?d ?w0] =>
             let Hm := fresh "Hm" in
             pose proof (mkdir_done d w0) as Hm;
             destruct (mkdir_exist_ok rt env d w0) as [[[]|?] ?];
             cbn [fst snd] in *; [|discriminate];
             specialize (Hm eq_refl); injection Hm as ->;
             rewrite logger_run; cbn [fst snd]
         end.
  unfold ret. cbn [fst snd fs denied with_fs emit]. intros [= <-].
  repeat split; reflexivity.
Qed.

(** X2. [__init__] is idempotent: in the state a successful [__init__]
    leaves, a second one succeeds as well, returns the same annotator and
    changes nothing in the file system. *)
Theorem init_idempotent (w : World) (a : VideoAnnotator) :
  fst (VideoAnnotator_init rt env w) = Done a ->
  let w1 := snd (VideoAnnotator_init rt env w) in
  fst (VideoAnnotator_init rt env w1) = Done a
  /\ fs (snd (VideoAnnotator_init rt env w1)) = fs w1
  /\ denied (snd (VideoAnnotator_init rt env w1)) = denied w1.
Proof.
  intros Ha. cbv zeta. destruct (init_done w a Ha) as (Hsame & Hfs & Hden).
  set (w1 := snd (VideoAnnotator_init rt env w)) in *.
  set (kv := os_path env (pathlib.joinpath (script_dir env) (lit "videos"))) in *.
  set (ko := os_path env (pathlib.joinpath (script_dir env) (lit "outputs"))) in *.
  set (kp := os_path env (pathlib.joinpath (script_dir env) (lit "prompts"))) in *.
  assert (Hp : fs w1 !! kp = Some Dir) by (rewrite Hfs; apply lookup_insert_eq).
  assert (Ho : fs w1 !! ko = Some Dir).
  { rewrite Hfs. destruct (decide (kp = ko)) as [->|Hne];
      [apply lookup_insert_eq | rewrite lookup_insert_ne by exact Hne;
                                apply lookup_insert_eq]. }
  assert (Hv : fs w1 !! kv = Some Dir).
  { rewrite Hfs. destruct (decide (kp = kv)) as [->|Hne];
      [apply lookup_insert_eq | rewrite lookup_insert_ne by exact Hne].
    destruct (decide (ko = kv)) as [->|Hne'];
      [apply lookup_insert_eq | rewrite lookup_insert_ne by exact Hne';
                                apply lookup_insert_eq]. }
  rewrite (init_run w1 (or_introl Hv) (or_introl Ho) (or_introl Hp)).
  cbn [fst snd fs denied]. fold kv ko kp.
  split; [rewrite Hsame; reflexivity|]. split; [|reflexivity].
  rewrite (insert_id _ kv Dir Hv), (insert_id _ ko Dir Ho), (insert_id _ kp Dir Hp).
  reflexivity.
Qed.

Lemma mkdir_file d w data :
  fs w !! os_path env d = Some (File data) ->
  mkdir_exist_ok rt env d w
  = (Raised (Exc FileExistsError (error_text rt FileExistsError (pathlib.str d))),
     emit (EvMkdir (os_path env d)) w).
Proof.
  intros Hd. unfold mkdir_exist_ok. cbv zeta. cbn [emit fs]. rewrite Hd. reflexivity.
Qed.

(** A regular file in the place of one of the three directories makes
    [__init__] raise. *)
Lemma init_blocked (w : World) (d : pathlib.Path) (data : bytes) :
  In d (init_dirs env) -> fs w !! os_path env d = Some (File data) ->
  exists c t, fst (VideoAnnotator_init rt env w) = Raised (Exc c t).
Proof.
  intros Hd Hfile. unfold VideoAnnotator_init. cbv zeta. fold (script_dir env).
  unfold init_dirs in Hd. cbn [In] in Hd.
  set (dv := pathlib.joinpath (script_dir env) (lit "videos")) in *.
  set (do := pathlib.joinpath (script_dir env) (lit "outputs")) in *.
  set (dp := pathlib.joinpath (script_dir env) (lit "prompts")) in *.
  pose proof (never_exits_mkdir rt env dv w) as Hn1.
  pose proof (quiet_mkdir rt env dv w) as [Hq1 _].
  unfold bind at 1. unfold bind at 1.
  destruct (mkdir_exist_ok rt env dv w) as [[[]|[c t|code]] w1] eqn:E1;
    cbn [fst snd] in *; [|eauto|contradiction].
  rewrite logger_run. cbn [fst snd].
  destruct Hd as [<-|Hd].
  { rewrite (mkdir_file dv w data Hfile) in E1. discriminate E1. }
  pose proof (never_exits_mkdir rt env do w1) as Hn2.
  pose proof (quiet_mkdir rt env do w1) as [Hq2 _].
  unfold bind at 1. unfold bind at 1.
  destruct (mkdir_exist_ok rt env do w1) as [[[]|[c t|code]] w2] eqn:E2;
    cbn [fst snd] in *; [|eauto|contradiction].
  rewrite logger_run. cbn [fst snd].
  destruct Hd as [<-|Hd].
  { apply Hq1 in Hfile. rewrite (mkdir_file do w1 data Hfile) in E2. discriminate E2. }
  destruct Hd as [<-|[]].
  apply Hq1, Hq2 in Hfile.
  unfold bind at 1. unfold bind at 1.
  rewrite (mkdir_file dp w2 data Hfile). cbn [fst]. eauto.
Qed.

(** X3. A regular file in the place of one of the three directories stops
    the run before anything else happens: [__init__] raises, outside the
    [try] of [main], so the exception is not handled there; the interpreter
    prints the traceback and the exit status is 1; nothing is sent to the
    endpoint and no file is written. *)
Theorem init_failure_aborts_run
    (args : Args) (w : World) (d : pathlib.Path) (data : bytes) :
  In d (init_dirs env) -> fs w !! os_path env d = Some (File data) ->
  let out := run rt env args w in
  fst out = 1
  /\ (exists c t rest, trace (snd out) = EvTraceback (Exc c t) :: rest)
  /\ logged ERROR (snd out) = logged ERROR w
  /\ quiet w (snd out) /\ no_call w (snd out).
Proof.
  intros Hd Hfile. cbv zeta.
  assert (Hsetup : exists c t, fst (main_setup rt env args w) = Raised (Exc c t)).
  { unfold main_setup. rewrite !bind_logger_run.
    match goal with
    | |- context [bind (VideoAnnotator_init rt env) _ ?w0] =>
        destruct (init_blocked w0 d data Hd Hfile) as (c & t & Hinit);
        exists c, t;
        rewrite (bind_Raised _ _ _ _ _
                   (eq_trans (run_pair _ _) (f_equal2 pair Hinit eq_refl)))
    end.
    reflexivity. }
  destruct Hsetup as (c & t & Hsetup).
  assert (Hpre : main_prelude rt env args w
                 = (Raised (Exc c t), snd (main_setup rt env args w))).
  { unfold main_prelude. apply bind_Raised.
    rewrite (run_pair (main_setup rt env args) w), Hsetup. reflexivity. }
  rewrite (run_prelude_raises rt env args w c t (f_equal fst Hpre)).
  rewrite Hpre. cbn [fst snd emit trace].
  pose proof (main_setup_logs_no_error rt env args w) as Hl.
  pose proof (quiet_main_setup rt env args w) as Hq.
  pose proof (no_call_main_setup rt env args w) as Hn.
  split; [reflexivity|]. split; [eauto|]. split; [exact Hl|]. split.
  - apply quiet_emit_after; [reflexivity | exact Hq].
  - apply no_call_emit_after; [reflexivity | exact Hn].
Qed.

End Init.

(** The sample run: [outputs] is there, [videos] and [prompts] are made. *)
Lemma init_creates_directories_witness :
  let env0 := sample_env (Reply 200 [] None) in
  let out := VideoAnnotator_init sample_runtime env0 sample_world in
  exists a,
    fst out = Done a
    /\ (forall d, In d (init_dirs env0) -> fs (snd out) !! os_path env0 d = Some Dir)
    /\ fs (snd out) !! lit "/home/user/backend/clip.mp4" = Some (File [0; 0; 1]).
Proof.
  cbv zeta.
  destruct (init_creates_directories sample_runtime (sample_env (Reply 200 [] None))
              sample_world) as (a & Ha & _ & _ & _ & _ & _ & _ & Hdirs & Hkeep & _).
  - vm_compute. reflexivity.
  - intros d [<-|[<-|[<-|[]]]].
    + right. split; [vm_compute; reflexivity|].
      vm_compute. intros Hin. discriminate Hin.
    + left. vm_compute. reflexivity.
    + right. split; [vm_compute; reflexivity|].
      vm_compute. intros Hin. discriminate Hin.
  - exists a. split; [exact Ha|]. split; [exact Hdirs|].
    apply Hkeep. vm_compute. reflexivity.
Defined.

(** The sample run, set up twice. *)
Lemma init_idempotent_witness :
  let env0 := sample_env (Reply 200 [] None) in
  let w1 := snd (VideoAnnotator_init sample_runtime env0 sample_world) in
  fst (VideoAnnotator_init sample_runtime env0 w1) = Done sample_annotator
  /\ fs (snd (VideoAnnotator_init sample_runtime env0 w1)) = fs w1.
Proof.
  cbv zeta.
  destruct (init_idempotent sample_runtime (sample_env (Reply 200 [] None))
              sample_world sample_annotator) as (H1 & H2 & _).
  - vm_compute. reflexivity.
  - split; [exact H1 | exact H2].
Defined.

(** The sample run, with a regular file named [videos] beside the script. *)
Lemma init_failure_aborts_run_witness :
  let env0 := sample_env (Reply 200 [] (Some (lit "text"))) in
  let w := sample_world_with (lit "/home/user/backend/videos") (File []) in
  let out := run sample_runtime env0 sample_args w in
  fst out = 1 /\ api_calls (snd out) = [] /\ logged ERROR (snd out) = [].
Proof.
  cbv zeta.
  destruct (init_failure_aborts_run sample_runtime
              (sample_env (Reply 200 [] (Some (lit "text")))) sample_args
              (sample_world_with (lit "/home/user/backend/videos") (File []))
              (pathlib.joinpath (script_dir (sample_env (Reply 200 [] (Some (lit "text")))))
                                (lit "videos"))
              []) as (Hexit & _ & Hlog & _ & Hcall).
  - left. reflexivity.
  - vm_compute. reflexivity.
  - split; [exact Hexit|]. split; [rewrite Hcall | rewrite Hlog]; reflexivity.
Defined.

(** ** What [annotate_video] does with the answer *)

Section Annotate.
Variable rt : Runtime.
Variable env : Env.

Lemma stat_size_found p w n :
  fs w !! os_path env p = Some n ->
  stat_size rt env p w
  = (Done (match n with File data => Z.of_nat (length data) | Dir => 4096 end), w).
Proof. intros H. unfold stat_size. rewrite H. destruct n; reflexivity. Qed.

Lemma annotate_video_unseen_reads self v text :
  steps (unseen is_read_open) (annotate_video rt env self v (Some text)).
Proof. unfold annotate_video, resolve_prompt. frame_auto. Qed.

Lemma annotate_video_fs_kept self v prompt :
  steps fs_kept (annotate_video rt env self v prompt).
Proof. unfold annotate_video, resolve_prompt, load_prompt. frame_auto. Qed.

(** Getting the prompt only adds events: no call, no write, no ERROR
    record, and no file opened other than the default prompt. *)
Lemma resolve_prompt_world self prompt w :
  exists added,
    snd (resolve_prompt rt env self prompt w)
    = mkWorld (fs w) (denied w) (ticks w) (added ++ trace w)
    /\ omap is_api_call added = []
    /\ omap (is_log ERROR) added = []
    /\ (prompt <> None -> added = [])
    /\ Forall (fun k => k = os_path env (resolved_prompt_path self None))
              (omap is_read_open added).
Proof.
  destruct prompt as [t|]; cbn [resolve_prompt].
  - exists []. destruct w. split; [reflexivity|]. split; [reflexivity|].
    split; [reflexivity|]. split; [reflexivity | constructor].
  - unfold load_prompt. run_cbv.
    destruct (fs w !! _) as [n|] eqn:Hk; run_cbv.
    + unfold read_text, open_read. cbv zeta. cbn [emit fs denied trace].
      rewrite Hk.
      destruct n; case_prim; run_cbv;
        match goal with
        | |- exists added, ?W = _ /\ _ =>
            let t := eval cbn [trace emit] in (trace W) in
            match t with
            | ?a :: ?b :: ?c :: trace w => exists [a; b; c]
            | ?a :: ?b :: trace w => exists [a; b]
            end
        end;
        (split; [reflexivity|]); (split; [reflexivity|]);
        (split; [reflexivity|]); (split; [congruence|]);
        repeat constructor.
    + destruct (lookup_miss _ _ _ _); run_cbv;
        [eexists [_; _] | eexists [_; _] | eexists [_; _] | eexists [_; _]
         | eexists [_]];
        (split; [reflexivity|]); (split; [reflexivity|]);
        (split; [reflexivity|]); (split; [congruence | constructor]).
Qed.

(** The line the handler of [annotate_video] prints can be shown exactly
    when the text of the exception can. *)
Lemma handler_line_encodable (t : pystr) :
  Utf8.encodable (lit "❌ Ошибка при обработке: " ++ t) = Utf8.encodable t.
Proof.
  rewrite Utf8Facts.encodable_app.
  replace (Utf8.encodable (lit "❌ Ошибка при обработке: ")) with true
    by (vm_compute; reflexivity).
  reflexivity.
Qed.

Lemma api_error_encodable (msg : pystr) :
  Utf8.encodable (lit "Ошибка API: " ++ msg) = Utf8.encodable msg.
Proof.
  rewrite Utf8Facts.encodable_app.
  replace (Utf8.encodable (lit "Ошибка API: ")) with true by (vm_compute; reflexivity).
  reflexivity.
Qed.

(** The steps of [annotate_video] up to the call, for a video that is there
    and a prompt at hand. *)
Ltac enter_call w Hn Hprompt :=
  unfold annotate_video; run_cbv; rewrite Hn; run_cbv;
  erewrite stat_size_found by exact Hn; run_cbv;
  match goal with
  | |- context [PrimFloat.ltb ?a ?b] =>
      let Hbig := fresh "Hbig" in destruct (PrimFloat.ltb a b) eqn:Hbig
  end; run_cbv;
  match goal with
  | |- context [resolve_prompt _ _ ?s ?o ?wi] =>
      let Hfst := fresh "Hfst" in
      let added := fresh "added" in
      let Hw := fresh "Hw" in
      let Hcalls := fresh "Hcalls" in
      let Herr := fresh "Herr" in
      let Hgiven := fresh "Hgiven" in
      let Hreads := fresh "Hreads" in
      pose proof (resolve_prompt_files rt env s o wi w eq_refl eq_refl) as Hfst;
      rewrite Hprompt in Hfst;
      destruct (resolve_prompt_world s o wi)
        as (added & Hw & Hcalls & Herr & Hgiven & Hreads);
      rewrite (run_pair (resolve_prompt rt env s o) wi), Hfst, Hw
  end; run_cbv; unfold api_call; run_cbv.

(** With the video there and the prompt at hand, exactly one request goes
    out, whatever the answer. *)
Lemma annotate_video_request
    (self : VideoAnnotator) (v : pystr) (prompt : option pystr) (text : pystr)
    (w : World) :
  is_Some (fs w !! os_path env (pathlib.parse v)) ->
  fst (resolve_prompt rt env self prompt w) = Done text ->
  api_calls (snd (annotate_video rt env self v prompt w))
  = request_of env self v text :: api_calls w.
Proof.
  intros [n Hn] Hprompt. unfold request_of.
  enter_call w Hn Hprompt;
    match goal with
    | |- context [endpoint env ?req] =>
        destruct (endpoint env req) as [code msg [content|]|c0 t0]
    end; run_cbv;
    try (destruct (code =? 200); run_cbv);
    try (destruct (Utf8.encodable _); run_cbv);
    unfold api_calls; cbn [trace emit omap list_omap is_api_call];
    rewrite omap_app, Hcalls; reflexivity.
Qed.

(** The result of [annotate_video] on an answer 200 with a content. *)
Lemma annotate_video_result
    (self : VideoAnnotator) (v : pystr) (prompt : option pystr) (text : pystr)
    (w : World) (msg content : pystr) :
  is_Some (fs w !! os_path env (pathlib.parse v)) ->
  fst (resolve_prompt rt env self prompt w) = Done text ->
  endpoint env (request_of env self v text) = Reply 200 msg (Some content) ->
  fst (annotate_video rt env self v prompt w)
  = Done (mkResult content
            (total_seconds rt (clock env (ticks w)) (clock env (S (ticks w))))
            (self_model self) (self_fps self))
  /\ ticks (snd (annotate_video rt env self v prompt w)) = S (S (ticks w)).
Proof.
  intros [n Hn] Hprompt Hreply. unfold request_of in Hreply.
  enter_call w Hn Hprompt; rewrite Hreply; run_cbv;
    change (200 =? 200) with true; run_cbv; split; reflexivity.
Qed.

(** When the [try] of [annotate_video] raises, the [except] block takes
    over in a state in which the one request has been sent and, for an
    error status, the status and the message have been logged. *)
Lemma annotate_video_failure
    (self : VideoAnnotator) (v : pystr) (prompt : option pystr) (text : pystr)
    (w : World) (c : exc_class) (t : pystr) :
  is_Some (fs w !! os_path env (pathlib.parse v)) ->
  fst (resolve_prompt rt env self prompt w) = Done text ->
  body_failure rt (endpoint env (request_of env self v text)) = Some (c, t) ->
  exists wb,
    annotate_video rt env self v prompt w = handled rt c t wb
    /\ logged ERROR wb
       = match endpoint env (request_of env self v text) with
         | Reply code msg _ =>
             if negb (code =? 200)
             then [lit "Ошибка API: код " ++ str_of_int code
                   ++ lit ", сообщение: " ++ msg]
             else []
         | Fault _ _ => []
         end ++ logged ERROR w.
Proof.
  intros [n Hn] Hprompt Hfail. unfold request_of in *.
  unfold body_failure in Hfail.
  destruct (annotate_video rt env self v prompt w) as [r0 w0] eqn:Hout.
  revert Hout.
  enter_call w Hn Hprompt;
    match goal with
    | |- context [endpoint env ?req] =>
        destruct (endpoint env req) as [code msg [content|]|c0 t0] eqn:Hep
    end; run_cbv;
    try (destruct (code =? 200) eqn:Hc; run_cbv);
    cbn [negb] in Hfail; try discriminate Hfail; injection Hfail as <- <-;
    intros <-; unfold handled; cbv zeta;
    destruct (Utf8.encodable _); run_cbv;
    eexists; (split; [reflexivity|]);
    unfold logged; cbn [trace emit omap list_omap is_log level_eqb];
    rewrite omap_app, Herr; reflexivity.
Qed.

Lemma handled_raises c t wb :
  exists c' t', fst (handled rt c t wb) = Raised (Exc c' t')
                /\ (c' = c /\ t' = t \/ c' = UnicodeEncodeError).
Proof. unfold handled. destruct (Utf8.encodable _); cbn [fst]; eauto 8. Qed.

Lemma handled_logged c t wb :
  logged ERROR (snd (handled rt c t wb))
  = (lit "Ошибка при обработке: " ++ t) :: logged ERROR wb.
Proof. unfold handled. destruct (Utf8.encodable _); reflexivity. Qed.

(** An answer 200 with a content is the only one after which the [try]
    does not raise. *)
Lemma body_failure_None reply :
  body_failure rt reply = None ->
  exists msg content, reply = Reply 200 msg (Some content).
Proof.
  unfold body_failure. destruct reply as [code msg [content|]|c t];
    try discriminate; destruct (Z.eqb_spec code 200) as [->|]; try discriminate.
  eauto.
Qed.

(** What happens after the endpoint answered with an error status: two
    ERROR records, and the exception of line 160, unless the console cannot
    show the line the handler prints. *)
Lemma annotate_video_error_log
    (self : VideoAnnotator) (v : pystr) (prompt : option pystr) (text : pystr)
    (w : World) (code : Z) (msg : pystr) (choice : option pystr) :
  is_Some (fs w !! os_path env (pathlib.parse v)) ->
  fst (resolve_prompt rt env self prompt w) = Done text ->
  endpoint env (request_of env self v text) = Reply code msg choice ->
  code <> 200 ->
  fst (annotate_video rt env self v prompt w)
  = (if Utf8.encodable msg
     then Raised (Exc Exception (lit "Ошибка API: " ++ msg))
     else Raised (Exc UnicodeEncodeError
                      (error_text rt UnicodeEncodeError
                                  (lit "❌ Ошибка при обработке: "
                                   ++ lit "Ошибка API: " ++ msg))))
  /\ logged ERROR (snd (annotate_video rt env self v prompt w))
     = [ lit "Ошибка при обработке: " ++ lit "Ошибка API: " ++ msg;
         lit "Ошибка API: код " ++ str_of_int code ++ lit ", сообщение: " ++ msg ]
       ++ logged ERROR w.
Proof.
  intros Hv Hprompt Hreply Hcode.
  destruct (annotate_video_failure self v prompt text w Exception
              (lit "Ошибка API: " ++ msg) Hv Hprompt) as (wb & -> & Hlog).
  { rewrite Hreply. unfold body_failure.
    destruct (Z.eqb_spec code 200); [contradiction | reflexivity]. }
  rewrite Hreply in Hlog. destruct (Z.eqb_spec code 200); [contradiction|].
  cbn [negb] in Hlog. rewrite handled_logged, Hlog. split; [|reflexivity].
  unfold handled. rewrite handler_line_encodable, api_error_encodable.
  destruct (Utf8.encodable msg); reflexivity.
Qed.


(** X5. With the video there and the prompt at hand, and a video name and
    a model id that the console can show, [annotate_video] returns only
    when the endpoint answered 200 with a content.  An
    exception raised by the call itself is logged at ERROR level and
    printed, and comes out unchanged, when the console can show its text;
    when it cannot, the [print] of the handler raises [UnicodeEncodeError],
    which comes out in its place, after the ERROR record.  Whatever
    exception ends [annotate_video], the newest log record is the ERROR
    record of the handler.  In every case exactly one request was sent: a
    failed call is not repeated. *)
Theorem annotate_video_reraises
    (self : VideoAnnotator) (v : pystr) (prompt : option pystr) (text : pystr)
    (w : World) :
  is_Some (fs w !! os_path env (pathlib.parse v)) ->
  fst (resolve_prompt rt env self prompt w) = Done text ->
  Utf8.encodable (pathlib.name (pathlib.parse v)) = true ->
  Utf8.encodable (self_model self) = true ->
  let req := request_of env self v text in
  let out := annotate_video rt env self v prompt w in
  (forall r, fst out = Done r ->
     exists msg, endpoint env req = Reply 200 msg (Some (r_content r)))
  /\ (forall c t, endpoint env req = Fault c t -> Utf8.encodable t = true ->
        fst out = Raised (Exc c t)
        /\ exists rest,
             trace (snd out)
             = EvPrint (lit "❌ Ошибка при обработке: " ++ t)
               :: EvLog ERROR (lit "Ошибка при обработке: " ++ t) :: rest)
  /\ (forall c t, endpoint env req = Fault c t -> Utf8.encodable t = false ->
        fst out
        = Raised (Exc UnicodeEncodeError
                      (error_text rt UnicodeEncodeError
                                  (lit "❌ Ошибка при обработке: " ++ t)))
        /\ exists rest,
             trace (snd out)
             = EvLog ERROR (lit "Ошибка при обработке: " ++ t) :: rest)
  /\ (forall c t, fst out = Raised (Exc c t) ->
        exists t0 l, logged ERROR (snd out) = (lit "Ошибка при обработке: " ++ t0) :: l
                     /\ (t = t0 \/ c = UnicodeEncodeError))
  /\ api_calls (snd out) = req :: api_calls w.
Proof.
  intros Hv Hprompt _ _. cbv zeta.
  split; [|split; [|split; [|split]]].
  - intros r Hr.
    destruct (body_failure rt (endpoint env (request_of env self v text)))
      as [[c t]|] eqn:Hf.
    + destruct (annotate_video_failure self v prompt text w c t Hv Hprompt Hf)
        as (wb & Hout & _).
      rewrite Hout in Hr. destruct (handled_raises c t wb) as (c' & t' & Hh & _).
      rewrite Hh in Hr. discriminate Hr.
    + apply body_failure_None in Hf as (msg & content & Hreply).
      destruct (annotate_video_result self v prompt text w msg content Hv Hprompt
                  Hreply) as [Hres _].
      rewrite Hres in Hr. injection Hr as <-. eauto.
  - intros c t Hfault Ht.
    destruct (annotate_video_failure self v prompt text w c t Hv Hprompt)
      as (wb & -> & _); [rewrite Hfault; reflexivity|].
    unfold handled. rewrite handler_line_encodable, Ht.
    cbn [fst snd emit trace]. eauto.
  - intros c t Hfault Ht.
    destruct (annotate_video_failure self v prompt text w c t Hv Hprompt)
      as (wb & -> & _); [rewrite Hfault; reflexivity|].
    unfold handled. rewrite handler_line_encodable, Ht.
    cbn [fst snd emit trace]. eauto.
  - intros c t Hr.
    destruct (body_failure rt (endpoint env (request_of env self v text)))
      as [[c0 t0]|] eqn:Hf.
    + destruct (annotate_video_failure self v prompt text w c0 t0 Hv Hprompt Hf)
        as (wb & Hout & _).
      rewrite Hout in Hr |- *. rewrite handled_logged.
      destruct (handled_raises c0 t0 wb) as (c' & t' & Hh & Hc).
      rewrite Hh in Hr. injection Hr as <- <-.
      exists t0, (logged ERROR wb). split; [reflexivity|].
      destruct Hc as [[_ ->]| ->]; auto.
    + apply body_failure_None in Hf as (msg & content & Hreply).
      destruct (annotate_video_result self v prompt text w msg content Hv Hprompt
                  Hreply) as [Hres _].
      rewrite Hres in Hr. discriminate Hr.
  - apply annotate_video_request; assumption.
Qed.


End Annotate.

Instance reads_only_preorder (key : pystr) : PreOrder (reads_only key).
Proof.
  split.
  - intros w. exists []. split; [reflexivity | constructor].
  - intros a b c (l1 & H1 & F1) (l2 & H2 & F2). exists (l2 ++ l1).
    rewrite H2, H1, app_assoc. split; [reflexivity | apply Forall_app; auto].
Qed.

Lemma reads_only_of_unseen {A} (key : pystr) (m : M A) :
  steps (unseen is_read_open) m -> steps (reads_only key) m.
Proof. intros H w. exists []. split; [apply H | constructor]. Qed.

Lemma reads_only_read_text rt env p :
  steps (reads_only (os_path env p)) (read_text rt env p).
Proof.
  intros w. exists [os_path env p]. split; [|repeat constructor].
  unfold read_text, open_read. case_prim; reflexivity.
Qed.

Ltac reads_step :=
  match goal with
  | |- steps _ (bind _ _) => apply steps_bind; [typeclasses eauto | | intros]
  | |- steps _ (try_except _ _) =>
      apply steps_try_except; [typeclasses eauto | | intros]
  | |- steps (reads_only _) (read_text _ _ _) => apply reads_only_read_text
  | |- steps _ (if ?b then _ else _) => destruct b
  | |- steps _ (match ?x with _ => _ end) => destruct x
  | |- steps (reads_only _) _ => apply reads_only_of_unseen; frame_step
  end.

Section Reads.
Variable rt : Runtime.
Variable env : Env.

(** X7. [annotate_video] works on the video without touching it: whatever
    the arguments and the answer, it leaves the files and directories as it
    found them (the log, kept here as the records of the trace, aside) and
    opens no file for writing; the only file it may open for reading is the
    default prompt file, and with a prompt text given it opens none. *)
Theorem annotate_video_reads_only_prompt
    (self : VideoAnnotator) (v : pystr) (prompt : option pystr) (w : World) :
  let out := annotate_video rt env self v prompt w in
  fs_kept w (snd out)
  /\ write_opens (snd out) = write_opens w
  /\ reads_only (os_path env (pathlib.joinpath (prompts_dir self)
                                                (lit "pov_annotation_prompt.txt")))
                w (snd out)
  /\ (prompt <> None -> read_opens (snd out) = read_opens w).
Proof.
  cbv zeta. split; [|split; [|split]].
  - apply (annotate_video_fs_kept rt env).
  - apply (quiet_annotate_video rt env self v prompt w).
  - revert w.
    change (steps (reads_only (os_path env (resolved_prompt_path self None)))
                  (annotate_video rt env self v prompt)).
    unfold annotate_video, resolve_prompt, load_prompt.
    cbv beta zeta. repeat (reads_step; cbv beta).
  - intros Hgiven. destruct prompt as [text|]; [|congruence].
    apply (annotate_video_unseen_reads rt env).
Qed.

End Reads.


(** The sample run against an endpoint that cannot be reached. *)
Lemma annotate_video_reraises_witness :
  let env0 := sample_env (Fault LibraryError (lit "timeout")) in
  let out := annotate_video sample_runtime env0 sample_annotator (lit "clip.mp4")
                            (Some (lit "describe")) sample_world in
  fst out = Raised (Exc LibraryError (lit "timeout"))
  /\ length (api_calls (snd out)) = 1%nat.
Proof.
  cbv zeta.
  destruct (annotate_video_reraises sample_runtime
              (sample_env (Fault LibraryError (lit "timeout"))) sample_annotator
              (lit "clip.mp4") (Some (lit "describe")) (lit "describe")
              sample_world) as (_ & H2 & _ & _ & H4).
  - vm_compute. eauto.
  - reflexivity.
  - vm_compute. reflexivity.
  - vm_compute. reflexivity.
  - split; [apply (H2 LibraryError (lit "timeout")); [reflexivity | vm_compute; reflexivity]
           | rewrite H4; reflexivity].
Defined.


(** ** The driver, from the command line to the request *)


Lemma after_try (R : World -> World -> Prop) `{!PreOrder R} {A}
    (body : M A) (handler : exc_class -> pystr -> M A) (w : World) :
  (forall c t, steps R (handler c t)) ->
  R (snd (body w)) (snd (try_except body handler w)).
Proof.
  intros Hh. unfold try_except. destruct (body w) as [[a|[c t|code]] w1];
    cbn [snd]; [reflexivity | apply Hh | reflexivity].
Qed.

Section Driver2.
Variable rt : Runtime.
Variable env : Env.

Lemma main_prelude_inv args w a p :
  fst (main_prelude rt env args w) = Done (a, p) ->
  fst (main_setup rt env args w) = Done a
  /\ fst (read_prompt_override rt env args (snd (main_setup rt env args w))) = Done p
  /\ snd (main_prelude rt env args w)
     = snd (read_prompt_override rt env args (snd (main_setup rt env args w))).
Proof.
  unfold main_prelude, bind.
  destruct (main_setup rt env args w) as [[a0|e] w0]; cbn [fst snd]; [|discriminate].
  destruct (read_prompt_override rt env args w0) as [[p0|e] w1]; cbn [fst snd];
    [|discriminate].
  unfold ret. cbn [fst snd]. intros [= <- <-]. auto.
Qed.





Lemma apply_overrides_fields args a0 w a :
  fst (apply_overrides rt args a0 w) = Done a ->
  a = mkAnnotator (str_or (a_model args) (self_model a0))
                  (float_or (a_fps args) (self_fps a0))
                  (float_or (a_temperature args) (self_temperature a0))
                  (self_max_tokens a0) (base_dir a0) (videos_dir a0)
                  (outputs_dir a0) (prompts_dir a0).
Proof.
  unfold apply_overrides, float_or, str_or. destruct a0.
  destruct (a_fps args) as [x|]; [destruct (float_truthy x)|];
    (destruct (a_model args) as [m|]; [destruct (str_truthy m)|]);
    (destruct (a_temperature args) as [y|]; [destruct (float_truthy y)|]);
    run_cbv; intros [= <-]; reflexivity.
Qed.

(** The annotator the driver sets up. *)
Lemma main_setup_fields args w a :
  fst (main_setup rt env args w) = Done a ->
  a = mkAnnotator (str_or (a_model args) MODEL) (float_or (a_fps args) FPS)
                  (float_or (a_temperature args) TEMPERATURE) MAX_TOKENS
                  (script_dir env)
                  (pathlib.joinpath (script_dir env) (lit "videos"))
                  (pathlib.joinpath (script_dir env) (lit "outputs"))
                  (pathlib.joinpath (script_dir env) (lit "prompts")).
Proof.
  unfold main_setup. rewrite !bind_logger_run. intros H.
  destruct (bind_done_inv _ _ _ _ H) as (a0 & Hinit & Heq). rewrite Heq in H.
  apply init_done in Hinit as (-> & _). apply apply_overrides_fields in H.
  exact H.
Qed.










(** How the [try] of [main] ends once [annotate_video] has returned:
    normally, or with the [UnicodeEncodeError] of a [print] whose text the
    console cannot encode. *)
Lemma main_body_after_annotation args a p w r :
  fst (annotate_video rt env a (a_video args) p w) = Done r ->
  let wa := snd (annotate_video rt env a (a_video args) p w) in
  let vname := pathlib.name (pathlib.parse (a_video args)) in
  let shown :=
    Utf8.encodable (pathlib.str (json_path_at env a vname wa))
    && Utf8.encodable (pathlib.str (txt_path_at env a vname wa))
    && Utf8.encodable (firstn 500 (r_content r)) in
  if shown then fst (main_body rt env args a p w) = Done tt
  else exists t, fst (main_body rt env args a p w) = Raised (Exc UnicodeEncodeError t).
Proof.
  intros Hr. cbv zeta.
  set (wa := snd (annotate_video rt env a (a_video args) p w)).
  set (vname := pathlib.name (pathlib.parse (a_video args))).
  assert (Hb : exists t1 t2 t3,
             fst (main_body rt env args a p w)
             = if Utf8.encodable (pathlib.str (json_path_at env a vname wa)) then
                 if Utf8.encodable (pathlib.str (txt_path_at env a vname wa)) then
                   if Utf8.encodable (firstn 500 (r_content r)) then Done tt
                   else Raised (Exc UnicodeEncodeError t3)
                 else Raised (Exc UnicodeEncodeError t2)
               else Raised (Exc UnicodeEncodeError t1)).
  { unfold main_body.
    rewrite (bind_Done _ _ _ _ r (eq_trans (run_pair _ _) (f_equal2 pair Hr eq_refl))).
    unfold bind at 1. rewrite save_results_run. cbv zeta.
    rewrite json_line_encodable, txt_line_encodable. fold wa vname.
    eexists _, _, _.
    destruct (Utf8.encodable (pathlib.str (json_path_at _ _ _ _))); [|reflexivity].
    destruct (Utf8.encodable (pathlib.str (txt_path_at _ _ _ _))); [|reflexivity].
    unfold bind. rewrite !print_run. unfold print_text.
    destruct (Utf8.encodable (firstn 500 (r_content r))); [|reflexivity].
    destruct (500 <? length (r_content r))%nat;
      rewrite ?print_run; unfold ret; rewrite !logger_run; reflexivity. }
  destruct Hb as (t1 & t2 & t3 & ->).
  destruct (Utf8.encodable (pathlib.str (json_path_at _ _ _ _))); cbn [andb]; [|eauto].
  destruct (Utf8.encodable (pathlib.str (txt_path_at _ _ _ _))); cbn [andb]; [|eauto].
  destruct (Utf8.encodable (firstn 500 (r_content r))); eauto.
Qed.

(** X11. Once the command line is parsed, the exit status of a run is 0 or
    1.  It is 0 exactly when the set-up succeeded, [annotate_video]
    returned, and the console could show the two output paths and the first
    500 characters of the annotation: what happens to the two output files
    has no part in it. *)
Theorem exit_status_follows_annotation (args : Args) (w : World) :
  (fst (run rt env args w) = 0 \/ fst (run rt env args w) = 1)
  /\ (fst (run rt env args w) = 0 <->
      exists a p r,
        fst (main_prelude rt env args w) = Done (a, p)
        /\ fst (annotate_video rt env a (a_video args) p
                  (snd (main_prelude rt env args w))) = Done r
        /\ Utf8.encodable
             (pathlib.str
                (json_path_at env a (pathlib.name (pathlib.parse (a_video args)))
                   (snd (annotate_video rt env a (a_video args) p
                           (snd (main_prelude rt env args w)))))) = true
        /\ Utf8.encodable
             (pathlib.str
                (txt_path_at env a (pathlib.name (pathlib.parse (a_video args)))
                   (snd (annotate_video rt env a (a_video args) p
                           (snd (main_prelude rt env args w)))))) = true
        /\ Utf8.encodable (firstn 500 (r_content r)) = true).
Proof.
  pose proof (never_exits_main_prelude rt env args w) as Hne.
  destruct (fst (main_prelude rt env args w)) as [[a p]|[c t|code]] eqn:Hp;
    [| |contradiction].
  - pose proof (never_exits_annotate_video rt env a (a_video args) p
                  (snd (main_prelude rt env args w))) as Hna.
    destruct (fst (annotate_video rt env a (a_video args) p
                     (snd (main_prelude rt env args w))))
      as [r|[c t|code]] eqn:Ha; [| |contradiction].
    + pose proof (main_body_after_annotation args a p _ r Ha) as Hb.
      cbv zeta in Hb.
      destruct (Utf8.encodable (pathlib.str (json_path_at _ _ _ _))) eqn:Hj;
        [destruct (Utf8.encodable (pathlib.str (txt_path_at _ _ _ _))) eqn:Ht;
         [destruct (Utf8.encodable (firstn 500 (r_content r))) eqn:Hc|]|];
        cbn [andb] in Hb.
      * rewrite (run_exit_zero rt env args w a p r Hp Ha Hj Ht Hc).
        split; [left; reflexivity|]. split; [|reflexivity].
        intros _. exists a, p, r. rewrite Ha. auto.
      * destruct Hb as [t Hb].
        destruct (run_body_raises_after rt env args w a p _ t Hp Hb) as [-> _].
        split; [right; reflexivity|]. split; [discriminate|].
        intros (a' & p' & r' & [= <- <-] & Hr & Hj' & Ht' & Hc').
        rewrite Ha in Hr. injection Hr as <-. congruence.
      * destruct Hb as [t Hb].
        destruct (run_body_raises_after rt env args w a p _ t Hp Hb) as [-> _].
        split; [right; reflexivity|]. split; [discriminate|].
        intros (a' & p' & r' & [= <- <-] & Hr & Hj' & Ht' & Hc').
        congruence.
      * destruct Hb as [t Hb].
        destruct (run_body_raises_after rt env args w a p _ t Hp Hb) as [-> _].
        split; [right; reflexivity|]. split; [discriminate|].
        intros (a' & p' & r' & [= <- <-] & Hr & Hj' & Ht' & Hc').
        congruence.
    + pose proof (main_body_raises rt env args a p _ c t Ha) as Hb.
      destruct (run_body_raises_after rt env args w a p c t Hp (f_equal fst Hb))
        as [-> _].
      split; [right; reflexivity|]. split; [discriminate|].
      intros (a' & p' & r & [= <- <-] & Hr & _). rewrite Ha in Hr. discriminate Hr.
  - rewrite (run_prelude_raises rt env args w c t Hp). cbn [fst].
    split; [right; reflexivity|]. split; [discriminate|].
    intros (a' & p' & r & Hd & _). discriminate Hd.
Qed.

(** X12. After a successful annotation the driver saves the result and then
    prints a preview: when the console can show the two output paths and
    the first 500 characters of the annotation, it prints a heading, a
    rule, those characters (all of the annotation when it is no longer than
    that) and, only when the annotation is longer than 500 characters, an
    ellipsis, and two INFO records close the run.  When the console cannot
    show those characters, the [print] raises [UnicodeEncodeError] after the
    rule, inside the [try] of [main]. *)
Theorem preview_is_first_500
    (args : Args) (a : VideoAnnotator) (p : option pystr) (w : World)
    (r : AnnotationResult) :
  fst (annotate_video rt env a (a_video args) p w) = Done r ->
  let wa := snd (annotate_video rt env a (a_video args) p w) in
  let vname := pathlib.name (pathlib.parse (a_video args)) in
  let saved := snd (save_results rt env a vname r wa) in
  Utf8.encodable (pathlib.str (json_path_at env a vname wa)) = true ->
  Utf8.encodable (pathlib.str (txt_path_at env a vname wa)) = true ->
  (Utf8.encodable (firstn 500 (r_content r)) = true ->
   trace (snd (main_body rt env args a p w))
   = [EvLog INFO (repeat 61 60); EvLog INFO (lit "Скрипт завершен успешно")]
     ++ (if (500 <? length (r_content r))%nat then [EvPrint (lit "...")] else [])
     ++ [EvPrint (firstn 500 (r_content r)); EvPrint (repeat 45 50);
         EvPrint ([10] ++ lit "📄 Первые 500 символов аннотации:")]
     ++ trace saved)
  /\ (Utf8.encodable (firstn 500 (r_content r)) = false ->
      main_body rt env args a p w
      = (Raised (Exc UnicodeEncodeError
                     (error_text rt UnicodeEncodeError (firstn 500 (r_content r)))),
         emit (EvPrint (repeat 45 50))
           (emit (EvPrint ([10] ++ lit "📄 Первые 500 символов аннотации:")) saved)))
  /\ (length (firstn 500 (r_content r)) <= 500)%nat
  /\ ((length (r_content r) <= 500)%nat -> firstn 500 (r_content r) = r_content r).
Proof.
  intros Hr. cbv zeta. intros Hj Ht.
  assert (Hbody : main_body rt env args a p w
                  = (print ([10] ++ lit "📄 Первые 500 символов аннотации:") ;;
                     print (repeat 45 50) ;;
                     print_text rt (firstn 500 (r_content r)) ;;
                     (if (500 <? length (r_content r))%nat
                      then print (lit "...") else ret tt) ;;
                     logger INFO (lit "Скрипт завершен успешно") ;;
                     logger INFO (repeat 61 60))
                      (snd (save_results rt env a
                              (pathlib.name (pathlib.parse (a_video args))) r
                              (snd (annotate_video rt env a (a_video args) p w))))).
  { unfold main_body.
    rewrite (bind_Done _ _ _ _ r (eq_trans (run_pair _ _) (f_equal2 pair Hr eq_refl))).
    unfold bind at 1. rewrite (save_results_shown _ _ _ _ _ _ Hj Ht). reflexivity. }
  rewrite Hbody. split; [|split; [|split]].
  - intros Hc. run_rewrite. rewrite (bind_print_text_ok _ _ _ _ Hc).
    destruct (500 <? length (r_content r))%nat; run_rewrite; reflexivity.
  - intros Hc. run_rewrite. rewrite (bind_print_text_fails _ _ _ _ Hc). reflexivity.
  - apply firstn_le_length.
  - apply firstn_all2.
Qed.

End Driver2.




(** The sample run: the annotation is four characters long, so it is
    printed whole and no ellipsis follows. *)
Lemma preview_is_first_500_witness :
  let env0 := sample_env (Reply 200 [] (Some (lit "text"))) in
  exists rest,
    trace (snd (main_body sample_runtime env0 sample_args sample_annotator None
                          sample_world))
    = EvLog INFO (repeat 61 60) :: EvLog INFO (lit "Скрипт завершен успешно")
      :: EvPrint (lit "text") :: rest.
Proof.
  cbv zeta.
  destruct (preview_is_first_500 sample_runtime
              (sample_env (Reply 200 [] (Some (lit "text"))))
              sample_args sample_annotator None sample_world
              (mkResult (lit "text") 2.5%float MODEL FPS)) as (H & _).
  - vm_compute. reflexivity.
  - vm_compute. reflexivity.
  - vm_compute. reflexivity.
  - rewrite H by (vm_compute; reflexivity). eexists. reflexivity.
Defined.

(** ** The two files of a run that went well *)

Lemma outputs_key_not_txt env self name w :
  os_path env (outputs_dir self) <> os_path env (txt_path_at env self name w).
Proof.
  rewrite SavedPaths.txt_path_shape. unfold os_path.
  destruct (outputs_dir self) as [r ps]. cbn [pathlib.root pathlib.parts].
  apply SavedPaths.child_key_differs, SavedPaths.output_name_good;
    apply SavedPaths.txt_ext_ok.
Qed.

(** *** Which paths the console can show *)

Module ShownPaths.
Import pathlib.

Section Chars.
Variable P : Z -> Prop.


Lemma filter_chars (f : pystr -> bool) (l : list pystr) :
  Forall (Forall P) l -> Forall (Forall P) (List.filter f l).
Proof.
  induction 1 as [|x l Hx Hl IH]; cbn [List.filter]; [constructor|].
  destruct (f x); [constructor; assumption | exact IH].
Qed.



Hypothesis slash_ok : P slash.
Hypothesis dot_ok : P dot.









End Chars.


End ShownPaths.

Section Saved2.
Variable rt : Runtime.
Variable env : Env.
Hypothesis runtime_ok : sane_runtime rt.


(** The chunks of the JSON document can all be encoded. *)
Lemma json_chunks_encodable name t result :
  Utf8.encodable name = true ->
  Utf8.encodable (r_model result) = true ->
  Utf8.encodable (r_content result) = true ->
  Forall (fun c => Utf8.encodable c = true)
         (json.iterencode_dict (float_repr rt)
            (json_record name (strftime_stamp t) result)).
Proof.
  intros Hn Hm Hc. destruct runtime_ok as (Hnum & _ & _).
  eapply Forall_impl; [|exact (fun c => PlainFacts.plain_encodable c)].
  apply (PlainFacts.iterencode_dict_plain (float_repr rt) Hnum).
  apply (json_record_plain name t result Hn Hm Hc).
Qed.

(** When both files can be created and the strings can be encoded,
    [save_results] leaves the file system with exactly two entries set:
    the encoded JSON document and the encoded text. *)
Lemma save_results_fs self name result w :
  Utf8.encodable name = true ->
  Utf8.encodable (r_model result) = true ->
  Utf8.encodable (r_content result) = true ->
  can_create env w (json_path_at env self name w) ->
  can_create env w (txt_path_at env self name w) ->
  exists jb tb,
    Utf8.encode (concat (json.iterencode_dict (float_repr rt)
                           (json_record name (stamp_at env w) result))) = Some jb
    /\ Utf8.encode (concat (text_lines rt name (stamp_at env w) result)) = Some tb
    /\ fs (snd (save_results rt env self name result w))
       = <[os_path env (txt_path_at env self name w) := File tb]>
           (<[os_path env (json_path_at env self name w) := File jb]> (fs w))
    /\ denied (snd (save_results rt env self name result w)) = denied w.
Proof.
  intros Hn Hm Hc Hcj Hct.
  pose proof (save_results_left rt env self name result w) as Hleft.
  cbv zeta in Hleft. destruct Hleft as (-> & -> & _).
  set (jp := json_path_at env self name w) in *.
  set (tp := txt_path_at env self name w) in *.
  pose proof (touches_try_write_json rt env jp name (stamp_at env w) result
                (save_start name w)) as [Hjden Hjframe].
  set (w2 := snd (try_write_json rt env jp name (stamp_at env w) result
                    (save_start name w))) in *.
  pose proof (touches_try_write_txt rt env tp name (stamp_at env w) result w2)
    as [Htden Htframe].
  set (w3 := snd (try_write_txt rt env tp name (stamp_at env w) result w2)) in *.
  assert (Hcj0 : can_create env (save_start name w) jp) by exact Hcj.
  destruct (write_file_ok rt env jp _ (lit "JSON сохранен: " ++ pathlib.str jp)
              (save_start name w) Hcj0
              (json_chunks_encodable name (clock env (ticks w)) result Hn Hm Hc))
    as (jb & Hjb & Hjdone & Hjlook).
  assert (Hw2 : fs w2 !! os_path env jp = Some (File jb)).
  { subst w2. unfold try_write_json, write_json.
    rewrite (try_except_done _ _ _ tt Hjdone). exact Hjlook. }
  assert (Hct2 : can_create env w2 tp).
  { destruct Hct as (Hp & Hd & Hnd). split; [|split].
    - rewrite Hjframe; [exact Hp|]. subst tp jp.
      rewrite SavedPaths.txt_path_parent. apply SavedPaths.outputs_key_not_json.
    - rewrite Hjden. exact Hd.
    - rewrite Hjframe; [exact Hnd|].
      apply not_eq_sym, SavedPaths.json_txt_keys_differ. }
  destruct (write_file_ok rt env tp _ (lit "TXT сохранен: " ++ pathlib.str tp) w2 Hct2
              (text_lines_encodable rt runtime_ok name (clock env (ticks w)) result
                 Hn Hm Hc))
    as (tb & Htb & Htdone & Htlook).
  assert (Hw3 : fs w3 !! os_path env tp = Some (File tb)).
  { subst w3. unfold try_write_txt, write_txt.
    rewrite (try_except_done _ _ _ tt Htdone). exact Htlook. }
  exists jb, tb. split; [exact Hjb|]. split; [exact Htb|]. split.
  - apply map_eq. intros k.
    destruct (decide (k = os_path env tp)) as [->|Hkt].
    + rewrite lookup_insert_eq. exact Hw3.
    + rewrite lookup_insert_ne by congruence. rewrite Htframe by exact Hkt.
      destruct (decide (k = os_path env jp)) as [->|Hkj].
      * rewrite lookup_insert_eq. exact Hw2.
      * rewrite lookup_insert_ne by congruence. apply Hjframe. exact Hkj.
  - rewrite Htden, Hjden. reflexivity.
Qed.

(** The encoded JSON document reads back as the record. *)
Lemma json_document_loads name t result jb :
  Utf8.encodable name = true ->
  Utf8.encodable (r_model result) = true ->
  Utf8.encodable (r_content result) = true ->
  Utf8.encode (concat (json.iterencode_dict (float_repr rt)
                         (json_record name (strftime_stamp t) result))) = Some jb ->
  json_load_file jb
  = Some (json.Obj (map (json.decoded_pair (float_repr rt))
                        (json_record name (strftime_stamp t) result))).
Proof.
  intros Hn Hm Hc Hjb. destruct runtime_ok as (Hnum & _ & _).
  pose proof (PlainFacts.iterencode_dict_plain (float_repr rt) Hnum _
                (json_record_plain name t result Hn Hm Hc)) as Hplain.
  unfold json_load_file. rewrite (Utf8Facts.decode_encode _ _ Hjb).
  rewrite universal_newlines_id
    by (apply PlainFacts.plain_no_cr, PlainFacts.plain_concat; exact Hplain).
  unfold json_record. apply (NumberFacts.loads_dict (float_repr rt) Hnum).
Qed.

(** X13. The JSON file holds the whole record: when the strings can be
    encoded and the file can be created, the file [save_results] leaves
    reads back as an object with exactly the six members video, model, fps,
    processing_time, timestamp and annotation, in this order; the three
    texts come back exactly, the time stamp is the one in the file's name,
    and the two numbers are the tokens the encoder printed, a NaN or an
    infinity being written as the bare words NaN, Infinity and -Infinity. *)
Theorem json_file_holds_whole_record
    (self : VideoAnnotator) (name : pystr) (result : AnnotationResult) (w : World) :
  Utf8.encodable name = true ->
  Utf8.encodable (r_model result) = true ->
  Utf8.encodable (r_content result) = true ->
  can_create env w (json_path_at env self name w) ->
  can_create env w (txt_path_at env self name w) ->
  let jp := json_path_at env self name w in
  exists data,
    fs (snd (save_results rt env self name result w)) !! os_path env jp
    = Some (File data)
    /\ json_load_file data
       = Some (json.Obj
                 [ (lit "video", json.Str name);
                   (lit "model", json.Str (r_model result));
                   (lit "fps",
                    json.Number (json.floatstr (float_repr rt) (r_fps result)));
                   (lit "processing_time",
                    json.Number (json.floatstr (float_repr rt)
                                               (r_processing_time result)));
                   (lit "timestamp", json.Str (stamp_at env w));
                   (lit "annotation", json.Str (r_content result)) ])
    /\ pathlib.name jp
       = pathlib.stem (pathlib.parse name) ++ [95] ++ stamp_at env w ++ lit ".json"
    /\ json.floatstr (float_repr rt) nan = lit "NaN"
    /\ json.floatstr (float_repr rt) infinity = lit "Infinity"
    /\ json.floatstr (float_repr rt) neg_infinity = lit "-Infinity".
Proof.
  intros Hn Hm Hc Hcj Hct. cbv zeta.
  destruct (save_results_fs self name result w Hn Hm Hc Hcj Hct)
    as (jb & tb & Hjb & _ & Hfs & _).
  exists jb. split; [|split; [|split; [|split; [|split]]]].
  - rewrite Hfs. rewrite lookup_insert_ne
      by apply not_eq_sym, SavedPaths.json_txt_keys_differ.
    apply lookup_insert_eq.
  - apply (json_document_loads name (clock env (ticks w)) result jb Hn Hm Hc Hjb).
  - rewrite SavedPaths.json_path_name. unfold base_name_of.
    rewrite <- !app_assoc. reflexivity.
  - reflexivity.
  - reflexivity.
  - reflexivity.
Qed.

(** X16. [save_results] overwrites: when it runs a second time within the
    same second (the time stamp of the second run is that of the first),
    with the same name and the same result, the two files are written
    again in place and the files and directories are left exactly as the
    first run left them (the log aside); nothing is appended and no third
    file appears. *)
Theorem save_results_overwrites
    (self : VideoAnnotator) (name : pystr) (result : AnnotationResult) (w : World) :
  Utf8.encodable name = true ->
  Utf8.encodable (r_model result) = true ->
  Utf8.encodable (r_content result) = true ->
  can_create env w (json_path_at env self name w) ->
  can_create env w (txt_path_at env self name w) ->
  let w1 := snd (save_results rt env self name result w) in
  stamp_at env w1 = stamp_at env w ->
  fst (save_results rt env self name result w1)
  = fst (save_results rt env self name result w)
  /\ fs (snd (save_results rt env self name result w1)) = fs w1.
Proof.
  intros Hn Hm Hc Hcj Hct. cbv zeta. intros Hstamp.
  destruct (save_results_fs self name result w Hn Hm Hc Hcj Hct)
    as (jb & tb & Hjb & Htb & Hfs & Hden).
  set (w1 := snd (save_results rt env self name result w)) in *.
  assert (Hjp : json_path_at env self name w1 = json_path_at env self name w)
    by (unfold json_path_at; rewrite Hstamp; reflexivity).
  assert (Htp : txt_path_at env self name w1 = txt_path_at env self name w)
    by (unfold txt_path_at; rewrite Hstamp; reflexivity).
  pose proof (SavedPaths.json_txt_keys_differ env self name w) as Hkeys.
  assert (Hj1 : fs w1 !! os_path env (json_path_at env self name w) = Some (File jb)).
  { rewrite Hfs, lookup_insert_ne by congruence. apply lookup_insert_eq. }
  assert (Ht1 : fs w1 !! os_path env (txt_path_at env self name w) = Some (File tb)).
  { rewrite Hfs. apply lookup_insert_eq. }
  assert (Hout : fs w1 !! os_path env (outputs_dir self) = Some Dir).
  { destruct Hcj as (Hp & _ & _). rewrite SavedPaths.json_path_parent in Hp.
    rewrite Hfs, !lookup_insert_ne; [exact Hp | |].
    - apply not_eq_sym, SavedPaths.outputs_key_not_json.
    - apply not_eq_sym, outputs_key_not_txt. }
  assert (Hcj1 : can_create env w1 (json_path_at env self name w1)).
  { rewrite Hjp. destruct Hcj as (_ & Hd & _). split; [|split].
    - rewrite SavedPaths.json_path_parent. exact Hout.
    - rewrite Hden. exact Hd.
    - rewrite Hj1. discriminate. }
  assert (Hct1 : can_create env w1 (txt_path_at env self name w1)).
  { rewrite Htp. destruct Hct as (_ & Hd & _). split; [|split].
    - rewrite SavedPaths.txt_path_parent. exact Hout.
    - rewrite Hden. exact Hd.
    - rewrite Ht1. discriminate. }
  destruct (save_results_fs self name result w1 Hn Hm Hc Hcj1 Hct1)
    as (jb' & tb' & Hjb' & Htb' & Hfs' & _).
  rewrite Hstamp in Hjb', Htb'. rewrite Hjb in Hjb'. rewrite Htb in Htb'.
  injection Hjb' as <-. injection Htb' as <-.
  split.
  - rewrite !save_results_run. cbv zeta. rewrite Hjp, Htp.
    destruct (Utf8.encodable (lit "   • JSON: " ++ _));
      [destruct (Utf8.encodable (lit "   • TXT:  " ++ _))|]; reflexivity.
  - rewrite Hfs', Hjp, Htp.
    rewrite (insert_id (fs w1) _ _ Hj1). apply insert_id. exact Ht1.
Qed.




End Saved2.

(** The sample run: the JSON file, read back. *)
Lemma json_file_holds_whole_record_witness :
  let env0 := sample_env (Reply 200 [] None) in
  let text := lit "Человек идёт" ++ [34; 10] ++ lit "по улице 📹" in
  exists data,
    fs (snd (save_results sample_runtime env0 sample_annotator (lit "clip.mp4")
                          (sample_result text) sample_world))
      !! sample_json_key = Some (File data)
    /\ json_load_file data
       = Some (json.Obj [ (lit "video", json.Str (lit "clip.mp4"));
                          (lit "model", json.Str MODEL);
                          (lit "fps", json.Number (lit "1.0"));
                          (lit "processing_time", json.Number (lit "2.5"));
                          (lit "timestamp", json.Str (lit "20240101_120000"));
                          (lit "annotation", json.Str text) ]).
Proof.
  cbv zeta.
  destruct (json_file_holds_whole_record sample_runtime
              (sample_env (Reply 200 [] None)) sample_runtime_sane
              sample_annotator (lit "clip.mp4")
              (sample_result (lit "Человек идёт" ++ [34; 10] ++ lit "по улице 📹"))
              sample_world) as (data & H1 & H2 & _).
  - vm_compute. reflexivity.
  - vm_compute. reflexivity.
  - vm_compute. reflexivity.
  - split; [vm_compute; reflexivity|].
    split; vm_compute; intros H; discriminate H.
  - split; [vm_compute; reflexivity|].
    split; vm_compute; intros H; discriminate H.
  - exists data. split.
    + rewrite <- H1. apply (f_equal (fun k => _ !! k)). vm_compute. reflexivity.
    + rewrite H2. vm_compute. reflexivity.
Defined.

(** The sample run, saved twice within the second. *)
Lemma save_results_overwrites_witness :
  let env0 := sample_env (Reply 200 [] None) in
  let save := save_results sample_runtime env0 sample_annotator (lit "clip.mp4")
                           (sample_result (lit "text")) in
  fs (snd (save (snd (save sample_world)))) = fs (snd (save sample_world)).
Proof.
  cbv zeta.
  destruct (save_results_overwrites sample_runtime
              (sample_env (Reply 200 [] None)) sample_runtime_sane
              sample_annotator (lit "clip.mp4") (sample_result (lit "text"))
              sample_world) as (_ & H).
  - vm_compute. reflexivity.
  - vm_compute. reflexivity.
  - vm_compute. reflexivity.
  - split; [vm_compute; reflexivity|].
    split; vm_compute; intros H; discriminate H.
  - split; [vm_compute; reflexivity|].
    split; vm_compute; intros H; discriminate H.
  - reflexivity.
  - exact H.
Defined.


(** ** A write that fails half way *)

(** Escaping keeps a code point that cannot be encoded. *)
Lemma escape_cp_not_encodable (c : Z) :
  Utf8.encodable_cp c = false -> json.escape_cp c = [c].
Proof.
  intros Hc. unfold json.escape_cp.
  repeat match goal with
         | |- context [if ?x =? ?y then _ else _] =>
             destruct (Z.eqb_spec x y) as [->|?];
             [vm_compute in Hc; discriminate Hc|]
         end.
  destruct ((0 <=? c) && (c <? 32)) eqn:Hsmall; [|reflexivity].
  apply andb_true_iff in Hsmall as [H1 H2].
  apply Z.leb_le in H1. apply Z.ltb_lt in H2.
  unfold Utf8.encodable_cp, Utf8.is_surrogate in Hc.
  rewrite !andb_false_iff, negb_false_iff, andb_true_iff in Hc.
  rewrite Z.leb_gt, Z.ltb_ge, Z.leb_le, Z.ltb_lt in Hc. lia.
Qed.

Lemma escape_not_encodable (s : pystr) :
  Utf8.encodable s = false -> Utf8.encodable (json.escape s) = false.
Proof.
  unfold json.escape, Utf8.encodable.
  induction s as [|c r IH]; cbn [forallb map concat]; [discriminate|].
  rewrite forallb_app. destruct (Utf8.encodable_cp c) eqn:Hc; cbn [andb].
  - intros Hr. rewrite (IH Hr). apply andb_false_r.
  - intros _. rewrite (escape_cp_not_encodable c Hc). cbn [forallb].
    rewrite Hc. reflexivity.
Qed.

Lemma encode_None (s : pystr) : Utf8.encodable s = false -> Utf8.encode s = None.
Proof.
  intros H. destruct (Utf8.encode s) eqn:E; [|reflexivity].
  assert (Hs : is_Some (Utf8.encode s)) by eauto.
  apply Utf8Facts.encode_is_Some in Hs. congruence.
Qed.

(** A JSON string that cannot be encoded: its literal cannot either. *)
Lemma encode_basestring_None (s : pystr) :
  Utf8.encodable s = false -> Utf8.encode (json.encode_basestring s) = None.
Proof.
  intros H. apply encode_None. unfold json.encode_basestring.
  change (json.quote :: json.escape s ++ [json.quote])
    with ([json.quote] ++ json.escape s ++ [json.quote]).
  rewrite !Utf8Facts.encodable_app, (escape_not_encodable s H).
  rewrite andb_false_r. reflexivity.
Qed.

Section Partial.
Variable rt : Runtime.
Variable env : Env.

Lemma write_all_trace p chunks w :
  trace (snd (write_all rt env p chunks w)) = trace w.
Proof.
  revert w. induction chunks as [|c rest IH]; intros w; cbn [write_all];
    [reflexivity|].
  unfold bind, f_write.
  destruct (Utf8.encode c); [|reflexivity].
  destruct (fs w !! os_path env p) as [[|d]|]; rewrite IH; reflexivity.
Qed.

(** Writing stops at the first chunk that cannot be encoded; the chunks
    before it are in the file. *)
Lemma write_all_stops p good bad rest :
  Forall (fun c => Utf8.encodable c = true) good ->
  Utf8.encode bad = None ->
  forall w data,
    fs w !! os_path env p = Some (File data) ->
    exists bs,
      Utf8.encode (concat good) = Some bs
      /\ fst (write_all rt env p (good ++ bad :: rest) w)
         = Raised (Exc UnicodeEncodeError (error_text rt UnicodeEncodeError bad))
      /\ fs (snd (write_all rt env p (good ++ bad :: rest) w)) !! os_path env p
         = Some (File (data ++ bs)).
Proof.
  intros Hgood Hbad. induction Hgood as [|c good Hc Hgood IH]; intros w data Hfile;
    cbn [app write_all concat].
  - exists []. split; [reflexivity|]. unfold bind, f_write. rewrite Hbad.
    cbn [fst snd]. rewrite app_nil_r. auto.
  - apply Utf8Facts.encode_is_Some in Hc as [b Hb].
    assert (Hstep : f_write rt env p c w
                    = (Done tt, with_fs (<[os_path env p := File (data ++ b)]> (fs w)) w)).
    { unfold f_write. rewrite Hb, Hfile. reflexivity. }
    rewrite (bind_Done _ _ _ _ _ Hstep).
    destruct (IH (with_fs (<[os_path env p := File (data ++ b)]> (fs w)) w) (data ++ b))
      as (bs & Hbs & Hraise & Hlook).
    { unfold with_fs. cbn [fs]. apply lookup_insert_eq. }
    exists (b ++ bs). rewrite Utf8Facts.encode_app, Hb, Hbs.
    rewrite app_assoc. auto.
Qed.

(** Creating a file and writing to it chunks of which one cannot be
    encoded: the file is left with what came before that chunk, and the
    exception names the chunk. *)
Lemma write_file_stops p good bad rest msg w :
  can_create env w p ->
  Forall (fun c => Utf8.encodable c = true) good ->
  Utf8.encode bad = None ->
  let body := (open_write rt env p ;; write_all rt env p (good ++ bad :: rest) ;;
               logger INFO msg)%py in
  exists bs,
    Utf8.encode (concat good) = Some bs
    /\ fst (body w)
       = Raised (Exc UnicodeEncodeError (error_text rt UnicodeEncodeError bad))
    /\ fs (snd (body w)) !! os_path env p = Some (File bs)
    /\ trace (snd (body w)) = EvOpenWrite (os_path env p) :: trace w.
Proof.
  intros (Hparent & Hden & Hnotdir) Hgood Hbad. cbv zeta.
  assert (Hopen : open_write rt env p w
                  = (Done tt, with_fs (<[os_path env p := File []]> (fs w))
                                (emit (EvOpenWrite (os_path env p)) w))).
  { unfold open_write, access_error. cbv zeta. cbn [emit fs denied].
    rewrite Hparent. rewrite bool_decide_eq_false_2 by exact Hden.
    destruct (fs w !! os_path env p) as [[|d]|]; [contradiction | reflexivity ..]. }
  rewrite (bind_Done _ _ _ _ _ Hopen).
  destruct (write_all_stops p good bad rest Hgood Hbad
              (with_fs (<[os_path env p := File []]> (fs w))
                 (emit (EvOpenWrite (os_path env p)) w)) [])
    as (bs & Hbs & Hraise & Hlook).
  { unfold with_fs. cbn [fs]. apply lookup_insert_eq. }
  pose proof (write_all_trace p (good ++ bad :: rest)
                (with_fs (<[os_path env p := File []]> (fs w))
                   (emit (EvOpenWrite (os_path env p)) w))) as Htrace.
  exists bs. split; [exact Hbs|].
  rewrite (bind_Raised _ _ _ _ _ (eq_trans (run_pair _ _) (f_equal2 pair Hraise eq_refl))).
  cbn [fst snd]. auto.
Qed.

End Partial.

Section Truncated.
Variable float_repr : float -> pystr.
Hypothesis repr_number :
  forall x, json.finite x = true -> json.number_token (float_repr x) = true.

Lemma scan_pairs_last (last : pystr) (fuel : nat) :
  json.scan_pairs fuel (json.escape last ++ json.quote :: [58; 32]) = None.
Proof.
  destruct fuel as [|f]; [reflexivity|].
  rewrite NumberFacts.scan_pairs_unfold, JsonFacts.scanstring_escape.
  cbn [mbind option_bind]. rewrite NumberFacts.skip_ws_head by reflexivity.
  change (58 =? 58) with true. cbv iota.
  change (json.skip_ws [32]) with (@nil Z).
  destruct f; reflexivity.
Qed.

(** A document that ends after the colon of its last member does not
    parse, whatever the members before. *)
Lemma scan_pairs_truncated (rest : list (pystr * json.pyvalue)) :
  forall (k : pystr) (v : json.pyvalue) (last : pystr) (fuel : nat),
    json.scan_pairs fuel
      (json.escape k ++ json.quote :: 58 :: 32 :: json.encode_value float_repr v
       ++ concat (json.iterencode_items float_repr false rest)
       ++ [44; 10; 32; 32] ++ json.encode_basestring last ++ [58; 32])
    = None.
Proof.
  induction rest as [|[k' v'] rest IH]; intros k v last fuel;
    (destruct fuel as [|[|f]]; [reflexivity | |]);
    rewrite NumberFacts.scan_pairs_unfold, JsonFacts.scanstring_escape;
    cbn [mbind option_bind]; rewrite NumberFacts.skip_ws_head by reflexivity;
    change (58 =? 58) with true; cbv iota; try reflexivity.
  - cbn [json.iterencode_items concat app].
    rewrite (NumberFacts.scan_value float_repr repr_number _ v 44) by (left; reflexivity).
    cbn [mbind option_bind].
    rewrite NumberFacts.skip_ws_head by reflexivity.
    change (44 =? 125) with false. change (44 =? 44) with true. cbv iota.
    unfold json.encode_basestring. cbn [app]. rewrite NumberFacts.skip_ws_indent.
    change (json.quote =? json.quote) with true. cbv iota.
    rewrite <- app_assoc. cbn [app]. rewrite scan_pairs_last. reflexivity.
  - cbn [json.iterencode_items concat app length plus].
    change (lit ",") with [44]. change (lit ": ") with [58; 32].
    unfold json.encode_basestring at 1. cbn [app]. rewrite <- !app_assoc. cbn [app].
    rewrite (NumberFacts.scan_value float_repr repr_number _ v 44) by (left; reflexivity).
    cbn [mbind option_bind].
    rewrite NumberFacts.skip_ws_head by reflexivity.
    change (44 =? 125) with false. change (44 =? 44) with true. cbv iota.
    rewrite NumberFacts.skip_ws_indent.
    change (json.quote =? json.quote) with true. cbv iota.
    rewrite <- ?app_assoc.
    pose proof (IH k' v' last (S f)) as Hrec. cbn [app] in Hrec.
    rewrite <- ?app_assoc in Hrec. cbn [app] in Hrec. rewrite Hrec. reflexivity.
Qed.

Lemma loads_truncated (k : pystr) (v : json.pyvalue)
    (rest : list (pystr * json.pyvalue)) (last : pystr) :
  json.loads ([123; 10; 32; 32] ++ json.encode_basestring k ++ [58; 32]
              ++ json.encode_value float_repr v
              ++ concat (json.iterencode_items float_repr false rest)
              ++ [44; 10; 32; 32] ++ json.encode_basestring last ++ [58; 32])
  = None.
Proof.
  unfold json.loads. cbn [app].
  rewrite NumberFacts.skip_ws_head by reflexivity.
  rewrite NumberFacts.scan_once_object.
  unfold json.encode_basestring at 1. cbn [app]. rewrite <- !app_assoc. cbn [app].
  rewrite NumberFacts.skip_ws_indent.
  change (json.quote =? 125) with false.
  change (json.quote =? json.quote) with true. cbv iota.
  pose proof (scan_pairs_truncated rest k v last) as H. cbn [app] in H.
  rewrite H. reflexivity.
Qed.

End Truncated.

Section PartialFiles.
Variable rt : Runtime.
Variable env : Env.
Hypothesis runtime_ok : sane_runtime rt.

(** The chunks of the JSON document that come before the annotation. *)
Lemma json_chunks_split name ts result :
  let rest := [ (lit "model", json.PStr (r_model result));
                (lit "fps", json.PFloat (r_fps result));
                (lit "processing_time", json.PFloat (r_processing_time result));
                (lit "timestamp", json.PStr ts) ] in
  let good := [lit "{"; [10; 32; 32]; json.encode_basestring (lit "video"); lit ": ";
               json.encode_basestring name]
              ++ json.iterencode_items (float_repr rt) false rest
              ++ [lit "," ++ [10; 32; 32]; json.encode_basestring (lit "annotation");
                  lit ": "] in
  json.iterencode_dict (float_repr rt) (json_record name ts result)
  = good ++ json.encode_basestring (r_content result) :: [[10]; lit "}"].
Proof. reflexivity. Qed.

(** Printed lines are no log records. *)
Lemma logged_after_prints (lv : level) (lines : list pystr) (w w' : World) :
  trace w' = map EvPrint lines ++ trace w -> logged lv w' = logged lv w.
Proof.
  intros Htr. unfold logged. rewrite Htr, omap_app.
  replace (omap (is_log lv) (map EvPrint lines)) with (@nil pystr); [reflexivity|].
  clear Htr. induction lines as [|l lines IH]; [reflexivity | exact IH].
Qed.

(** X15. A write that fails half way leaves its file behind.  When the
    annotation cannot be encoded as UTF-8 (it holds a lone surrogate) while
    the name and the model can, and both files can be created, then after
    [save_results] the JSON file exists and holds the document cut off just
    before the annotation value, which does not parse; the text file exists
    and holds the header lines only; and the two failures are on the log at
    ERROR level, the JSON one first. *)
Theorem failed_write_leaves_partial_file
    (self : VideoAnnotator) (name : pystr) (result : AnnotationResult) (w : World) :
  Utf8.encodable name = true ->
  Utf8.encodable (r_model result) = true ->
  Utf8.encodable (r_content result) = false ->
  can_create env w (json_path_at env self name w) ->
  can_create env w (txt_path_at env self name w) ->
  let ts := stamp_at env w in
  let w' := snd (save_results rt env self name result w) in
  exists jdata tdata jtext,
    fs w' !! os_path env (json_path_at env self name w) = Some (File jdata)
    /\ Utf8.decode jdata = Some jtext
    /\ jtext ++ json.encode_basestring (r_content result) ++ [10; 125]
       = concat (json.iterencode_dict (float_repr rt) (json_record name ts result))
    /\ json_load_file jdata = None
    /\ fs w' !! os_path env (txt_path_at env self name w) = Some (File tdata)
    /\ Utf8.decode tdata = Some (concat (text_header_lines rt name ts result))
    /\ logged ERROR w'
       = [ lit "Ошибка сохранения TXT: "
           ++ error_text rt UnicodeEncodeError (r_content result);
           lit "Ошибка сохранения JSON: "
           ++ error_text rt UnicodeEncodeError
                         (json.encode_basestring (r_content result)) ]
         ++ logged ERROR w.
Proof.
  intros Hn Hm Hc Hcj Hct. cbv zeta.
  pose proof (save_results_left rt env self name result w) as Hleft.
  cbv zeta in Hleft. destruct Hleft as (-> & _ & _ & lines & Hprinted).
  rewrite (logged_after_prints ERROR lines _ _ Hprinted). clear lines Hprinted.
  set (jp := json_path_at env self name w) in *.
  set (tp := txt_path_at env self name w) in *.
  set (result0 := mkResult [] (r_processing_time result) (r_model result)
                           (r_fps result)).
  pose proof (json_chunks_split name (stamp_at env w) result) as Hsplit.
  pose proof (json_chunks_split name (stamp_at env w) result0) as Hsplit0.
  cbv zeta in Hsplit, Hsplit0. cbn [r_model r_fps r_processing_time r_content result0]
    in Hsplit0.
  set (good := [lit "{"; [10; 32; 32]; json.encode_basestring (lit "video"); lit ": ";
                json.encode_basestring name]
               ++ json.iterencode_items (float_repr rt) false
                    [ (lit "model", json.PStr (r_model result));
                      (lit "fps", json.PFloat (r_fps result));
                      (lit "processing_time",
                       json.PFloat (r_processing_time result));
                      (lit "timestamp", json.PStr (stamp_at env w)) ]
               ++ [lit "," ++ [10; 32; 32];
                   json.encode_basestring (lit "annotation"); lit ": "]) in *.
  destruct runtime_ok as (Hnum & Hrepr & Hfixed).
  assert (Hplain : Forall (fun c => Utf8.plain c = true) good).
  { pose proof (PlainFacts.iterencode_dict_plain (float_repr rt) Hnum _
                  (json_record_plain name (clock env (ticks w)) result0 Hn Hm eq_refl))
      as H.
    fold (stamp_at env w) in H. rewrite Hsplit0 in H.
    apply Forall_app in H as [H _]. exact H. }
  assert (Hgood : Forall (fun c => Utf8.encodable c = true) good)
    by (eapply Forall_impl; [exact Hplain | exact (fun c => PlainFacts.plain_encodable c)]).
  (* the JSON file *)
  assert (Hcj0 : can_create env (save_start name w) jp) by exact Hcj.
  pose proof (touches_try_write_json rt env jp name (stamp_at env w) result
                (save_start name w)) as [Hjden Hjframe].
  pose proof (try_logged (write_json rt env jp name (stamp_at env w) result)
                (lit "Ошибка сохранения JSON: ") (save_start name w)
                (never_exits_write_json rt env jp name (stamp_at env w) result))
    as (_ & _ & Hjlog).
  fold (try_write_json rt env jp name (stamp_at env w) result) in Hjlog.
  assert (Hjbody : exists bs,
             Utf8.encode (concat good) = Some bs
             /\ fst (write_json rt env jp name (stamp_at env w) result
                       (save_start name w))
                = Raised (Exc UnicodeEncodeError
                              (error_text rt UnicodeEncodeError
                                 (json.encode_basestring (r_content result))))
             /\ fs (snd (write_json rt env jp name (stamp_at env w) result
                           (save_start name w))) !! os_path env jp = Some (File bs)
             /\ trace (snd (write_json rt env jp name (stamp_at env w) result
                              (save_start name w)))
                = EvOpenWrite (os_path env jp) :: trace (save_start name w)).
  { unfold write_json. rewrite Hsplit.
    apply (write_file_stops rt env jp good _ _ _ _ Hcj0 Hgood
             (encode_basestring_None _ Hc)). }
  destruct Hjbody as (jb & Hjb & Hjraise & Hjlook & Hjtrace).
  specialize (Hjlog _ _ Hjraise).
  set (w2 := snd (try_write_json rt env jp name (stamp_at env w) result
                    (save_start name w))) in *.
  assert (Hw2 : fs w2 !! os_path env jp = Some (File jb))
    by (rewrite Hjlog; exact Hjlook).
  (* the text file *)
  assert (Hct2 : can_create env w2 tp).
  { destruct Hct as (Hp & Hd & Hnd). split; [|split].
    - rewrite Hjframe; [exact Hp|]. subst tp jp.
      rewrite SavedPaths.txt_path_parent. apply SavedPaths.outputs_key_not_json.
    - rewrite Hjden. exact Hd.
    - rewrite Hjframe; [exact Hnd|].
      apply not_eq_sym, SavedPaths.json_txt_keys_differ. }
  pose proof (touches_try_write_txt rt env tp name (stamp_at env w) result w2)
    as [Htden Htframe].
  pose proof (try_logged (write_txt rt env tp name (stamp_at env w) result)
                (lit "Ошибка сохранения TXT: ") w2
                (never_exits_write_txt rt env tp name (stamp_at env w) result))
    as (_ & _ & Htlog).
  fold (try_write_txt rt env tp name (stamp_at env w) result) in Htlog.
  assert (Hheader : Forall (fun c => Utf8.encodable c = true)
                           (text_header_lines rt name (stamp_at env w) result)).
  { pose proof (text_lines_encodable rt (conj Hnum (conj Hrepr Hfixed)) name
                  (clock env (ticks w)) result0 Hn Hm eq_refl) as H.
    unfold text_lines in H. apply Forall_app in H as [H _]. exact H. }
  assert (Htbody : exists bs,
             Utf8.encode (concat (text_header_lines rt name (stamp_at env w) result))
             = Some bs
             /\ fst (write_txt rt env tp name (stamp_at env w) result w2)
                = Raised (Exc UnicodeEncodeError
                              (error_text rt UnicodeEncodeError (r_content result)))
             /\ fs (snd (write_txt rt env tp name (stamp_at env w) result w2))
                  !! os_path env tp = Some (File bs)
             /\ trace (snd (write_txt rt env tp name (stamp_at env w) result w2))
                = EvOpenWrite (os_path env tp) :: trace w2).
  { unfold write_txt, text_lines.
    apply (write_file_stops rt env tp _ _ [] _ _ Hct2 Hheader (encode_None _ Hc)). }
  destruct Htbody as (tb & Htb & Htraise & Htlook & Httrace).
  specialize (Htlog _ _ Htraise).
  set (w3 := snd (try_write_txt rt env tp name (stamp_at env w) result w2)) in *.
  exists jb, tb, (concat good).
  split; [|split; [|split; [|split; [|split; [|split]]]]].
  - cbn [emit fs]. rewrite Htframe
      by apply SavedPaths.json_txt_keys_differ. exact Hw2.
  - apply (Utf8Facts.decode_encode _ _ Hjb).
  - rewrite Hsplit, concat_app. cbn [concat]. rewrite app_nil_r. reflexivity.
  - unfold json_load_file. rewrite (Utf8Facts.decode_encode _ _ Hjb).
    rewrite universal_newlines_id
      by (apply PlainFacts.plain_no_cr, PlainFacts.plain_concat; exact Hplain).
    subst good. rewrite !concat_app. cbn [concat app]. rewrite !app_nil_r.
    change (lit "{") with [123]. change (lit ": ") with [58; 32].
    change (lit ",") with [44]. cbn [app]. rewrite <- ?app_assoc. cbn [app].
    apply (loads_truncated (float_repr rt) Hnum (lit "video") (json.PStr name)).
  - cbn [emit fs]. rewrite Htlog. exact Htlook.
  - apply (Utf8Facts.decode_encode _ _ Htb).
  - unfold logged. cbn [emit trace omap list_omap is_log].
    rewrite Htlog. cbn [emit trace omap list_omap is_log level_eqb].
    rewrite Httrace. cbn [omap list_omap is_log]. subst w2.
    rewrite Hjlog. cbn [emit trace omap list_omap is_log level_eqb].
    rewrite Hjtrace. reflexivity.
Qed.

End PartialFiles.

(** The sample run, with a lone surrogate as the annotation. *)
Lemma failed_write_leaves_partial_file_witness :
  let env0 := sample_env (Reply 200 [] None) in
  let out := save_results sample_runtime env0 sample_annotator (lit "clip.mp4")
                          (sample_result [55296]) sample_world in
  exists jdata tdata,
    fs (snd out) !! sample_json_key = Some (File jdata)
    /\ json_load_file jdata = None
    /\ fs (snd out) !! sample_txt_key = Some (File tdata)
    /\ length (logged ERROR (snd out)) = 2%nat.
Proof.
  cbv zeta.
  destruct (failed_write_leaves_partial_file sample_runtime
              (sample_env (Reply 200 [] None)) sample_runtime_sane
              sample_annotator (lit "clip.mp4") (sample_result [55296])
              sample_world)
    as (jdata & tdata & jtext & Hj & _ & _ & Hload & Ht & _ & Hlog).
  - vm_compute. reflexivity.
  - vm_compute. reflexivity.
  - vm_compute. reflexivity.
  - split; [vm_compute; reflexivity|].
    split; vm_compute; intros H; discriminate H.
  - split; [vm_compute; reflexivity|].
    split; vm_compute; intros H; discriminate H.
  - exists jdata, tdata. split; [|split; [exact Hload | split]].
    + rewrite <- Hj. apply (f_equal (fun k => _ !! k)). vm_compute. reflexivity.
    + rewrite <- Ht. apply (f_equal (fun k => _ !! k)). vm_compute. reflexivity.
    + rewrite Hlog. reflexivity.
Defined.

(** ** Time stamps and file names *)

Lemma zero_pad_two_value (n : Z) :
  0 <= n <= 99 ->
  digits_value (zero_pad 2 n) = n /\ length (zero_pad 2 n) = 2%nat.
Proof.
  intros Hn.
  pose proof (below_forallb
                (fun n => (digits_value (zero_pad 2 n) =? n)
                          && (length (zero_pad 2 n) =? 2)%nat)
                0 100 n) as H.
  cbv beta in H. rewrite andb_true_iff, Z.eqb_eq, Nat.eqb_eq in H.
  apply H; [vm_compute; reflexivity | lia | lia].
Qed.

Lemma zero_pad_four_value (n : Z) :
  1000 <= n <= 9999 ->
  digits_value (zero_pad 4 n) = n /\ length (zero_pad 4 n) = 4%nat.
Proof.
  intros Hn.
  pose proof (below_forallb
                (fun n => (digits_value (zero_pad 4 n) =? n)
                          && (length (zero_pad 4 n) =? 4)%nat)
                1000 9000 n) as H.
  cbv beta in H. rewrite andb_true_iff, Z.eqb_eq, Nat.eqb_eq in H.
  apply H; [vm_compute; reflexivity | lia | lia].
Qed.

Lemma valid_datetime_bounds (t : datetime) :
  valid_datetime t = true ->
  1000 <= year t <= 9999 /\ 0 <= month t <= 99 /\ 0 <= day t <= 99
  /\ 0 <= hour t <= 99 /\ 0 <= minute t <= 99 /\ 0 <= second t <= 99.
Proof.
  unfold valid_datetime. rewrite !andb_true_iff, !Z.leb_le. lia.
Qed.

(** The time stamp tells two clock readings apart exactly when they differ
    in the second or above. *)
Lemma strftime_stamp_inj (t1 t2 : datetime) :
  valid_datetime t1 = true -> valid_datetime t2 = true ->
  strftime_stamp t1 = strftime_stamp t2 -> to_the_second t1 = to_the_second t2.
Proof.
  intros H1 H2 Heq.
  apply valid_datetime_bounds in H1 as (Hy1 & Hm1 & Hd1 & Hh1 & Hn1 & Hs1).
  apply valid_datetime_bounds in H2 as (Hy2 & Hm2 & Hd2 & Hh2 & Hn2 & Hs2).
  destruct (zero_pad_four_value _ Hy1) as [Vy1 Ly1].
  destruct (zero_pad_four_value _ Hy2) as [Vy2 Ly2].
  destruct (zero_pad_two_value _ Hm1) as [Vm1 Lm1].
  destruct (zero_pad_two_value _ Hm2) as [Vm2 Lm2].
  destruct (zero_pad_two_value _ Hd1) as [Vd1 Ld1].
  destruct (zero_pad_two_value _ Hd2) as [Vd2 Ld2].
  destruct (zero_pad_two_value _ Hh1) as [Vh1 Lh1].
  destruct (zero_pad_two_value _ Hh2) as [Vh2 Lh2].
  destruct (zero_pad_two_value _ Hn1) as [Vn1 Ln1].
  destruct (zero_pad_two_value _ Hn2) as [Vn2 Ln2].
  destruct (zero_pad_two_value _ Hs1) as [Vs1 Ls1].
  destruct (zero_pad_two_value _ Hs2) as [Vs2 Ls2].
  unfold strftime_stamp in Heq.
  apply app_inj_1 in Heq as [Ey Heq]; [|congruence].
  apply app_inj_1 in Heq as [Em Heq]; [|congruence].
  apply app_inj_1 in Heq as [Ed Heq]; [|congruence].
  apply app_inj_1 in Heq as [_ Heq]; [|reflexivity].
  apply app_inj_1 in Heq as [Eh Heq]; [|congruence].
  apply app_inj_1 in Heq as [En Es]; [|congruence].
  apply (f_equal digits_value) in Ey, Em, Ed, Eh, En, Es.
  rewrite Vy1, Vy2 in Ey. rewrite Vm1, Vm2 in Em. rewrite Vd1, Vd2 in Ed.
  rewrite Vh1, Vh2 in Eh. rewrite Vn1, Vn2 in En. rewrite Vs1, Vs2 in Es.
  unfold to_the_second. rewrite Ey, Em, Ed, Eh, En, Es. reflexivity.
Qed.

Lemma strftime_stamp_length (t : datetime) :
  valid_datetime t = true -> length (strftime_stamp t) = 15%nat.
Proof.
  intros H. apply valid_datetime_bounds in H as (Hy & Hm & Hd & Hh & Hn & Hs).
  unfold strftime_stamp. rewrite !length_app.
  rewrite (proj2 (zero_pad_four_value _ Hy)), (proj2 (zero_pad_two_value _ Hm)),
    (proj2 (zero_pad_two_value _ Hd)), (proj2 (zero_pad_two_value _ Hh)),
    (proj2 (zero_pad_two_value _ Hn)), (proj2 (zero_pad_two_value _ Hs)).
  reflexivity.
Qed.

Section Names.
Variable env : Env.

(** Output names with different stamps differ, whatever the extensions. *)
Lemma output_names_differ name (t1 t2 : datetime) (ext1 ext2 : pystr) :
  valid_datetime t1 = true -> valid_datetime t2 = true ->
  strftime_stamp t1 <> strftime_stamp t2 ->
  base_name_of name (strftime_stamp t1) ++ ext1
  <> base_name_of name (strftime_stamp t2) ++ ext2.
Proof.
  intros H1 H2 Hne Heq. unfold base_name_of in Heq.
  rewrite <- !app_assoc in Heq. apply app_inv_head in Heq.
  cbn [app] in Heq. injection Heq as Heq.
  apply app_inj_1 in Heq as [Heq _];
    [contradiction | rewrite !strftime_stamp_length by assumption; reflexivity].
Qed.

Lemma output_keys_differ self name (w1 w2 : World) (ext1 ext2 : pystr) :
  pathlib.good_part (base_name_of name (stamp_at env w1) ++ ext1) ->
  pathlib.good_part (base_name_of name (stamp_at env w2) ++ ext2) ->
  base_name_of name (stamp_at env w1) ++ ext1
  <> base_name_of name (stamp_at env w2) ++ ext2 ->
  os_path env (pathlib.joinpath (outputs_dir self)
                 (base_name_of name (stamp_at env w1) ++ ext1))
  <> os_path env (pathlib.joinpath (outputs_dir self)
                    (base_name_of name (stamp_at env w2) ++ ext2)).
Proof.
  intros G1 G2 Hne.
  rewrite !PathFacts.joinpath_good_part by assumption.
  unfold os_path. apply PathFacts.sibling_keys_differ. exact Hne.
Qed.

(** X17. The time stamp in the file names has the granularity of a second.
    Two runs of [save_results] for the same video whose clock readings agree
    down to the second derive the same two paths, so the later run replaces
    the files of the earlier one; when the readings differ in the second or
    above, the four paths are pairwise different and no file of one run is
    touched by the other. *)
Theorem file_names_differ_by_the_second
    (self : VideoAnnotator) (name : pystr) (w1 w2 : World) :
  let t1 := clock env (ticks w1) in
  let t2 := clock env (ticks w2) in
  valid_datetime t1 = true -> valid_datetime t2 = true ->
  (to_the_second t1 = to_the_second t2 ->
     json_path_at env self name w1 = json_path_at env self name w2
     /\ txt_path_at env self name w1 = txt_path_at env self name w2)
  /\ (to_the_second t1 <> to_the_second t2 ->
        NoDup [ os_path env (json_path_at env self name w1);
                os_path env (txt_path_at env self name w1);
                os_path env (json_path_at env self name w2);
                os_path env (txt_path_at env self name w2) ]).
Proof.
  cbv zeta. intros H1 H2. split.
  - intros Heq. unfold to_the_second in Heq. injection Heq as Hy Hm Hd Hh Hn Hs.
    assert (Hstamp : stamp_at env w1 = stamp_at env w2).
    { unfold stamp_at, strftime_stamp. rewrite Hy, Hm, Hd, Hh, Hn, Hs. reflexivity. }
    unfold json_path_at, txt_path_at. rewrite Hstamp. split; reflexivity.
  - intros Hne.
    assert (Hstamp : strftime_stamp (clock env (ticks w1))
                     <> strftime_stamp (clock env (ticks w2))).
    { intros Heq. apply Hne. apply strftime_stamp_inj; assumption. }
    pose proof (fun e1 e2 =>
                  output_names_differ name _ _ e1 e2 H1 H2 Hstamp) as Hnames.
    pose proof (fun e1 e2 =>
                  output_names_differ name _ _ e1 e2 H2 H1 (not_eq_sym Hstamp))
      as Hnames'.
    pose proof (fun w => SavedPaths.output_name_good name (clock env (ticks w))
                           (lit ".json") (proj1 SavedPaths.json_ext_ok)
                           (proj2 SavedPaths.json_ext_ok)) as Gj.
    pose proof (fun w => SavedPaths.output_name_good name (clock env (ticks w))
                           (lit ".txt") (proj1 SavedPaths.txt_ext_ok)
                           (proj2 SavedPaths.txt_ext_ok)) as Gt.
    unfold json_path_at, txt_path_at.
    repeat constructor; rewrite ?not_elem_of_cons; repeat split;
      try apply not_elem_of_nil;
      try (apply SavedPaths.json_txt_keys_differ);
      try (apply output_keys_differ; [apply Gj || apply Gt | apply Gj || apply Gt
                                      | apply Hnames || apply Hnames']).
Qed.

End Names.

(** *** The stem *)

Lemma rfind_dot_Some (s : pystr) (i : nat) :
  pathlib.rfind_dot s = Some i ->
  exists a b, s = a ++ pathlib.dot :: b /\ length a = i
              /\ Forall (fun c => c <> pathlib.dot) b.
Proof.
  revert i. induction s as [|c r IH]; intros i; cbn [pathlib.rfind_dot];
    [discriminate|].
  destruct (pathlib.rfind_dot r) as [j|] eqn:Hr.
  - intros [= <-]. destruct (IH j eq_refl) as (a & b & -> & Ha & Hb).
    exists (c :: a), b. cbn [app length]. auto.
  - destruct (Z.eqb_spec c pathlib.dot) as [->|Hc]; [|discriminate].
    intros [= <-]. exists [], r. split; [reflexivity|]. split; [reflexivity|].
    clear IH. induction r as [|d r IH]; [constructor|].
    cbn [pathlib.rfind_dot] in Hr. destruct (pathlib.rfind_dot r); [discriminate|].
    destruct (Z.eqb_spec d pathlib.dot); [discriminate|].
    constructor; [assumption | apply IH; reflexivity].
Qed.

Lemma rfind_dot_None (s : pystr) :
  Forall (fun c => c <> pathlib.dot) s -> pathlib.rfind_dot s = None.
Proof.
  induction 1 as [|c r Hc Hr IH]; cbn [pathlib.rfind_dot]; [reflexivity|].
  rewrite IH. destruct (Z.eqb_spec c pathlib.dot); [contradiction | reflexivity].
Qed.

(** The name of the name is the name. *)
Lemma name_parse_name (v : pystr) :
  pathlib.name (pathlib.parse (pathlib.name (pathlib.parse v)))
  = pathlib.name (pathlib.parse v).
Proof.
  destruct (PathFacts.parse_wf v) as [_ Hparts]. unfold pathlib.name at 2 3.
  destruct (pathlib.parts (pathlib.parse v)) as [|x l] using rev_ind;
    [reflexivity|].
  rewrite last_last. apply Forall_app in Hparts as [_ Hx].
  inversion Hx as [|? ? Hgood _]; subst.
  rewrite (PathFacts.parse_good_part x Hgood). reflexivity.
Qed.

(** X18. The base name of the output files is the video's file name without
    its last suffix, wherever the video lies: the directories of the path
    play no part, at most what follows the last dot of the name (the dot
    included) is dropped, and a name without a dot, or with a leading dot
    only, is kept whole. *)
Theorem base_name_drops_last_suffix (v ts : pystr) :
  let n := pathlib.name (pathlib.parse v) in
  let s := pathlib.stem (pathlib.parse v) in
  base_name_of n ts = s ++ [95] ++ ts
  /\ (exists suffix,
        n = s ++ suffix
        /\ (suffix = []
            \/ exists ext, suffix = pathlib.dot :: ext
                           /\ Forall (fun c => c <> pathlib.dot) ext /\ s <> []))
  /\ (Forall (fun c => c <> pathlib.dot) n -> s = n)
  /\ (forall a, Forall (fun c => c <> pathlib.dot) a -> n = pathlib.dot :: a -> s = n).
Proof.
  cbv zeta.
  assert (Hstem : pathlib.stem (pathlib.parse (pathlib.name (pathlib.parse v)))
                  = pathlib.stem (pathlib.parse v))
    by (unfold pathlib.stem; rewrite name_parse_name; reflexivity).
  split; [unfold base_name_of; rewrite Hstem; reflexivity|].
  unfold pathlib.stem. set (n := pathlib.name (pathlib.parse v)).
  split; [|split].
  - destruct (pathlib.rfind_dot n) as [i|] eqn:Hi;
      [|exists []; rewrite app_nil_r; auto].
    destruct (rfind_dot_Some n i Hi) as (a & b & Hn & Ha & Hb).
    destruct ((0 <? i)%nat && (i <? length n - 1)%nat) eqn:Hcond;
      [|exists []; rewrite app_nil_r; auto].
    apply andb_true_iff in Hcond as [H0 H1].
    apply Nat.ltb_lt in H0. apply Nat.ltb_lt in H1.
    exists (pathlib.dot :: b). clearbody n. subst n i.
    rewrite firstn_app, firstn_all, Nat.sub_diag. cbn [firstn].
    rewrite app_nil_r. split; [reflexivity|]. right. exists b.
    split; [reflexivity|]. split; [exact Hb|].
    intros ->. cbn [length] in H0. lia.
  - intros Hnodot. rewrite (rfind_dot_None n Hnodot). reflexivity.
  - intros a Ha Hn. rewrite Hn.
    cbn [pathlib.rfind_dot]. rewrite (rfind_dot_None a Ha).
    change (pathlib.dot =? pathlib.dot) with true. reflexivity.
Qed.

(** Two readings one second apart, on the sample files. *)
Lemma file_names_differ_by_the_second_witness :
  let env1 := mkEnv (lit "/home/user/backend")
                    (lit "/home/user/backend/annotate_video.py")
                    (fun n => mkDatetime 2024 1 1 12 0 (Z.of_nat n) 0)
                    (fun _ => Reply 200 [] None) eq_refl in
  let w2 := mkWorld sample_fs ∅ 1 [] in
  NoDup [ os_path env1 (json_path_at env1 sample_annotator (lit "clip.mp4") sample_world);
          os_path env1 (txt_path_at env1 sample_annotator (lit "clip.mp4") sample_world);
          os_path env1 (json_path_at env1 sample_annotator (lit "clip.mp4") w2);
          os_path env1 (txt_path_at env1 sample_annotator (lit "clip.mp4") w2) ].
Proof.
  cbv zeta.
  destruct (file_names_differ_by_the_second
              (mkEnv (lit "/home/user/backend")
                     (lit "/home/user/backend/annotate_video.py")
                     (fun n => mkDatetime 2024 1 1 12 0 (Z.of_nat n) 0)
                     (fun _ => Reply 200 [] None) eq_refl)
              sample_annotator (lit "clip.mp4") sample_world
              (mkWorld sample_fs ∅ 1 [])) as [_ H].
  - vm_compute. reflexivity.
  - vm_compute. reflexivity.
  - apply H. vm_compute. intros Heq. discriminate Heq.
Defined.

(** ** What a run leaves alone *)

Instance keeps_entries_preorder : PreOrder keeps_entries.
Proof.
  split.
  - intros w k. auto.
  - intros a b c H1 H2 k. destruct (H1 k), (H2 k). auto.
Qed.

Instance changes_within_preorder (allowed : pystr -> Prop) :
  PreOrder (changes_within allowed).
Proof.
  split.
  - intros w k _. reflexivity.
  - intros a b c H1 H2 k Hk. rewrite (H2 k Hk). apply H1. exact Hk.
Qed.

Lemma keeps_of_fs_kept {A} (m : M A) : steps fs_kept m -> steps keeps_entries m.
Proof. intros H w k. destruct (H w) as [-> _]. auto. Qed.

Lemma changes_of_fs_kept {A} (allowed : pystr -> Prop) (m : M A) :
  steps fs_kept m -> steps (changes_within allowed) m.
Proof. intros H w k _. destruct (H w) as [-> _]. reflexivity. Qed.

(** Setting an entry that is not a directory keeps every entry. *)
Lemma keeps_insert (w w0 : World) (key : pystr) (n : node) :
  fs w !! key <> Some Dir \/ n = Dir ->
  keeps_entries w (with_fs (<[key := n]> (fs w)) w0).
Proof.
  intros Hkey k. unfold with_fs. cbn [fs].
  destruct (decide (key = k)) as [->|Hne].
  - rewrite lookup_insert_eq. split; [eauto|].
    intros Hdir. destruct Hkey as [Hkey | ->]; [contradiction | reflexivity].
  - rewrite lookup_insert_ne by exact Hne. auto.
Qed.

Lemma changes_insert (allowed : pystr -> Prop) (w w0 : World) (key : pystr) (n : node) :
  allowed key ->
  changes_within allowed w (with_fs (<[key := n]> (fs w)) w0).
Proof.
  intros Hkey k Hk. unfold with_fs. cbn [fs].
  apply lookup_insert_ne. intros ->. contradiction.
Qed.

Lemma steps_bind_val (R : World -> World -> Prop) `{!PreOrder R} {A B}
    (P : A -> Prop) (m : M A) (k : A -> M B) :
  (forall w a, fst (m w) = Done a -> P a) ->
  steps R m -> (forall a, P a -> steps R (k a)) -> steps R (bind m k).
Proof.
  intros HP Hm Hk w. unfold bind. specialize (Hm w). specialize (HP w).
  destruct (m w) as [[a|e] w1]; cbn [fst snd] in *; [|exact Hm].
  etransitivity; [exact Hm | apply Hk, HP; reflexivity].
Qed.

Section Frames.
Variable rt : Runtime.
Variable env : Env.

Lemma keeps_mkdir p : steps keeps_entries (mkdir_exist_ok rt env p).
Proof.
  intros w. unfold mkdir_exist_ok, access_error. case_prim;
    try (intros k; cbn [fs emit]; auto; fail).
  apply keeps_insert; right; reflexivity.
Qed.

Lemma keeps_open_write p : steps keeps_entries (open_write rt env p).
Proof.
  intros w. unfold open_write, access_error. case_prim;
    try (intros k; cbn [fs emit]; auto; fail);
    (apply keeps_insert; left; congruence).
Qed.

Lemma keeps_f_write p s : steps keeps_entries (f_write rt env p s).
Proof.
  intros w. unfold f_write. case_prim;
    try (intros k; cbn [fs emit]; auto; fail).
  apply keeps_insert; left; congruence.
Qed.

Lemma keeps_write_all p chunks : steps keeps_entries (write_all rt env p chunks).
Proof.
  induction chunks; cbn [write_all].
  - apply steps_ret. typeclasses eauto.
  - apply steps_bind; [typeclasses eauto | apply keeps_f_write | intros; assumption].
Qed.

Context (allowed : pystr -> Prop).

Lemma changes_mkdir p :
  allowed (os_path env p) -> steps (changes_within allowed) (mkdir_exist_ok rt env p).
Proof.
  intros Hp w. unfold mkdir_exist_ok, access_error. case_prim;
    try (intros k _; reflexivity).
  apply changes_insert; exact Hp.
Qed.

Lemma changes_open_write p :
  allowed (os_path env p) -> steps (changes_within allowed) (open_write rt env p).
Proof.
  intros Hp w. unfold open_write, access_error. case_prim;
    try (intros k _; reflexivity);
    (apply changes_insert; exact Hp).
Qed.

Lemma changes_f_write p s :
  allowed (os_path env p) -> steps (changes_within allowed) (f_write rt env p s).
Proof.
  intros Hp w. unfold f_write. case_prim;
    try (intros k _; reflexivity).
  apply changes_insert; exact Hp.
Qed.

Lemma changes_write_all p chunks :
  allowed (os_path env p) -> steps (changes_within allowed) (write_all rt env p chunks).
Proof.
  intros Hp. induction chunks; cbn [write_all].
  - apply steps_ret. typeclasses eauto.
  - apply steps_bind; [typeclasses eauto | apply changes_f_write; exact Hp
                      | intros; assumption].
Qed.

End Frames.

(** One step of an argument about the entries a program keeps or may
    change. *)
Ltac entries_step :=
  match goal with
  | |- steps _ (bind _ _) => apply steps_bind; [typeclasses eauto | | intros]
  | |- steps _ (try_except _ _) =>
      apply steps_try_except; [typeclasses eauto | | intros]
  | |- steps keeps_entries (mkdir_exist_ok _ _ _) => apply keeps_mkdir
  | |- steps keeps_entries (open_write _ _ _) => apply keeps_open_write
  | |- steps keeps_entries (write_all _ _ _ _) => apply keeps_write_all
  | |- steps (changes_within _) (mkdir_exist_ok _ _ _) => apply changes_mkdir
  | |- steps (changes_within _) (open_write _ _ _) => apply changes_open_write
  | |- steps (changes_within _) (write_all _ _ _ _) => apply changes_write_all
  | |- steps _ (if ?b then _ else _) => destruct b
  | |- steps _ (match ?x with _ => _ end) => destruct x
  | |- steps keeps_entries _ => apply keeps_of_fs_kept; frame_step
  | |- steps (changes_within _) _ => apply changes_of_fs_kept; frame_step
  end.

Ltac entries_auto := cbv beta zeta; repeat (entries_step; cbv beta zeta).

Section RunFrames.
Variable rt : Runtime.
Variable env : Env.

Lemma keeps_main args : steps keeps_entries (main rt env args).
Proof.
  unfold main, main_prelude, main_setup, VideoAnnotator_init, apply_overrides,
    read_prompt_override, main_body, annotate_video, resolve_prompt, load_prompt,
    save_results, try_write_json, try_write_txt, write_json, write_txt.
  entries_auto.
Qed.

(** X19. A run removes nothing: every path that had an entry before the run
    still has one afterwards, and every directory is still a directory. *)
Theorem run_removes_nothing (args : Args) (w : World) :
  keeps_entries w (snd (run rt env args w))
  /\ forall k, is_Some (fs w !! k) -> is_Some (fs (snd (run rt env args w)) !! k).
Proof.
  assert (H : keeps_entries w (snd (run rt env args w))).
  { pose proof (keeps_main args w) as Hm. unfold run.
    destruct (main rt env args w) as [[[]|[c t|code]] w1]; cbn [snd] in *;
      exact Hm. }
  split; [exact H|]. intros k. apply H.
Qed.

Lemma changes_main args :
  steps (changes_within (run_targets env args)) (main rt env args).
Proof.
  unfold main.
  apply (steps_bind_val _
           (fun ready => outputs_dir (fst ready)
                         = pathlib.joinpath (script_dir env) (lit "outputs"))).
  - intros w [a p] Hp. destruct (main_prelude_inv rt env args w a p Hp) as (Hs & _).
    rewrite (main_setup_fields rt env args w a Hs). reflexivity.
  - unfold main_prelude, main_setup, VideoAnnotator_init, apply_overrides,
      read_prompt_override.
    fold (script_dir env). entries_auto;
      (left; eexists; split; [|reflexivity]; unfold init_dirs; cbn [In]; auto).
  - intros [a p] Hout. cbn [fst snd] in *.
    unfold main_body, annotate_video, resolve_prompt, load_prompt,
      save_results, try_write_json, try_write_txt, write_json, write_txt.
    rewrite Hout. entries_auto;
      (right; eexists _, _; split; [|reflexivity]; cbn [In]; auto).
Qed.

(** X20. A run changes nothing but its own outputs (and the log, kept here
    as the records of the trace): the entry of every path other than the
    three directories beside the script and the files named after the video
    and a time stamp, with the extension [.json] or [.txt], directly inside
    [outputs], is after the run what it was before.  In particular the
    video and the prompt files are left as they are. *)
Theorem run_changes_only_its_outputs (args : Args) (w : World) (k : pystr) :
  ~ run_targets env args k ->
  fs (snd (run rt env args w)) !! k = fs w !! k.
Proof.
  intros Hk. pose proof (changes_main args w k Hk) as Hm. unfold run.
  destruct (main rt env args w) as [[[]|[c t|code]] w1]; cbn [snd] in *; exact Hm.
Qed.

End RunFrames.

(** The sample run leaves the video as it found it. *)
Lemma run_changes_only_its_outputs_witness :
  let env0 := sample_env (Reply 200 [] (Some (lit "text"))) in
  fs (snd (run sample_runtime env0 sample_args sample_world))
    !! lit "/home/user/backend/clip.mp4" = Some (File [0; 0; 1]).
Proof.
  cbv zeta.
  rewrite (run_changes_only_its_outputs sample_runtime
             (sample_env (Reply 200 [] (Some (lit "text")))) sample_args
             sample_world (lit "/home/user/backend/clip.mp4")).
  - vm_compute. reflexivity.
  - intros [(d & Hd & Hk) | (t & ext & Hext & Hk)].
    + unfold init_dirs in Hd. cbn [In] in Hd.
      destruct Hd as [<-|[<-|[<-|[]]]]; vm_compute in Hk; discriminate Hk.
    + assert (G : pathlib.good_part
                    (base_name_of (pathlib.name (pathlib.parse (a_video sample_args)))
                                  (strftime_stamp t) ++ ext)).
      { cbn [In] in Hext. destruct Hext as [<-|[<-|[]]];
          apply SavedPaths.output_name_good;
          first [apply SavedPaths.json_ext_ok | apply SavedPaths.txt_ext_ok]. }
      rewrite (PathFacts.joinpath_good_part _ _ G) in Hk.
      revert Hk.
      generalize (base_name_of (pathlib.name (pathlib.parse (a_video sample_args)))
                               (strftime_stamp t) ++ ext).
      intros x Hk. vm_compute in Hk. discriminate Hk.
Defined.

(** ** Failures before and inside the call, as the log shows them *)

Section PromptFailures.
Variable rt : Runtime.
Variable env : Env.

(** Opening the file given with [--prompt], when something is there under
    its name: [open] is given the argument as it was typed. *)
Lemma read_prompt_override_entry args p w n :
  a_prompt args = Some p -> str_truthy p = true ->
  let key := os_path env (pathlib.parse p) in
  let started := emit (EvOpenRead key)
                   (emit (EvLog INFO (lit "Загрузка кастомного промпта из " ++ p)) w) in
  fs w !! key = Some n ->
  read_prompt_override rt env args w
  = (match n with
     | Dir =>
         if bool_decide (key ∈ denied w)
         then Raised (Exc PermissionError (error_text rt PermissionError p))
         else Raised (Exc IsADirectoryError (error_text rt IsADirectoryError p))
     | File data =>
         if names_directory p
         then Raised (Exc NotADirectoryError (error_text rt NotADirectoryError p))
         else if bool_decide (key ∈ denied w)
         then Raised (Exc PermissionError (error_text rt PermissionError p))
         else match Utf8.decode data with
              | Some text => Done (Some (universal_newlines text))
              | None => Raised (Exc UnicodeDecodeError
                                    (error_text rt UnicodeDecodeError data))
              end
     end, started).
Proof.
  intros Hp Ht. cbv zeta. intros Hn. unfold read_prompt_override. rewrite Hp, Ht.
  run_cbv. unfold read_file, open_read. run_cbv. rewrite Hn.
  destruct n as [|data].
  - destruct (bool_decide _); reflexivity.
  - destruct (names_directory p); [reflexivity|].
    destruct (bool_decide _); [reflexivity|].
    destruct (Utf8.decode data); reflexivity.
Qed.

(** X21. A file given with [--prompt] that is there but cannot be read
    aborts the run like a missing one.  [open] is given the argument as it
    was typed: when the path is a directory, when it names a regular file as
    a directory (a trailing slash), when it may not be opened, or when the
    file does not hold valid UTF-8, opening or reading it raises outside the
    [try] of [main]; the interpreter prints the traceback, the exit status
    is 1, no ERROR record is logged, nothing is sent to the endpoint and no
    file is written.  The exception is [PermissionError] or
    [IsADirectoryError] for a directory, [NotADirectoryError],
    [PermissionError] or [UnicodeDecodeError] for a regular file; the errors
    of the operating system name the path as it was typed, the error of the
    codec describes the bytes. *)
Theorem unreadable_prompt_aborts
    (args : Args) (p : pystr) (w : World) (a : VideoAnnotator) (n : node) :
  a_prompt args = Some p -> str_truthy p = true ->
  fst (main_setup rt env args w) = Done a ->
  let w0 := snd (main_setup rt env args w) in
  let key := os_path env (pathlib.parse p) in
  fs w0 !! key = Some n ->
  (n = Dir
   \/ names_directory p = true
   \/ key ∈ denied w0
   \/ exists data, n = File data /\ Utf8.decode data = None) ->
  let out := run rt env args w in
  fst out = 1
  /\ (exists c t,
        trace (snd out)
        = EvTraceback (Exc c t) :: EvOpenRead key
          :: EvLog INFO (lit "Загрузка кастомного промпта из " ++ p) :: trace w0
        /\ match n with
           | Dir =>
               c = (if bool_decide (key ∈ denied w0)
                    then PermissionError else IsADirectoryError)
               /\ t = error_text rt c p
           | File data =>
               if names_directory p
               then c = NotADirectoryError /\ t = error_text rt c p
               else if bool_decide (key ∈ denied w0)
               then c = PermissionError /\ t = error_text rt c p
               else c = UnicodeDecodeError /\ t = error_text rt c data
           end)
  /\ logged ERROR (snd out) = logged ERROR w
  /\ quiet w (snd out) /\ no_call w (snd out).
Proof.
  intros Hp Ht Hs. cbv zeta. intros Hn Hbad.
  pose proof (read_prompt_override_entry args p (snd (main_setup rt env args w)) n
                Hp Ht Hn) as Hread.
  cbv zeta in Hread.
  assert (Hcase : exists c t,
             read_prompt_override rt env args (snd (main_setup rt env args w))
             = (Raised (Exc c t),
                emit (EvOpenRead (os_path env (pathlib.parse p)))
                  (emit (EvLog INFO (lit "Загрузка кастомного промпта из " ++ p))
                     (snd (main_setup rt env args w))))
             /\ match n with
                | Dir =>
                    c = (if bool_decide (os_path env (pathlib.parse p)
                                         ∈ denied (snd (main_setup rt env args w)))
                         then PermissionError else IsADirectoryError)
                    /\ t = error_text rt c p
                | File data =>
                    if names_directory p
                    then c = NotADirectoryError /\ t = error_text rt c p
                    else if bool_decide (os_path env (pathlib.parse p)
                                         ∈ denied (snd (main_setup rt env args w)))
                    then c = PermissionError /\ t = error_text rt c p
                    else c = UnicodeDecodeError /\ t = error_text rt c data
                end).
  { rewrite Hread. destruct n as [|data].
    - destruct (bool_decide _); eexists _, _; split; try reflexivity; auto.
    - destruct (names_directory p) eqn:Hdir;
        [eexists _, _; split; try reflexivity; auto|].
      destruct (bool_decide _) eqn:Hden;
        [eexists _, _; split; try reflexivity; auto|].
      apply bool_decide_eq_false in Hden.
      destruct Hbad as [Hd|[Hd|[Hd|(data' & Hd & Hnone)]]];
        [discriminate Hd | discriminate Hd | contradiction |].
      injection Hd as <-. rewrite Hnone.
      eexists _, _; split; try reflexivity; auto. }
  destruct Hcase as (c & t & Hraise & Hwhich).
  assert (Hpre : main_prelude rt env args w
                 = (Raised (Exc c t),
                    emit (EvOpenRead (os_path env (pathlib.parse p)))
                      (emit (EvLog INFO (lit "Загрузка кастомного промпта из " ++ p))
                         (snd (main_setup rt env args w))))).
  { unfold main_prelude.
    rewrite (bind_Done _ _ _ _ a (eq_trans (run_pair _ _) (f_equal2 pair Hs eq_refl))).
    rewrite (bind_Raised _ _ _ _ _ Hraise). reflexivity. }
  rewrite (run_prelude_raises rt env args w _ _ (f_equal fst Hpre)).
  rewrite Hpre. cbn [fst snd emit trace].
  pose proof (main_setup_logs_no_error rt env args w) as Hl.
  pose proof (quiet_main_setup rt env args w) as Hq.
  pose proof (no_call_main_setup rt env args w) as Hc.
  split; [reflexivity|]. split; [eauto|]. split; [exact Hl|]. split.
  - repeat (apply quiet_emit_after; [reflexivity|]). exact Hq.
  - repeat (apply no_call_emit_after; [reflexivity|]). exact Hc.
Qed.

End PromptFailures.

(** The sample run with [--prompt outputs/], a directory: the traceback
    names the path as it was typed. *)
Lemma unreadable_prompt_aborts_witness :
  let env0 := sample_env (Reply 200 [] (Some (lit "text"))) in
  let args := mkArgs (lit "clip.mp4") (Some (lit "outputs/")) None None None in
  let out := run sample_runtime env0 args sample_world in
  fst out = 1 /\ api_calls (snd out) = [] /\ logged ERROR (snd out) = []
  /\ exists rest,
       trace (snd out)
       = EvTraceback (Exc IsADirectoryError (lit "error: outputs/")) :: rest.
Proof.
  cbv zeta.
  destruct (unreadable_prompt_aborts sample_runtime
              (sample_env (Reply 200 [] (Some (lit "text"))))
              (mkArgs (lit "clip.mp4") (Some (lit "outputs/")) None None None)
              (lit "outputs/") sample_world sample_annotator Dir)
    as (Hexit & (c & t & Htrace & Hc & Htext) & Hlog & _ & Hcall).
  - reflexivity.
  - reflexivity.
  - vm_compute. reflexivity.
  - vm_compute. reflexivity.
  - left. reflexivity.
  - split; [exact Hexit|]. split; [rewrite Hcall; reflexivity|].
    split; [rewrite Hlog; reflexivity|].
    rewrite Htrace, Htext, Hc. eexists. vm_compute. reflexivity.
Defined.

Section ErrorLog.
Variable rt : Runtime.
Variable env : Env.

Lemma main_prelude_logs_no_error args :
  steps (unseen (is_log ERROR)) (main_prelude rt env args).
Proof.
  unfold main_prelude, read_prompt_override.
  pose proof (main_setup_logs_no_error rt env args). frame_auto; assumption.
Qed.

(** X22. An error status of the endpoint is reported three times.  When the
    set-up succeeds, the video is there, the prompt is at hand, the console
    can show the name of the video and the model id, and the endpoint
    answers with a status other than 200, the run logs exactly three ERROR
    records, in this order: the status code with the service message, then
    "Ошибка при обработке" with the text of the exception, which holds the
    message only, then "Критическая ошибка" with the text of the exception
    that reaches [main]: the same one when the console can show the message,
    the [UnicodeEncodeError] of the handler's [print] when it cannot.  The
    exit status is 1 either way.  ([logged] lists the newest record
    first.) *)
Theorem api_error_is_logged_three_times
    (args : Args) (w : World) (a : VideoAnnotator) (p : option pystr)
    (text : pystr) (code : Z) (msg : pystr) (choice : option pystr) :
  fst (main_prelude rt env args w) = Done (a, p) ->
  let w1 := snd (main_prelude rt env args w) in
  is_Some (fs w1 !! os_path env (pathlib.parse (a_video args))) ->
  fst (resolve_prompt rt env a p w1) = Done text ->
  endpoint env (request_of env a (a_video args) text) = Reply code msg choice ->
  code <> 200 ->
  Utf8.encodable (pathlib.name (pathlib.parse (a_video args))) = true ->
  Utf8.encodable (self_model a) = true ->
  let reached :=
    if Utf8.encodable msg then lit "Ошибка API: " ++ msg
    else error_text rt UnicodeEncodeError
           (lit "❌ Ошибка при обработке: " ++ lit "Ошибка API: " ++ msg) in
  fst (run rt env args w) = 1
  /\ logged ERROR (snd (run rt env args w))
     = [ lit "Критическая ошибка: " ++ reached;
         lit "Ошибка при обработке: " ++ lit "Ошибка API: " ++ msg;
         lit "Ошибка API: код " ++ str_of_int code ++ lit ", сообщение: " ++ msg ]
       ++ logged ERROR w.
Proof.
  intros Hp. cbv zeta. intros Hv Hprompt Hreply Hcode _ _.
  destruct (annotate_video_error_log rt env a (a_video args) p text _ code msg choice
              Hv Hprompt Hreply Hcode) as [Hraise Hlog].
  assert (Hr : exists c,
             fst (annotate_video rt env a (a_video args) p
                    (snd (main_prelude rt env args w)))
             = Raised (Exc c (if Utf8.encodable msg then lit "Ошибка API: " ++ msg
                              else error_text rt UnicodeEncodeError
                                     (lit "❌ Ошибка при обработке: "
                                      ++ lit "Ошибка API: " ++ msg)))).
  { rewrite Hraise. destruct (Utf8.encodable msg); eauto. }
  destruct Hr as [c Hr].
  pose proof (main_body_raises rt env args a p _ _ _ Hr) as Hb.
  destruct (run_body_raises_after rt env args w a p _ _ Hp (f_equal fst Hb))
    as (Hexit & e & Hrun & _ & _ & _ & He).
  split; [exact Hexit|]. rewrite Hrun, Hb. cbn [snd].
  unfold logged in *. cbn [emit trace omap list_omap]. rewrite (He ERROR).
  cbn [is_log level_eqb]. rewrite Hlog. cbn [app]. do 3 f_equal.
  apply (main_prelude_logs_no_error args w).
Qed.

End ErrorLog.

(** The sample run against an endpoint that answers 500 "boom". *)
Lemma api_error_is_logged_three_times_witness :
  let env0 := sample_env (Reply 500 (lit "boom") None) in
  let out := run sample_runtime env0 sample_args sample_world in
  fst out = 1
  /\ logged ERROR (snd out)
     = [ lit "Критическая ошибка: Ошибка API: boom";
         lit "Ошибка при обработке: Ошибка API: boom";
         lit "Ошибка API: код 500, сообщение: boom" ].
Proof.
  cbv zeta.
  destruct (api_error_is_logged_three_times sample_runtime
              (sample_env (Reply 500 (lit "boom") None)) sample_args sample_world
              sample_annotator None FALLBACK_PROMPT 500 (lit "boom") None)
    as [Hexit Hlog].
  - vm_compute. reflexivity.
  - vm_compute. eauto.
  - vm_compute. reflexivity.
  - reflexivity.
  - discriminate.
  - vm_compute. reflexivity.
  - vm_compute. reflexivity.
  - split; [exact Hexit|]. rewrite Hlog. vm_compute. reflexivity.
Defined.

(** ** Text that goes into the JSON file as it is *)

Lemma escape_verbatim (s : pystr) :
  Forall (fun c => 32 <= c /\ c <> 34 /\ c <> 92) s -> json.escape s = s.
Proof.
  unfold json.escape. induction 1 as [|c r (H1 & H2 & H3) Hr IH]; cbn [map concat];
    [reflexivity|].
  rewrite IH. unfold json.escape_cp, json.quote, json.backslash.
  repeat match goal with
         | |- context [if ?x =? ?y then _ else _] =>
             destruct (Z.eqb_spec x y) as [?|?]; [lia|]
         end.
  destruct (Z.leb_spec 0 c); destruct (Z.ltb_spec c 32); cbn [andb]; try lia;
    reflexivity.
Qed.

Lemma encode_app_Some (a b : pystr) (x : bytes) :
  Utf8.encode (a ++ b) = Some x ->
  exists xa xb, Utf8.encode a = Some xa /\ Utf8.encode b = Some xb /\ x = xa ++ xb.
Proof.
  rewrite Utf8Facts.encode_app.
  destruct (Utf8.encode a) as [xa|], (Utf8.encode b) as [xb|]; try discriminate.
  intros [= <-]. eauto.
Qed.

Section Verbatim.
Variable rt : Runtime.
Variable env : Env.
Hypothesis runtime_ok : sane_runtime rt.

(** X23. [ensure_ascii=False] as the file shows it: when the annotation holds
    no quote, no backslash and no control character (and the strings can be
    encoded and the files created), the JSON file ends with the UTF-8
    encoding of the annotation itself between two quotes, a newline and the
    closing brace; no character of it is replaced by an escape. *)
Theorem json_keeps_text_verbatim
    (self : VideoAnnotator) (name : pystr) (result : AnnotationResult) (w : World) :
  Utf8.encodable name = true ->
  Utf8.encodable (r_model result) = true ->
  Utf8.encodable (r_content result) = true ->
  Forall (fun c => 32 <= c /\ c <> 34 /\ c <> 92) (r_content result) ->
  can_create env w (json_path_at env self name w) ->
  can_create env w (txt_path_at env self name w) ->
  exists before text_bytes,
    Utf8.encode (r_content result) = Some text_bytes
    /\ fs (snd (save_results rt env self name result w))
         !! os_path env (json_path_at env self name w)
       = Some (File (before ++ [34] ++ text_bytes ++ [34; 10; 125])).
Proof.
  intros Hn Hm Hc Hplain Hcj Hct.
  destruct (save_results_fs rt env runtime_ok self name result w Hn Hm Hc Hcj Hct)
    as (jb & tb & Hjb & _ & Hfs & _).
  rewrite (json_chunks_split rt name (stamp_at env w) result) in Hjb.
  cbv zeta in Hjb. rewrite concat_app in Hjb. cbn [concat] in Hjb.
  rewrite app_nil_r in Hjb.
  change (json.encode_basestring (r_content result))
    with ([34] ++ json.escape (r_content result) ++ [34]) in Hjb.
  rewrite (escape_verbatim _ Hplain) in Hjb.
  change (lit "}") with [125] in Hjb.
  apply encode_app_Some in Hjb as (before & rest1 & _ & Hrest & ->).
  rewrite <- !app_assoc in Hrest.
  apply encode_app_Some in Hrest as (q1 & rest2 & Hq1 & Hrest & ->).
  apply encode_app_Some in Hrest as (tbs & rest3 & Htext & Hrest & ->).
  injection Hq1 as <-. vm_compute in Hrest. injection Hrest as <-.
  exists before, tbs. split; [exact Htext|].
  rewrite Hfs. rewrite lookup_insert_ne
    by apply not_eq_sym, SavedPaths.json_txt_keys_differ.
  rewrite lookup_insert_eq. reflexivity.
Qed.

End Verbatim.

(** The sample run with a Cyrillic annotation. *)
Lemma json_keeps_text_verbatim_witness :
  let env0 := sample_env (Reply 200 [] None) in
  exists before,
    fs (snd (save_results sample_runtime env0 sample_annotator (lit "clip.mp4")
                          (sample_result (lit "Идёт")) sample_world))
      !! sample_json_key
    = Some (File (before ++ [34] ++ bytes_of_string "Идёт" ++ [34; 10; 125])).
Proof.
  cbv zeta.
  destruct (json_keeps_text_verbatim sample_runtime (sample_env (Reply 200 [] None))
              sample_runtime_sane sample_annotator (lit "clip.mp4")
              (sample_result (lit "Идёт")) sample_world)
    as (before & tbs & Htext & Hfile).
  - vm_compute. reflexivity.
  - vm_compute. reflexivity.
  - vm_compute. reflexivity.
  - apply Forall_forall. intros c Hin. apply list_elem_of_In in Hin.
    vm_compute in Hin. intuition lia.
  - split; [vm_compute; reflexivity|].
    split; vm_compute; intros H; discriminate H.
  - split; [vm_compute; reflexivity|].
    split; vm_compute; intros H; discriminate H.
  - exists before.
    assert (Hb : tbs = bytes_of_string "Идёт")
      by (vm_compute in Htext; injection Htext as <-; vm_compute; reflexivity).
    rewrite <- Hb, <- Hfile.
    apply (f_equal (fun k => _ !! k)). vm_compute. reflexivity.
Defined.

(** ** What a failed call reports, and what [save_results] leaves *)

Section ApiErrorReport.
Variable rt : Runtime.
Variable env : Env.
Variables (code : Z) (msg : pystr) (choice : option pystr).
Hypothesis endpoint_reply : forall req, endpoint env req = Reply code msg choice.
Hypothesis not_success : code <> 200.

(** C1 (amended). When the endpoint answers with a status other than 200
    (the video being there, the prompt at hand, and the name of the video
    and the model id such that the console can show them), [annotate_video]
    sends its one request, logs the status code together with the service
    message at ERROR level, and its handler logs the exception.  The
    exception it raises carries the fixed prefix followed by the service
    message, and not the status code, which is in the log record only; when
    the console cannot show the message, the [print] of the handler raises
    [UnicodeEncodeError] in its place.  The driver then exits with status 1,
    and no file is opened for writing or changed. *)
Theorem api_error_carries_message
    (self : VideoAnnotator) (v : pystr) (prompt : option pystr) (text : pystr)
    (w : World) (args : Args) (w0 : World) :
  is_Some (fs w !! os_path env (pathlib.parse v)) ->
  fst (resolve_prompt rt env self prompt w) = Done text ->
  Utf8.encodable (pathlib.name (pathlib.parse v)) = true ->
  Utf8.encodable (self_model self) = true ->
  let out := annotate_video rt env self v prompt w in
  api_calls (snd out) = request_of env self v text :: api_calls w
  /\ logged ERROR (snd out)
     = [ lit "Ошибка при обработке: " ++ lit "Ошибка API: " ++ msg;
         lit "Ошибка API: код " ++ str_of_int code ++ lit ", сообщение: " ++ msg ]
       ++ logged ERROR w
  /\ (Utf8.encodable msg = true ->
      fst out = Raised (Exc Exception (lit "Ошибка API: " ++ msg)))
  /\ (Utf8.encodable msg = false ->
      fst out = Raised (Exc UnicodeEncodeError
                            (error_text rt UnicodeEncodeError
                               (lit "❌ Ошибка при обработке: "
                                ++ lit "Ошибка API: " ++ msg))))
  /\ fst (run rt env args w0) = 1
  /\ quiet w0 (snd (run rt env args w0)).
Proof.
  intros Hv Hprompt _ _. cbv zeta.
  destruct (annotate_video_error_log rt env self v prompt text w code msg choice
              Hv Hprompt (endpoint_reply _) not_success) as [Hraise Hlog].
  split; [apply annotate_video_request; assumption|].
  split; [exact Hlog|].
  split; [intros Hm; rewrite Hraise, Hm; reflexivity|].
  split; [intros Hm; rewrite Hraise, Hm; reflexivity|].
  apply run_fails. intros a p w1.
  apply (annotate_video_always_raises rt env code msg choice endpoint_reply
           not_success).
Qed.

End ApiErrorReport.

(** The sample run against an endpoint that answers 500 "boom". *)
Lemma api_error_carries_message_witness :
  let env0 := sample_env (Reply 500 (lit "boom") None) in
  let out := run sample_runtime env0 sample_args sample_world in
  fst (annotate_video sample_runtime env0 sample_annotator (lit "clip.mp4")
                      (Some (lit "describe")) sample_world)
  = Raised (Exc Exception (lit "Ошибка API: " ++ lit "boom"))
  /\ fst out = 1 /\ write_opens (snd out) = [].
Proof.
  cbv zeta.
  pose proof (api_error_carries_message sample_runtime
                (sample_env (Reply 500 (lit "boom") None))
                500 (lit "boom") None (fun _ => eq_refl)
                ltac:(discriminate)
                sample_annotator (lit "clip.mp4") (Some (lit "describe"))
                (lit "describe") sample_world sample_args sample_world) as H.
  destruct H as (_ & _ & H1 & _ & Hexit & [_ Hwrites]);
    [vm_compute; eauto | reflexivity | vm_compute; reflexivity
     | vm_compute; reflexivity |].
  split; [apply H1; vm_compute; reflexivity|].
  split; [exact Hexit|]. rewrite Hwrites. reflexivity.
Defined.

(** C1, as stated, fails: the exception does not embed the status code.
    Against an endpoint answering 500 "boom" the exception text is
    "Ошибка API: boom", in which "500" does not occur, and an endpoint
    answering 404 "boom" leads to the very same exception; and when the
    message is one the console cannot show (a lone surrogate), what
    [annotate_video] raises is the [UnicodeEncodeError] of its handler's
    [print], which carries neither. *)
Lemma api_error_forgets_status_code :
  let run_with code msg :=
    fst (annotate_video sample_runtime (sample_env (Reply code msg None))
                        sample_annotator (lit "clip.mp4") (Some (lit "describe"))
                        sample_world) in
  run_with 500 (lit "boom") = Raised (Exc Exception (lit "Ошибка API: boom"))
  /\ contains (str_of_int 500) (lit "Ошибка API: boom") = false
  /\ contains (lit "boom") (lit "Ошибка API: boom") = true
  /\ run_with 404 (lit "boom") = run_with 500 (lit "boom")
  /\ run_with 500 [55296]
     = Raised (Exc UnicodeEncodeError
                   (lit "error: ❌ Ошибка при обработке: Ошибка API: " ++ [55296])).
Proof.
  cbv zeta. split; [vm_compute; reflexivity|]. split; [vm_compute; reflexivity|].
  split; [vm_compute; reflexivity|]. split; vm_compute; reflexivity.
Qed.


Section TwoFiles.
Variable rt : Runtime.
Variable env : Env.
Hypothesis runtime_ok : sane_runtime rt.


End TwoFiles.


